(** * Verification of the IPTV playlist aggregator (main.py)

    A shallow embedding of the parsing / merging / matching / ranking /
    writing pipeline of [main.py], followed by the properties of the
    specification that were checked against it.

    Python values are modelled as follows.
    - [str] is a list of Unicode code points ([list N]); literals of the
      source are written [utf8 "..."], the decoding of the literal's bytes.
    - [OrderedDict] is an association list with unique keys kept in
      insertion order.
    - [set] is a [gset].
    - [None] is [None]; an unbound local is also [None].
    - a file opened for writing is the text written to it so far. *)

From Stdlib Require Import NArith List String Ascii Lia Decimal DecimalN.
From stdpp Require Import base list gmap sets.

Local Open Scope N_scope.

(** ** Python strings *)

Abbreviation pystr := (list N).

(** Decoding of UTF-8 bytes, used for the literals of the source. *)
Fixpoint utf8_decode (bs : list N) (pending : nat) (acc : N) : pystr :=
  match bs with
  | [] => []
  | b :: bs' =>
      match pending with
      | O =>
          if b <? 128 then b :: utf8_decode bs' O 0
          else if b <? 224 then utf8_decode bs' 1%nat (b - 192)
          else if b <? 240 then utf8_decode bs' 2%nat (b - 224)
          else utf8_decode bs' 3%nat (b - 240)
      | S O => (acc * 64 + (b - 128)) :: utf8_decode bs' O 0
      | S p => utf8_decode bs' p (acc * 64 + (b - 128))
      end
  end.

Definition utf8 (s : string) : pystr :=
  utf8_decode (List.map N_of_ascii (list_ascii_of_string s)) O 0.
Arguments utf8 s%_string.

(** Code points that occur as separators in the program. *)
Definition ch_nl : N := 10.      (* newline *)
Definition ch_cr : N := 13.      (* carriage return *)
Definition ch_quote : N := 34.   (* the double quote *)
Definition ch_hash : N := 35.    (* hash *)
Definition ch_dollar : N := 36.  (* dollar *)
Definition ch_comma : N := 44.   (* comma *)
Definition ch_minus : N := 45.   (* minus *)
Definition ch_lbr : N := 12300.  (* U+300C, left corner bracket *)
Definition ch_rbr : N := 12301.  (* U+300D, right corner bracket *)

(** [str.isspace] for one character; the same table drives [str.strip()]
    and the class [\s] of the [re] module on [str] patterns. *)
Definition isspace (c : N) : bool :=
  ((9 <=? c) && (c <=? 13)) || ((28 <=? c) && (c <=? 32))
  || (c =? 133) || (c =? 160) || (c =? 5760)
  || ((8192 <=? c) && (c <=? 8202))
  || (c =? 8232) || (c =? 8233) || (c =? 8239) || (c =? 8287) || (c =? 12288).

(** Code points of the digit zero of every decimal system (Unicode
    category Nd, Unicode 14); the nine digits after each follow it. *)
Definition decimal_zeros : list N :=
  [
   48; 1632; 1776; 1984; 2406; 2534; 2662; 2790; 2918; 3046; 3174; 3302;
   3430; 3558; 3664; 3792; 3872; 4160; 4240; 6112; 6160; 6470; 6608; 6784;
   6800; 6992; 7088; 7232; 7248; 42528; 43216; 43264; 43472; 43504; 43600; 44016;
   65296; 66720; 68912; 69734; 69872; 69942; 70096; 70384; 70736; 70864; 71248; 71360;
   71472; 71904; 72016; 72784; 73040; 73120; 92768; 92864; 93008; 120782; 120792; 120802;
   120812; 120822; 123200; 123632; 125264; 130032
  ].

(** [unicodedata.decimal]: the value of a decimal digit. The class [\d] of
    [re] and the conversion [int(...)] both rest on it. *)
Definition decimal_value (c : N) : option N :=
  match List.find (fun z => (z <=? c) && (c <? z + 10)) decimal_zeros with
  | Some z => Some (c - z)
  | None => None
  end.

Definition isdecimal (c : N) : bool :=
  match decimal_value c with Some _ => true | None => false end.

(** Simple upper-case mappings, as runs [(lo, hi, step, target)]: the code
    points [lo, lo+step, .., hi] map to [target, target+step, ..]. *)
Definition upper_ranges : list (N * N * N * N) :=
  [
   (97, 122, 1, 65); (181, 181, 1, 924); (224, 246, 1, 192); (248, 254, 1, 216);
   (255, 255, 1, 376); (257, 303, 2, 256); (305, 305, 1, 73); (307, 311, 2, 306);
   (314, 328, 2, 313); (331, 375, 2, 330); (378, 382, 2, 377); (383, 383, 1, 83);
   (384, 384, 1, 579); (387, 389, 2, 386); (392, 392, 1, 391); (396, 396, 1, 395);
   (402, 402, 1, 401); (405, 405, 1, 502); (409, 409, 1, 408); (410, 410, 1, 573);
   (414, 414, 1, 544); (417, 421, 2, 416); (424, 424, 1, 423); (429, 429, 1, 428);
   (432, 432, 1, 431); (436, 438, 2, 435); (441, 441, 1, 440); (445, 445, 1, 444);
   (447, 447, 1, 503); (453, 453, 1, 452); (454, 454, 1, 452); (456, 456, 1, 455);
   (457, 457, 1, 455); (459, 459, 1, 458); (460, 460, 1, 458); (462, 476, 2, 461);
   (477, 477, 1, 398); (479, 495, 2, 478); (498, 498, 1, 497); (499, 499, 1, 497);
   (501, 501, 1, 500); (505, 543, 2, 504); (547, 563, 2, 546); (572, 572, 1, 571);
   (575, 576, 1, 11390); (578, 578, 1, 577); (583, 591, 2, 582); (592, 592, 1, 11375);
   (593, 593, 1, 11373); (594, 594, 1, 11376); (595, 595, 1, 385); (596, 596, 1, 390);
   (598, 599, 1, 393); (601, 601, 1, 399); (603, 603, 1, 400); (604, 604, 1, 42923);
   (608, 608, 1, 403); (609, 609, 1, 42924); (611, 611, 1, 404); (613, 613, 1, 42893);
   (614, 614, 1, 42922); (616, 616, 1, 407); (617, 617, 1, 406); (618, 618, 1, 42926);
   (619, 619, 1, 11362); (620, 620, 1, 42925); (623, 623, 1, 412); (625, 625, 1, 11374);
   (626, 626, 1, 413); (629, 629, 1, 415); (637, 637, 1, 11364); (640, 640, 1, 422);
   (642, 642, 1, 42949); (643, 643, 1, 425); (647, 647, 1, 42929); (648, 648, 1, 430);
   (649, 649, 1, 580); (650, 651, 1, 433); (652, 652, 1, 581); (658, 658, 1, 439);
   (669, 669, 1, 42930); (670, 670, 1, 42928); (837, 837, 1, 921); (881, 883, 2, 880);
   (887, 887, 1, 886); (891, 893, 1, 1021); (940, 940, 1, 902); (941, 943, 1, 904);
   (945, 961, 1, 913); (962, 962, 1, 931); (963, 971, 1, 931); (972, 972, 1, 908);
   (973, 974, 1, 910); (976, 976, 1, 914); (977, 977, 1, 920); (981, 981, 1, 934);
   (982, 982, 1, 928); (983, 983, 1, 975); (985, 1007, 2, 984); (1008, 1008, 1, 922);
   (1009, 1009, 1, 929); (1010, 1010, 1, 1017); (1011, 1011, 1, 895); (1013, 1013, 1, 917);
   (1016, 1016, 1, 1015); (1019, 1019, 1, 1018); (1072, 1103, 1, 1040); (1104, 1119, 1, 1024);
   (1121, 1153, 2, 1120); (1163, 1215, 2, 1162); (1218, 1230, 2, 1217); (1231, 1231, 1, 1216);
   (1233, 1327, 2, 1232); (1377, 1414, 1, 1329); (4304, 4346, 1, 7312); (4349, 4351, 1, 7357);
   (5112, 5117, 1, 5104); (7296, 7296, 1, 1042); (7297, 7297, 1, 1044); (7298, 7298, 1, 1054);
   (7299, 7300, 1, 1057); (7301, 7301, 1, 1058); (7302, 7302, 1, 1066); (7303, 7303, 1, 1122);
   (7304, 7304, 1, 42570); (7545, 7545, 1, 42877); (7549, 7549, 1, 11363); (7566, 7566, 1, 42950);
   (7681, 7829, 2, 7680); (7835, 7835, 1, 7776); (7841, 7935, 2, 7840); (7936, 7943, 1, 7944);
   (7952, 7957, 1, 7960); (7968, 7975, 1, 7976); (7984, 7991, 1, 7992); (8000, 8005, 1, 8008);
   (8017, 8023, 2, 8025); (8032, 8039, 1, 8040); (8048, 8049, 1, 8122); (8050, 8053, 1, 8136);
   (8054, 8055, 1, 8154); (8056, 8057, 1, 8184); (8058, 8059, 1, 8170); (8060, 8061, 1, 8186);
   (8112, 8113, 1, 8120); (8126, 8126, 1, 921); (8144, 8145, 1, 8152); (8160, 8161, 1, 8168);
   (8165, 8165, 1, 8172); (8526, 8526, 1, 8498); (8560, 8575, 1, 8544); (8580, 8580, 1, 8579);
   (9424, 9449, 1, 9398); (11312, 11359, 1, 11264); (11361, 11361, 1, 11360); (11365, 11365, 1, 570);
   (11366, 11366, 1, 574); (11368, 11372, 2, 11367); (11379, 11379, 1, 11378); (11382, 11382, 1, 11381);
   (11393, 11491, 2, 11392); (11500, 11502, 2, 11499); (11507, 11507, 1, 11506); (11520, 11557, 1, 4256);
   (11559, 11559, 1, 4295); (11565, 11565, 1, 4301); (42561, 42605, 2, 42560); (42625, 42651, 2, 42624);
   (42787, 42799, 2, 42786); (42803, 42863, 2, 42802); (42874, 42876, 2, 42873); (42879, 42887, 2, 42878);
   (42892, 42892, 1, 42891); (42897, 42899, 2, 42896); (42900, 42900, 1, 42948); (42903, 42921, 2, 42902);
   (42933, 42947, 2, 42932); (42952, 42954, 2, 42951); (42961, 42961, 1, 42960); (42967, 42969, 2, 42966);
   (42998, 42998, 1, 42997); (43859, 43859, 1, 42931); (43888, 43967, 1, 5024); (65345, 65370, 1, 65313);
   (66600, 66639, 1, 66560); (66776, 66811, 1, 66736); (66967, 67003, 2, 66928); (66968, 66976, 2, 66929);
   (66980, 66992, 2, 66941); (66996, 67000, 2, 66957); (67004, 67004, 1, 66965); (68800, 68850, 1, 68736);
   (71872, 71903, 1, 71840); (93792, 93823, 1, 93760); (125218, 125251, 1, 125184)
  ].

(** Upper-case mappings to more than one character. *)
Definition upper_special : list (N * pystr) :=
  [
   (223, [83; 83]); (329, [700; 78]); (496, [74; 780]); (912, [921; 776; 769]);
   (944, [933; 776; 769]); (1415, [1333; 1362]); (7830, [72; 817]); (7831, [84; 776]);
   (7832, [87; 778]); (7833, [89; 778]); (7834, [65; 702]); (8016, [933; 787]);
   (8018, [933; 787; 768]); (8020, [933; 787; 769]); (8022, [933; 787; 834]); (8064, [7944; 921]);
   (8065, [7945; 921]); (8066, [7946; 921]); (8067, [7947; 921]); (8068, [7948; 921]);
   (8069, [7949; 921]); (8070, [7950; 921]); (8071, [7951; 921]); (8072, [7944; 921]);
   (8073, [7945; 921]); (8074, [7946; 921]); (8075, [7947; 921]); (8076, [7948; 921]);
   (8077, [7949; 921]); (8078, [7950; 921]); (8079, [7951; 921]); (8080, [7976; 921]);
   (8081, [7977; 921]); (8082, [7978; 921]); (8083, [7979; 921]); (8084, [7980; 921]);
   (8085, [7981; 921]); (8086, [7982; 921]); (8087, [7983; 921]); (8088, [7976; 921]);
   (8089, [7977; 921]); (8090, [7978; 921]); (8091, [7979; 921]); (8092, [7980; 921]);
   (8093, [7981; 921]); (8094, [7982; 921]); (8095, [7983; 921]); (8096, [8040; 921]);
   (8097, [8041; 921]); (8098, [8042; 921]); (8099, [8043; 921]); (8100, [8044; 921]);
   (8101, [8045; 921]); (8102, [8046; 921]); (8103, [8047; 921]); (8104, [8040; 921]);
   (8105, [8041; 921]); (8106, [8042; 921]); (8107, [8043; 921]); (8108, [8044; 921]);
   (8109, [8045; 921]); (8110, [8046; 921]); (8111, [8047; 921]); (8114, [8122; 921]);
   (8115, [913; 921]); (8116, [902; 921]); (8118, [913; 834]); (8119, [913; 834; 921]);
   (8124, [913; 921]); (8130, [8138; 921]); (8131, [919; 921]); (8132, [905; 921]);
   (8134, [919; 834]); (8135, [919; 834; 921]); (8140, [919; 921]); (8146, [921; 776; 768]);
   (8147, [921; 776; 769]); (8150, [921; 834]); (8151, [921; 776; 834]); (8162, [933; 776; 768]);
   (8163, [933; 776; 769]); (8164, [929; 787]); (8166, [933; 834]); (8167, [933; 776; 834]);
   (8178, [8186; 921]); (8179, [937; 921]); (8180, [911; 921]); (8182, [937; 834]);
   (8183, [937; 834; 921]); (8188, [937; 921]); (64256, [70; 70]); (64257, [70; 73]);
   (64258, [70; 76]); (64259, [70; 70; 73]); (64260, [70; 70; 76]); (64261, [83; 84]);
   (64262, [83; 84]); (64275, [1348; 1350]); (64276, [1348; 1333]); (64277, [1348; 1339]);
   (64278, [1358; 1350]); (64279, [1348; 1341])
  ].

Definition upper_char (c : N) : pystr :=
  match List.find (fun '(lo, hi, step, _) =>
                (lo <=? c) && (c <=? hi) && ((c - lo) mod step =? 0))
             upper_ranges with
  | Some (lo, _, _, target) => [target + (c - lo)]
  | None =>
      match List.find (fun '(k, _) => k =? c) upper_special with
      | Some (_, u) => u
      | None => [c]
      end
  end.

(** [s.upper()] *)
Definition str_upper (s : pystr) : pystr := List.flat_map upper_char s.

(** [s.startswith(p)] *)
Fixpoint str_startswith (p s : pystr) : bool :=
  match p, s with
  | [], _ => true
  | _ :: _, [] => false
  | a :: p', b :: s' => (a =? b) && str_startswith p' s'
  end.

(** [needle in hay] *)
Fixpoint str_contains (needle hay : pystr) : bool :=
  str_startswith needle hay
  || match hay with
     | [] => false
     | _ :: hay' => str_contains needle hay'
     end.

Fixpoint str_lstrip (s : pystr) : pystr :=
  match s with
  | [] => []
  | c :: s' => if isspace c then str_lstrip s' else s
  end.

Definition str_rstrip (s : pystr) : pystr := rev (str_lstrip (rev s)).

(** [s.strip()] *)
Definition str_strip (s : pystr) : pystr := str_rstrip (str_lstrip s).

(** [s.split(sep)] for a separator of one character (all separators of
    the program are); the result is never empty. *)
Fixpoint str_split (sep : N) (s : pystr) : list pystr :=
  match s with
  | [] => [[]]
  | c :: s' =>
      if c =? sep then [] :: str_split sep s'
      else match str_split sep s' with
           | [] => [[c]]
           | p :: ps => (c :: p) :: ps
           end
  end.

(** [s.split(sep, 1)] *)
Fixpoint str_split1 (sep : N) (s : pystr) : list pystr :=
  match s with
  | [] => [[]]
  | c :: s' =>
      if c =? sep then [[]; s']
      else match str_split1 sep s' with
           | [] => [[c]]
           | p :: ps => (c :: p) :: ps
           end
  end.

(** [sep.join(parts)] *)
Fixpoint str_join (sep : pystr) (parts : list pystr) : pystr :=
  match parts with
  | [] => []
  | [p] => p
  | p :: ps => p ++ sep ++ str_join sep ps
  end.

Fixpoint uint_codes (d : Decimal.uint) : pystr :=
  match d with
  | Decimal.Nil => []
  | Decimal.D0 d => 48 :: uint_codes d
  | Decimal.D1 d => 49 :: uint_codes d
  | Decimal.D2 d => 50 :: uint_codes d
  | Decimal.D3 d => 51 :: uint_codes d
  | Decimal.D4 d => 52 :: uint_codes d
  | Decimal.D5 d => 53 :: uint_codes d
  | Decimal.D6 d => 54 :: uint_codes d
  | Decimal.D7 d => 55 :: uint_codes d
  | Decimal.D8 d => 56 :: uint_codes d
  | Decimal.D9 d => 57 :: uint_codes d
  end.

(** [str(n)] for a non-negative integer. *)
Definition str_of_int (n : N) : pystr := uint_codes (N.to_uint n).

(** [int(s)] for a run of decimal digits. Python integers are unbounded;
    the interpreter's optional cap on the length of such conversions is a
    setting of the runtime, not of the program, and is taken as lifted. *)
Definition int_of_digits (s : pystr) : N :=
  fold_left (fun acc c => acc * 10 + default 0 (decimal_value c)) s 0.

(** The boolean value of a string: empty strings are false. *)
Definition truthy (s : pystr) : bool :=
  match s with [] => false | _ => true end.

(** ** Regular expressions of the program

    Each expression is translated to the function its backtracking search
    computes. [.] matches every character but the newline, [$] matches at
    the end of the string or before a newline that ends it. *)

(** [re.sub] of the class of the four characters [$], U+300C, U+300D and
    [-] by the empty string. *)
Definition sub_decorations (s : pystr) : pystr :=
  List.filter (fun c => negb ((c =? ch_dollar) || (c =? ch_lbr)
                              || (c =? ch_rbr) || (c =? ch_minus))) s.

(** [re.sub] of every run of white space by the empty string. *)
Definition sub_spaces (s : pystr) : pystr :=
  List.filter (fun c => negb (isspace c)) s.

(** The replacement [str(int(m.group(2)))] of a digit run ([run] is empty
    when no run is being read). *)
Definition render_run (run : pystr) : pystr :=
  if truthy run then str_of_int (int_of_digits run) else [].

(** The third [re.sub] of [clean_channel_name]: its pattern is a starred
    group of non-digits followed by a group of one or more digits, its
    replacement is [m.group(1) + str(int(m.group(2)))]. A match is a longest
    stretch of non-digits followed by a longest run of digits, matches are
    taken from left to right without overlap, and the text after the last
    run is kept. [run] holds the digits read so far. *)
Fixpoint sub_numbers (s : pystr) (run : pystr) : pystr :=
  match s with
  | [] => render_run run
  | c :: s' =>
      if isdecimal c then sub_numbers s' (run ++ [c])
      else render_run run ++ c :: sub_numbers s' []
  end.

(** A greedy group [.*] at the head of [s]: the longest prefix without a
    newline. *)
Fixpoint re_dot_star (s : pystr) : pystr :=
  match s with
  | [] => []
  | c :: s' => if c =? ch_nl then [] else c :: re_dot_star s'
  end.

Definition lit_group_title : pystr :=
  Eval vm_compute in utf8 "group-title=" ++ [ch_quote].
Definition lit_quote_comma : pystr := [ch_quote; ch_comma].

(** A lazy group [.*?], a quote, a comma and a greedy group [.*] at the
    head of [s]: the lazy group grows one character at a time until the
    quote and comma follow. *)
Fixpoint re_lazy_quote_comma (s : pystr) : option (pystr * pystr) :=
  if str_startswith lit_quote_comma s
  then Some ([], re_dot_star (drop (length lit_quote_comma) s))
  else match s with
       | [] => None
       | c :: s' =>
           if c =? ch_nl then None
           else match re_lazy_quote_comma s' with
                | Some (g1, g2) => Some (c :: g1, g2)
                | None => None
                end
       end.

(** The [re.search] of [parse_m3u_lines]: the literal [group-title=], a
    quote, a lazy group [.*?], a quote, a comma and a greedy group [.*];
    the result holds the two groups of the leftmost match. *)
Fixpoint re_search_group_title (s : pystr) : option (pystr * pystr) :=
  let here :=
    if str_startswith lit_group_title s
    then re_lazy_quote_comma (drop (length lit_group_title) s)
    else None in
  match here with
  | Some r => Some r
  | None =>
      match s with
      | [] => None
      | _ :: s' => re_search_group_title s'
      end
  end.

(** A lazy group [.*?] followed by [$] at the head of [r]. *)
Definition re_lazy_to_end (r : pystr) : option pystr :=
  let g := re_dot_star r in
  match drop (length g) r with
  | [] => Some g
  | [_] => Some g
  | _ => None
  end.

(** The [re.match] of [parse_txt_lines]: [^], a lazy group [.*?], a comma,
    a lazy group [.*?] and [$]. *)
Fixpoint re_match_name_rest (s : pystr) : option (pystr * pystr) :=
  match s with
  | [] => None
  | c :: s' =>
      let here := if c =? ch_comma then re_lazy_to_end s' else None in
      match here with
      | Some g2 => Some ([], g2)
      | None =>
          if c =? ch_nl then None
          else match re_match_name_rest s' with
               | Some (g1, g2) => Some (c :: g1, g2)
               | None => None
               end
      end
  end.

Definition is_hex_or_colon (c : N) : bool :=
  ((48 <=? c) && (c <=? 57)) || ((97 <=? c) && (c <=? 102))
  || ((65 <=? c) && (c <=? 70)) || (c =? 58).

Fixpoint take_while (p : N -> bool) (s : pystr) : pystr :=
  match s with
  | [] => []
  | c :: s' => if p c then c :: take_while p s' else []
  end.

Definition lit_http_bracket : pystr := Eval vm_compute in utf8 "http://[".

(** The [re.match] of [is_ipv6]: the literal [http://], an opening square
    bracket, one or more characters of the class [0-9a-fA-F:] and a closing
    square bracket. *)
Definition is_ipv6 (url : pystr) : bool :=
  str_startswith lit_http_bracket url
  && (let rest := drop (length lit_http_bracket) url in
      let run := take_while is_hex_or_colon rest in
      truthy run && str_startswith [93] (drop (length run) rest)).

(** ** OrderedDict

    Keys are strings, kept in the order of their first insertion. *)

Definition odict (V : Type) : Type := list (pystr * V).

Section OrderedDict.
Context {V : Type}.

(** [d.get(k)]; [d[k]] where the key is present. *)
Fixpoint od_get (k : pystr) (d : odict V) : option V :=
  match d with
  | [] => None
  | (k', v) :: d' => if bool_decide (k = k') then Some v else od_get k d'
  end.

(** [k in d] *)
Definition od_mem (k : pystr) (d : odict V) : bool :=
  match od_get k d with Some _ => true | None => false end.

(** [d[k] = v]: a present key keeps its place. *)
Fixpoint od_set (k : pystr) (v : V) (d : odict V) : odict V :=
  match d with
  | [] => [(k, v)]
  | (k', v') :: d' =>
      if bool_decide (k = k') then (k', v) :: d'
      else (k', v') :: od_set k v d'
  end.

(** In-place mutation of the value stored at [k], as in
    [d[k].append(x)]. The program only does this at keys it has stored
    before; at a missing key (a [KeyError] in Python) the dictionary is
    returned as it is. *)
Fixpoint od_alter (f : V -> V) (k : pystr) (d : odict V) : odict V :=
  match d with
  | [] => []
  | (k', v) :: d' =>
      if bool_decide (k = k') then (k', f v) :: d'
      else (k', v) :: od_alter f k d'
  end.

(** [d.update(other)] *)
Definition od_update (d other : odict V) : odict V :=
  fold_left (fun acc '(k, v) => od_set k v acc) other d.

(** [d.keys()] *)
Definition od_keys (d : odict V) : list pystr := List.map fst d.
End OrderedDict.

(** [d.setdefault(k, []).append(x)] *)
Definition od_setdefault_append {A : Type} (k : pystr) (x : A)
    (d : odict (list A)) : odict (list A) :=
  match od_get k d with
  | Some _ => od_alter (fun l => l ++ [x]) k d
  | None => od_set k [x] d
  end.

(** ** The program *)

Definition lit_genre : pystr := Eval vm_compute in utf8 "#genre#".
Definition lit_extinf : pystr := Eval vm_compute in utf8 "#EXTINF".
Definition lit_cctv : pystr := Eval vm_compute in utf8 "CCTV".

(** Reading a text file with the default [newline=None]: every line end is
    delivered as a newline. *)
Fixpoint universal_newlines (s : pystr) : pystr :=
  match s with
  | [] => []
  | c :: s' =>
      if c =? ch_cr then
        ch_nl :: match s' with
                 | c2 :: s'' =>
                     if c2 =? ch_nl then universal_newlines s''
                     else universal_newlines s'
                 | [] => []
                 end
      else c :: universal_newlines s'
  end.

(** [for line in f]: the lines of a text, each with the newline that ends
    it (the last line may have none). *)
Fixpoint file_lines (s : pystr) : list pystr :=
  match s with
  | [] => []
  | c :: s' =>
      if c =? ch_nl then [c] :: file_lines s'
      else match file_lines s' with
           | [] => [[c]]
           | l :: ls => (c :: l) :: ls
           end
  end.

(** The loop state of [parse_template]. *)
Record template_state := {
  template_channels : odict (list pystr);
  template_category : option pystr
}.

Definition template_step (st : template_state) (line : pystr)
    : template_state :=
  let line := str_strip line in
  if truthy line && negb (str_startswith [ch_hash] line) then
    if str_contains lit_genre line then
      let current_category := str_strip (hd [] (str_split ch_comma line)) in
      {| template_channels := od_set current_category []
                                (template_channels st);
         template_category := Some current_category |}
    else
      match template_category st with
      | Some current_category =>
          if truthy current_category then
            let channel_name := str_strip (hd [] (str_split ch_comma line)) in
            {| template_channels :=
                 od_alter (fun l => l ++ [channel_name]) current_category
                   (template_channels st);
               template_category := template_category st |}
          else st
      | None => st
      end
  else st.

Definition template_init : template_state :=
  {| template_channels := []; template_category := None |}.

Definition template_run (lines : list pystr) : template_state :=
  fold_left template_step lines template_init.

(** [parse_template], on the lines the file iterator yields. *)
Definition parse_template_lines (lines : list pystr) : odict (list pystr) :=
  template_channels (template_run lines).

(** [parse_template], on the decoded content of the template file. *)
Definition parse_template (content : pystr) : odict (list pystr) :=
  parse_template_lines (file_lines (universal_newlines content)).

(** [clean_channel_name] *)
Definition clean_channel_name (channel_name : pystr) : pystr :=
  let cleaned_name := sub_decorations channel_name in
  let cleaned_name := sub_spaces cleaned_name in
  let cleaned_name := sub_numbers cleaned_name [] in
  str_upper cleaned_name.

(** The channels of one source or of all of them: per category, the
    (name, url) pairs in the order they were appended. *)
Abbreviation channel_map := (odict (list (pystr * pystr))).

(** The loop state of [parse_m3u_lines]; [m3u_name] is [None] while the
    local [channel_name] is unbound. *)
Record m3u_state := {
  m3u_channels : channel_map;
  m3u_category : option pystr;
  m3u_name : option pystr
}.

Definition m3u_step (st : m3u_state) (line : pystr) : m3u_state :=
  let line := str_strip line in
  if str_startswith lit_extinf line then
    match re_search_group_title line with
    | Some (g1, g2) =>
        let current_category := str_strip g1 in
        let channel_name := str_strip g2 in
        let channel_name :=
          if truthy channel_name && str_startswith lit_cctv channel_name
          then clean_channel_name channel_name else channel_name in
        {| m3u_channels :=
             if od_mem current_category (m3u_channels st)
             then m3u_channels st
             else od_set current_category [] (m3u_channels st);
           m3u_category := Some current_category;
           m3u_name := Some channel_name |}
    | None => st
    end
  else if truthy line && negb (str_startswith [ch_hash] line) then
    let channel_url := str_strip line in
    match m3u_category st, m3u_name st with
    | Some current_category, Some channel_name =>
        if truthy current_category && truthy channel_name then
          {| m3u_channels :=
               od_alter (fun l => l ++ [(channel_name, channel_url)])
                 current_category (m3u_channels st);
             m3u_category := m3u_category st;
             m3u_name := m3u_name st |}
        else st
    | _, _ => st
    end
  else st.

Definition m3u_init : m3u_state :=
  {| m3u_channels := []; m3u_category := None; m3u_name := None |}.

Definition m3u_run (lines : list pystr) : m3u_state :=
  fold_left m3u_step lines m3u_init.

(** [parse_m3u_lines] *)
Definition parse_m3u_lines (lines : list pystr) : channel_map :=
  m3u_channels (m3u_run lines).

(** The loop state of [parse_txt_lines]. *)
Record txt_state := {
  txt_channels : channel_map;
  txt_category : option pystr
}.

Definition txt_step (st : txt_state) (line : pystr) : txt_state :=
  let line := str_strip line in
  if str_contains lit_genre line then
    let current_category := str_strip (hd [] (str_split ch_comma line)) in
    {| txt_channels := od_set current_category [] (txt_channels st);
       txt_category := Some current_category |}
  else
    match txt_category st with
    | Some current_category =>
        if truthy current_category then
          match re_match_name_rest line with
          | Some (g1, g2) =>
              let channel_name := str_strip g1 in
              let channel_name :=
                if truthy channel_name && str_startswith lit_cctv channel_name
                then clean_channel_name channel_name else channel_name in
              let channel_urls := str_split ch_hash (str_strip g2) in
              {| txt_channels :=
                   fold_left
                     (fun channels channel_url =>
                        od_alter
                          (fun l => l ++ [(channel_name, str_strip channel_url)])
                          current_category channels)
                     channel_urls (txt_channels st);
                 txt_category := txt_category st |}
          | None =>
              if truthy line then
                {| txt_channels :=
                     od_alter (fun l => l ++ [(line, [])]) current_category
                       (txt_channels st);
                   txt_category := txt_category st |}
              else st
          end
        else st
    | None => st
    end.

Definition txt_init : txt_state :=
  {| txt_channels := []; txt_category := None |}.

Definition txt_run (lines : list pystr) : txt_state :=
  fold_left txt_step lines txt_init.

(** [parse_txt_lines] *)
Definition parse_txt_lines (lines : list pystr) : channel_map :=
  txt_channels (txt_run lines).

(** [any(line.startswith("#EXTINF") for line in lines[:15])] *)
Definition is_m3u (lines : list pystr) : bool :=
  existsb (str_startswith lit_extinf) (take 15 lines).

(** [fetch_channels], on the outcome of the request: [Some text] is the
    decoded body of a successful response, [None] stands for a raised
    [requests.RequestException]. *)
Definition fetch_channels (response : option pystr) : channel_map :=
  match response with
  | Some text =>
      let lines := str_split ch_nl text in
      if is_m3u lines then od_update [] (parse_m3u_lines lines)
      else od_update [] (parse_txt_lines lines)
  | None => []
  end.

(** [merge_channels]; the mutated [target] is returned. *)
Definition merge_channels (target source : channel_map) : channel_map :=
  fold_left
    (fun target '(category, channel_list) =>
       if od_mem category target
       then od_alter (fun l => l ++ channel_list) category target
       else od_set category channel_list target)
    source target.

(** The result of [match_channels]: per category, the candidate urls of
    each matched channel name. *)
Abbreviation matched_map := (odict (odict (list pystr))).

(** [match_channels] *)
Definition match_channels (template_channels : odict (list pystr))
    (all_channels : channel_map) : matched_map :=
  fold_left
    (fun matched_channels '(category, channel_list) =>
       let matched_channels := od_set category [] matched_channels in
       fold_left
         (fun matched_channels channel_name =>
            fold_left
              (fun matched_channels '(online_category, online_channel_list) =>
                 fold_left
                   (fun matched_channels '(online_channel_name, online_channel_url) =>
                      if bool_decide (channel_name = online_channel_name)
                      then od_alter
                             (od_setdefault_append channel_name online_channel_url)
                             category matched_channels
                      else matched_channels)
                   online_channel_list matched_channels)
              all_channels matched_channels)
         channel_list matched_channels)
    template_channels [].

(** The settings read from the module [config], which is not part of the
    sources: they are taken as a parameter of the run. *)
Record config := {
  source_urls : list pystr;
  epg_urls : list pystr;
  url_blacklist : list pystr;
  ip_version_priority : pystr
}.

(** The outside world of one run: the content of the template file, the
    outcome of the request for each source url, and the wall clock. *)
Record datetime := {
  dt_year : N; dt_month : N; dt_day : N;
  dt_hour : N; dt_minute : N; dt_second : N
}.

(** Decimal rendering padded with zeros to [width] characters. *)
Definition zero_pad (width : nat) (n : N) : pystr :=
  let s := str_of_int n in
  repeat 48 (width - length s)%nat ++ s.

(** The pattern of [strftime] used by the writer: year, month and day,
    joined by minus signs. *)
Definition strftime_Ymd (now : datetime) : pystr :=
  zero_pad 4 (dt_year now) ++ [ch_minus] ++ zero_pad 2 (dt_month now)
  ++ [ch_minus] ++ zero_pad 2 (dt_day now).

(** [filter_source_urls]; [fetch] gives the outcome of [requests.get]
    followed by [raise_for_status] for each url. *)
Definition filter_source_urls (cfg : config) (fetch : pystr -> option pystr)
    (template_content : pystr) : matched_map * odict (list pystr) :=
  let template_channels := parse_template template_content in
  let all_channels :=
    fold_left
      (fun all_channels url =>
         let fetched_channels := fetch_channels (fetch url) in
         merge_channels all_channels fetched_channels)
      (source_urls cfg) [] in
  let matched_channels := match_channels template_channels all_channels in
  (matched_channels, template_channels).

(** [sorted(l, key=key)] for a boolean key ([False] sorts before [True]):
    a stable insertion sort. *)
Fixpoint sorted_insert {A : Type} (key : A -> bool) (x : A) (l : list A)
    : list A :=
  match l with
  | [] => [x]
  | y :: l' =>
      if implb (key x) (key y) then x :: y :: l'
      else y :: sorted_insert key x l'
  end.

Definition py_sorted {A : Type} (key : A -> bool) (l : list A) : list A :=
  foldr (sorted_insert key) [] l.

Definition lit_ipv6 : pystr := Eval vm_compute in utf8 "ipv6".

(** The sort key of [sort_and_filter_urls]. *)
Definition family_key (cfg : config) (u : pystr) : bool :=
  if bool_decide (ip_version_priority cfg = lit_ipv6)
  then negb (is_ipv6 u) else is_ipv6 u.

(** [sort_and_filter_urls]; the mutated set is returned with the list. *)
Definition sort_and_filter_urls (cfg : config) (urls : list pystr)
    (written_urls : gset (list N)) : list pystr * gset (list N) :=
  let filtered_urls :=
    List.filter
      (fun url =>
         truthy url && negb (bool_decide (url ∈ written_urls))
         && negb (existsb (fun blacklist => str_contains blacklist url)
                    (url_blacklist cfg)))
      (py_sorted (family_key cfg) urls) in
  (filtered_urls, written_urls ∪ list_to_set filtered_urls).

Definition lit_lr_ipv6 : pystr := Eval vm_compute in utf8 "$LR•IPV6".
Definition lit_lr_ipv4 : pystr := Eval vm_compute in utf8 "$LR•IPV4".
Definition lit_line_open : pystr := Eval vm_compute in utf8 "『线路".
Definition lit_line_close : pystr := Eval vm_compute in utf8 "』".

(** [add_url_suffix] *)
Definition add_url_suffix (url : pystr) (index total_urls : N) : pystr :=
  let suffix :=
    if is_ipv6 url then
      if total_urls =? 1 then lit_lr_ipv6
      else lit_lr_ipv6 ++ lit_line_open ++ str_of_int index ++ lit_line_close
    else
      if total_urls =? 1 then lit_lr_ipv4
      else lit_lr_ipv4 ++ lit_line_open ++ str_of_int index ++ lit_line_close in
  let base_url :=
    if str_contains [ch_dollar] url then hd [] (str_split1 ch_dollar url)
    else url in
  base_url ++ suffix.

(** The two files being written. *)
Record files := { f_m3u : pystr; f_txt : pystr }.

Definition lit_logo_base : pystr :=
  Eval vm_compute in utf8 "https://gcore.jsdelivr.net/gh/yuanzl77/TVlogo@master/png/".
Definition lit_png : pystr := Eval vm_compute in utf8 ".png".
Definition lit_header_mark : pystr := Eval vm_compute in utf8 ",#genre#".

(** [write_to_files] *)
Definition write_to_files (fs : files) (category channel_name : pystr)
    (index : N) (new_url : pystr) : files :=
  let logo_url := lit_logo_base ++ channel_name ++ lit_png in
  {| f_m3u :=
       f_m3u fs
       ++ utf8 "#EXTINF:-1 tvg-id=" ++ [ch_quote] ++ str_of_int index
       ++ [ch_quote] ++ utf8 " tvg-name=" ++ [ch_quote] ++ channel_name
       ++ [ch_quote] ++ utf8 " tvg-logo=" ++ [ch_quote] ++ logo_url
       ++ [ch_quote] ++ utf8 " group-title=" ++ [ch_quote] ++ category
       ++ [ch_quote] ++ [ch_comma] ++ channel_name ++ [ch_nl]
       ++ new_url ++ [ch_nl];
     f_txt := f_txt fs ++ channel_name ++ [ch_comma] ++ new_url ++ [ch_nl] |}.

(** [enumerate(l, start=i)] *)
Fixpoint enumerate {A : Type} (i : N) (l : list A) : list (N * A) :=
  match l with
  | [] => []
  | x :: l' => (i, x) :: enumerate (i + 1) l'
  end.

(** The body of the loop over template channel names in
    [updateChannelUrlsM3U]. *)
Definition write_channel (cfg : config) (category : pystr)
    (inner : odict (list pystr)) (st : files * gset (list N))
    (channel_name : pystr) : files * gset (list N) :=
  let '(fs, written_urls) := st in
  match od_get channel_name inner with
  | Some urls =>
      let '(sorted_urls, written_urls) :=
        sort_and_filter_urls cfg urls written_urls in
      let total_urls := N.of_nat (length sorted_urls) in
      (fold_left
         (fun fs '(index, url) =>
            let new_url := add_url_suffix url index total_urls in
            write_to_files fs category channel_name index new_url)
         (enumerate 1 sorted_urls) fs,
       written_urls)
  | None => st
  end.

(** The body of the loop over template categories. *)
Definition write_category (cfg : config) (channels : matched_map)
    (st : files * gset (list N)) (entry : pystr * list pystr)
    : files * gset (list N) :=
  let '(category, channel_list) := entry in
  let st := ({| f_m3u := f_m3u st.1;
                f_txt := f_txt st.1 ++ category ++ lit_header_mark ++ [ch_nl] |},
             st.2) in
  match od_get category channels with
  | Some inner => fold_left (write_channel cfg category inner) channel_list st
  | None => st
  end.

(** [updateChannelUrlsM3U]: the content of [live.m3u] and [live.txt] when
    the function returns. [now] is the value of [datetime.now()]. *)
Definition updateChannelUrlsM3U (cfg : config) (now : datetime)
    (channels : matched_map) (template_channels : odict (list pystr)) : files :=
  let written_urls : gset (list N) := ∅ in
  let current_date := strftime_Ymd now in
  let f_m3u0 :=
    utf8 "#EXTM3U x-tvg-url="
    ++ str_join [ch_comma]
         (List.map (fun epg_url => [ch_quote] ++ epg_url ++ [ch_quote])
            (epg_urls cfg))
    ++ [ch_nl] in
  let st :=
    fold_left (write_category cfg channels) template_channels
      ({| f_m3u := f_m3u0; f_txt := [] |}, written_urls) in
  {| f_m3u := f_m3u st.1; f_txt := f_txt st.1 ++ [ch_nl] |}.

(** The main program: the two playlist files of a run. *)
Definition main (cfg : config) (fetch : pystr -> option pystr)
    (now : datetime) (template_content : pystr) : files :=
  let '(channels, template_channels) :=
    filter_source_urls cfg fetch template_content in
  updateChannelUrlsM3U cfg now channels template_channels.

(** ** Auxiliary notions used in the statements *)

(** The test a url passes to be kept by [sort_and_filter_urls]. *)
Definition survives (cfg : config) (written_urls : gset (list N))
    (url : pystr) : bool :=
  truthy url && negb (bool_decide (url ∈ written_urls))
  && negb (existsb (fun blacklist => str_contains blacklist url)
             (url_blacklist cfg)).

(** The double-quoted form of a string. *)
Definition quoted (s : pystr) : pystr := [ch_quote] ++ s ++ [ch_quote].

(** Sample inputs on which the statements are exercised. *)
Definition sample_config (priority : pystr) : config :=
  {| source_urls := [utf8 "http://source/1"; utf8 "http://source/2"];
     epg_urls := [utf8 "http://epg/1"; utf8 "http://epg/2"];
     url_blacklist := [utf8 "bad.example"];
     ip_version_priority := priority |}.

Definition sample_now (day : N) : datetime :=
  {| dt_year := 2024; dt_month := 3; dt_day := day;
     dt_hour := 12; dt_minute := 0; dt_second := 0 |}.

Definition sample_template : pystr :=
  utf8 "News,#genre#
CCTV1
Other
# a comment
Empty,#genre#
".

Definition sample_m3u_source : pystr :=
  utf8 "#EXTM3U
#EXTINF:-1 group-title=" ++ quoted (utf8 "News") ++ utf8 ",CCTV01
http://[::1]/a
http://b/c$old
#EXTINF:-1 group-title=" ++ quoted (utf8 "News") ++ utf8 ",Other
http://bad.example/1
".

Definition sample_txt_source : pystr :=
  utf8 "Misc,#genre#
Other,http://o/1#http://o/2
CCTV-1,http://b/c$old
".

Definition sample_fetch (url : pystr) : option pystr :=
  if bool_decide (url = utf8 "http://source/1") then Some sample_m3u_source
  else if bool_decide (url = utf8 "http://source/2") then Some sample_txt_source
  else None.

Definition sample_extinf_line : pystr :=
  utf8 "#EXTINF:-1 group-title=" ++ quoted (utf8 "News") ++ utf8 ",CCTV01".

(** [s.partition(sep)] when [sep] occurs in [s]: the text before its first
    occurrence and the text after it; [None] when it does not occur. *)
Fixpoint str_partition (sep s : pystr) : option (pystr * pystr) :=
  if str_startswith sep s then Some ([], drop (length sep) s)
  else match s with
       | [] => None
       | c :: s' =>
           match str_partition sep s' with
           | Some (before, after) => Some (c :: before, after)
           | None => None
           end
       end.

(** A line of the extended format that carries a url: not blank and not
    starting with a hash. *)
Definition is_url_line (line : pystr) : bool :=
  truthy (str_strip line) && negb (str_startswith [ch_hash] (str_strip line)).

Definition sample_nameless_extinf_line : pystr :=
  utf8 "#EXTINF:-1 group-title=" ++ quoted (utf8 "News") ++ utf8 ",".

Definition sample_comma_extinf_line : pystr :=
  utf8 "#EXTINF:-1 group-title=" ++ quoted (utf8 "News") ++ utf8 ",A,B".

Definition sample_attr_extinf_line : pystr :=
  utf8 "#EXTINF:-1 group-title=" ++ quoted (utf8 "News") ++ utf8 " tvg-id="
  ++ quoted (utf8 "7") ++ utf8 ",A".

(** The text before the first comma. *)
Definition pre_comma (s : pystr) : pystr :=
  take_while (fun c => negb (c =? ch_comma)) s.

(** The kinds of template lines: blank lines and lines starting with a
    hash are ignored; another line is a category line when it contains the
    marker; the name a line gives is its trimmed text before the first
    comma. *)
Definition template_line_ignored (line : pystr) : bool :=
  negb (truthy (str_strip line)) || str_startswith [ch_hash] (str_strip line).

Definition template_line_category (line : pystr) : bool :=
  negb (template_line_ignored line) && str_contains lit_genre (str_strip line).

Definition template_line_name (line : pystr) : pystr :=
  str_strip (pre_comma (str_strip line)).

(** [s.endswith(suffix)] *)
Definition str_endswith (suffix s : pystr) : bool :=
  str_startswith (rev suffix) (rev s).

(** The lines of a written file, and those among them that are category
    headers: a category followed by the marker [,#genre#]. *)
Definition is_header_line (line : pystr) : bool :=
  str_endswith lit_header_mark line.

Definition header_lines (content : pystr) : list pystr :=
  List.filter is_header_line (str_split ch_nl content).

(** Strings without newline, as every string cut out of a source line or
    a template line is. *)
Definition no_newline (s : pystr) : bool :=
  forallb (fun c => negb (c =? ch_nl)) s.

Definition template_no_newline (template_channels : odict (list pystr)) : bool :=
  forallb (fun '(category, channel_list) =>
             no_newline category && forallb no_newline channel_list)
    template_channels.

Definition matched_no_newline (channels : matched_map) : bool :=
  forallb (fun '(_, inner) =>
             forallb (fun '(_, urls) => forallb no_newline urls)
               (inner : odict (list pystr)))
    channels.

(** The text of a sequence of lines, each ended by a newline. *)
Definition unlines (ls : list pystr) : pystr :=
  List.flat_map (fun l => l ++ [ch_nl]) ls.

(** A line of the delimited output that is not a header, and the relation
    between the files before and after a stretch of such lines was
    written. *)
Definition body_line (line : pystr) : bool :=
  no_newline line && negb (is_header_line line).

Definition appends_body (fs fs' : files) : Prop :=
  exists ls : list pystr,
    f_txt fs' = f_txt fs ++ unlines ls /\ forallb body_line ls = true.

Definition channels_no_newline (channels : channel_map) : bool :=
  forallb (fun '(_, pairs) =>
             forallb (fun '(_, url) => no_newline url)
               (pairs : list (pystr * pystr)))
    channels.

Definition entry_no_newline (entry : pystr * list (pystr * pystr)) : Prop :=
  Forall (fun pair : pystr * pystr => no_newline pair.2 = true) entry.2.

Definition inner_no_newline (entry : pystr * odict (list pystr)) : Prop :=
  Forall (fun candidates : pystr * list pystr =>
            Forall (fun url => no_newline url = true) candidates.2)
    entry.2.

Definition template_entry_no_newline (entry : pystr * list pystr) : Prop :=
  no_newline entry.1 = true
  /\ Forall (fun name => no_newline name = true) entry.2.

(** A line of the extended format on which the metadata pattern matches. *)
Definition is_metadata_line (line : pystr) : bool :=
  str_startswith lit_extinf (str_strip line)
  && match re_search_group_title (str_strip line) with
     | Some _ => true
     | None => false
     end.

(** A line of the delimited format that opens a category. *)
Definition is_genre_line (line : pystr) : bool :=
  str_contains lit_genre (str_strip line).

(** The loops of [match_channels] seen from the inner mapping of one
    template category: the pairs of one source category, all the source
    categories, and all the names of the template category. *)
Definition match_pairs (channel_name : pystr)
    (online_channel_list : list (pystr * pystr))
    (inner : odict (list pystr)) : odict (list pystr) :=
  fold_left
    (fun inner '(online_channel_name, online_channel_url) =>
       if bool_decide (channel_name = online_channel_name)
       then od_setdefault_append channel_name online_channel_url inner
       else inner)
    online_channel_list inner.

Definition match_all (channel_name : pystr) (all_channels : channel_map)
    (inner : odict (list pystr)) : odict (list pystr) :=
  fold_left
    (fun inner '(_, online_channel_list) =>
       match_pairs channel_name online_channel_list inner)
    all_channels inner.

Definition match_names (channel_list : list pystr) (all_channels : channel_map)
    (inner : odict (list pystr)) : odict (list pystr) :=
  fold_left (fun inner channel_name => match_all channel_name all_channels inner)
    channel_list inner.

(** The urls listed under a name, in the order of the pairs. *)
Definition urls_named (channel_name : pystr)
    (pairs : list (pystr * pystr)) : list pystr :=
  List.map snd
    (List.filter (fun pair : pystr * pystr => bool_decide (channel_name = pair.1))
       pairs).

(** All the pairs of the sources, in repository order. *)
Definition all_pairs (all_channels : channel_map) : list (pystr * pystr) :=
  concat (List.map snd all_channels).

(** How often a name is listed. *)
Definition occurrences (channel_name : pystr) (channel_list : list pystr) : nat :=
  length (List.filter (fun name => bool_decide (name = channel_name))
            channel_list).

(** The settings with another list of sources. *)
Definition with_source_urls (cfg : config) (urls : list pystr) : config :=
  {| source_urls := urls;
     epg_urls := epg_urls cfg;
     url_blacklist := url_blacklist cfg;
     ip_version_priority := ip_version_priority cfg |}.

(** A fetch that fails for one url. *)
Definition failing_at (bad : pystr) (fetch : pystr -> option pystr)
    (url : pystr) : option pystr :=
  if bool_decide (url = bad) then None else fetch url.

(** The characters the first two substitutions of [clean_channel_name]
    remove. *)
Definition is_decoration (c : N) : bool :=
  (c =? ch_dollar) || (c =? ch_lbr) || (c =? ch_rbr) || (c =? ch_minus).

Definition is_removed (c : N) : bool := is_decoration c || isspace c.

(** The code points a run of the upper-case table covers, and all the code
    points that have an upper-case mapping. *)
Definition range_points (range : N * N * N * N) : list N :=
  let '(lo, hi, step, _) := range in
  List.map (fun k => lo + step * N.of_nat k)
    (seq 0 (S (N.to_nat ((hi - lo) / step)))).

Definition mapped_points : list N :=
  List.flat_map range_points upper_ranges ++ List.map fst upper_special.

(** What upper-casing one character never does: it yields at least one
    character, each of them its own upper case, no decimal digit unless the
    character is one, and none of the removed characters unless the
    character is one. *)
Definition upper_char_sane (c : N) : bool :=
  truthy (upper_char c)
  && forallb (fun x => bool_decide (upper_char x = [x])) (upper_char c)
  && (isdecimal c || forallb (fun x => negb (isdecimal x)) (upper_char c))
  && (is_removed c || forallb (fun x => negb (is_removed x)) (upper_char c)).

(** The ten ASCII digits. *)
Definition is_ascii_digit (c : N) : bool := (48 <=? c) && (c <=? 57).

(** What holds of every character of a normalized name. *)
Definition clean_char (c : N) : Prop :=
  is_removed c = false /\ (isdecimal c = true -> is_ascii_digit c = true).

(** A name the normalizer leaves alone if it starts with the prefix CCTV,
    a pair whose name is such unless its url is empty, and a repository
    all of whose pairs have a property. *)
Definition name_normal (name : pystr) : Prop :=
  str_startswith lit_cctv name = true -> clean_channel_name name = name.

Definition pair_normal (pair : pystr * pystr) : Prop :=
  pair.2 <> [] -> name_normal pair.1.

Definition pairs_all (P : pystr * pystr -> Prop) (channels : channel_map)
    : Prop :=
  Forall (fun entry : pystr * list (pystr * pystr) => Forall P entry.2)
    channels.

Definition sample_unnormalized_source : pystr :=
  Eval vm_compute in
    utf8 "News,#genre#" ++ [ch_nl] ++ utf8 "CCTV-1,http://a/1" ++ [ch_nl]
    ++ utf8 "CCTV-1" ++ [ch_nl].

Definition sample_unnormalized_template : pystr :=
  Eval vm_compute in
    utf8 "News,#genre#" ++ [ch_nl] ++ utf8 "CCTV-1" ++ [ch_nl]
    ++ utf8 "CCTV1" ++ [ch_nl].

(** The first line of [live.m3u] and the line that opens a category in
    [live.txt]. *)
Definition m3u_header (cfg : config) : pystr :=
  utf8 "#EXTM3U x-tvg-url="
  ++ str_join [ch_comma]
       (List.map (fun epg_url => [ch_quote] ++ epg_url ++ [ch_quote])
          (epg_urls cfg))
  ++ [ch_nl].

Definition category_header (category : pystr) : pystr :=
  category ++ lit_header_mark ++ [ch_nl].

(** One call of [write_to_files]: its arguments, and what it writes to
    the two files. *)
Record written_entry := {
  e_category : pystr;
  e_name : pystr;
  e_index : N;
  e_url : pystr
}.

Definition no_files : files := {| f_m3u := []; f_txt := [] |}.

Definition entry_records (e : written_entry) : files :=
  write_to_files no_files (e_category e) (e_name e) (e_index e) (e_url e).

Definition m3u_text (entries : list written_entry) : pystr :=
  concat (List.map (fun e => f_m3u (entry_records e)) entries).

Definition txt_text (entries : list written_entry) : pystr :=
  concat (List.map (fun e => f_txt (entry_records e)) entries).

(** The entries of a group belong to a template category and to the channel
    names it lists. *)
Definition group_of (entry : pystr * list pystr)
    (group : list written_entry) : Prop :=
  Forall (fun e => e_category e = entry.1 /\ e_name e ∈ entry.2) group.

(** * Properties *)

(** ** Strings *)

Lemma str_startswith_app (p s : pystr) : str_startswith p (p ++ s) = true.
Proof.
  induction p as [|a p IH]; simpl; [done|].
  by rewrite N.eqb_refl, IH.
Qed.

Lemma str_startswith_inv (p s : pystr) :
  str_startswith p s = true -> s = p ++ drop (length p) s.
Proof.
  revert s; induction p as [|a p IH]; intros [|b s]; simpl; try done.
  intros [Hab Hp]%andb_prop. apply N.eqb_eq in Hab as ->.
  f_equal. by apply IH.
Qed.

Lemma str_contains_nil (needle : pystr) :
  str_contains needle [] = str_startswith needle [].
Proof. simpl. by rewrite orb_false_r. Qed.

Lemma str_split_nonempty (sep : N) (s : pystr) : str_split sep s <> [].
Proof.
  induction s as [|c s IH]; simpl; [done|].
  destruct (c =? sep); [done|]. by destruct (str_split sep s).
Qed.

(** Splitting distributes over a separator: the pieces of the left part,
    then those of the right part. *)
Lemma str_split_app (sep : N) (s t : pystr) :
  str_split sep (s ++ sep :: t) = str_split sep s ++ str_split sep t.
Proof.
  induction s as [|c s IH]; simpl.
  - by rewrite N.eqb_refl.
  - destruct (c =? sep); [by rewrite IH|].
    rewrite IH. pose proof (str_split_nonempty sep s).
    by destruct (str_split sep s).
Qed.

Lemma str_split_no_sep (sep : N) (s : pystr) :
  sep ∉ s -> str_split sep s = [s].
Proof.
  induction s as [|c s IH]; simpl; [done|].
  intros Hn. apply not_elem_of_cons in Hn as [Hc Hs].
  destruct (N.eqb_spec c sep) as [->|_]; [done|]. by rewrite IH.
Qed.

(** ** OrderedDict *)

Section OrderedDictFacts.
Context {V : Type}.
Implicit Types (d other : odict V) (k : pystr).

Lemma od_mem_keys k d : od_mem k d = true <-> k ∈ od_keys d.
Proof.
  unfold od_mem. induction d as [|[k' v] d IH]; simpl.
  - split; [done|]. by intros ?%elem_of_nil.
  - case_bool_decide as Hk; [subst; split; [intros _; left|done]|].
    rewrite IH. split; [by right|]. by intros [?|?]%elem_of_cons.
Qed.

Lemma od_mem_false_keys k d : od_mem k d = false <-> k ∉ od_keys d.
Proof. rewrite <- od_mem_keys. by destruct (od_mem k d). Qed.

Lemma od_set_fresh k v d : k ∉ od_keys d -> od_set k v d = d ++ [(k, v)].
Proof.
  induction d as [|[k' v'] d IH]; simpl; [done|].
  intros [Hk Hd]%not_elem_of_cons.
  rewrite bool_decide_false by done. by rewrite IH.
Qed.

Lemma od_keys_set k v d :
  od_keys (od_set k v d) = if od_mem k d then od_keys d else od_keys d ++ [k].
Proof.
  unfold od_mem. induction d as [|[k' v'] d IH]; simpl; [done|].
  case_bool_decide; simpl; [by subst|].
  rewrite IH. by destruct (od_get k d).
Qed.

Lemma od_keys_alter (f : V -> V) k d : od_keys (od_alter f k d) = od_keys d.
Proof.
  induction d as [|[k' v'] d IH]; simpl; [done|].
  case_bool_decide; simpl; [done|]. by rewrite IH.
Qed.

Lemma od_keys_set_NoDup k v d : NoDup (od_keys d) -> NoDup (od_keys (od_set k v d)).
Proof.
  intros Hd. rewrite od_keys_set. destruct (od_mem k d) eqn:Hm; [done|].
  apply od_mem_false_keys in Hm.
  apply NoDup_app. split_and!; [done| |apply NoDup_singleton].
  intros x Hx Hs. apply list_elem_of_singleton in Hs as ->. done.
Qed.

Lemma od_update_fresh d other :
  NoDup (od_keys other) ->
  (forall k, k ∈ od_keys other -> k ∉ od_keys d) ->
  od_update d other = d ++ other.
Proof.
  unfold od_update. revert d.
  induction other as [|[k v] other IH]; intros d Hnd Hdis; simpl.
  - by rewrite app_nil_r.
  - simpl in Hnd. apply NoDup_cons in Hnd as [Hk Hnd].
    rewrite od_set_fresh by (apply Hdis; simpl; left).
    rewrite IH; [by rewrite <- app_assoc|done|].
    intros k' Hk'. unfold od_keys at 1. rewrite map_app. simpl.
    intros [?|Hs]%elem_of_app.
    + eapply Hdis; [|done]. simpl. by right.
    + apply list_elem_of_singleton in Hs as ->. done.
Qed.

Lemma od_update_nil other : NoDup (od_keys other) -> od_update [] other = other.
Proof.
  intros. rewrite od_update_fresh; [done..|]. intros k _ ?%elem_of_nil. done.
Qed.
End OrderedDictFacts.

(** ** Ranking *)

Section Sorted.
Context {A : Type} (key : A -> bool).

Lemma sorted_insert_false (x : A) (l : list A) :
  key x = false -> sorted_insert key x l = x :: l.
Proof. intros Hx. destruct l; simpl; [done|]. by rewrite Hx. Qed.

Lemma sorted_insert_true (x : A) (lo hi : list A) :
  key x = true ->
  Forall (fun y => key y = false) lo ->
  Forall (fun y => key y = true) hi ->
  sorted_insert key x (lo ++ hi) = lo ++ x :: hi.
Proof.
  intros Hx Hlo Hhi. induction Hlo as [|y lo Hy _ IH]; simpl.
  - destruct Hhi as [|y hi Hy _]; simpl; [done|]. by rewrite Hx, Hy.
  - by rewrite Hx, Hy, IH.
Qed.

Lemma Forall_filter_bool (p : A -> bool) (l : list A) :
  Forall (fun y => p y = true) (List.filter p l).
Proof.
  induction l as [|y l IH]; simpl; [constructor|].
  destruct (p y) eqn:Hy; [by constructor|done].
Qed.

(** A stable sort on a boolean key is a partition that keeps the input
    order on both sides. *)
Lemma py_sorted_partition (l : list A) :
  py_sorted key l
  = List.filter (fun x => negb (key x)) l ++ List.filter key l.
Proof.
  induction l as [|x l IH]; simpl; [done|].
  rewrite IH. destruct (key x) eqn:Hx; simpl.
  - apply sorted_insert_true; [done| |apply Forall_filter_bool].
    eapply Forall_impl; [apply Forall_filter_bool|].
    intros y Hy. by apply negb_true_iff.
  - by apply sorted_insert_false.
Qed.
End Sorted.

Lemma filter_filter_comm {A : Type} (p q : A -> bool) (l : list A) :
  List.filter p (List.filter q l) = List.filter q (List.filter p l).
Proof.
  induction l as [|x l IH]; simpl; [done|].
  destruct (p x) eqn:Hp, (q x) eqn:Hq; simpl; rewrite ?Hp, ?Hq, ?IH; done.
Qed.

Lemma sort_and_filter_urls_fst cfg urls written_urls :
  (sort_and_filter_urls cfg urls written_urls).1
  = List.filter (survives cfg written_urls) (py_sorted (family_key cfg) urls).
Proof. done. Qed.

Lemma str_split1_hd (sep : N) (s : pystr) :
  hd [] (str_split1 sep s) = take_while (fun c => negb (c =? sep)) s.
Proof.
  induction s as [|c s IH]; simpl; [done|].
  destruct (c =? sep); simpl; [done|].
  rewrite <- IH. by destruct (str_split1 sep s).
Qed.

Lemma take_while_no_sep (sep : N) (s : pystr) :
  str_contains [sep] s = false -> take_while (fun c => negb (c =? sep)) s = s.
Proof.
  induction s as [|c s IH]; simpl; [done|].
  rewrite andb_true_r. intros [Hc Hs]%orb_false_elim.
  rewrite N.eqb_sym, Hc. simpl. by rewrite IH.
Qed.

Lemma add_url_suffix_shape (url : pystr) (index total_urls : N) :
  add_url_suffix url index total_urls
  = take_while (fun c => negb (c =? ch_dollar)) url
    ++ (if is_ipv6 url then lit_lr_ipv6 else lit_lr_ipv4)
    ++ (if total_urls =? 1 then []
        else lit_line_open ++ str_of_int index ++ lit_line_close).
Proof.
  unfold add_url_suffix. rewrite str_split1_hd.
  assert (Hbase : (if str_contains [ch_dollar] url
                   then take_while (fun c => negb (c =? ch_dollar)) url
                   else url)
                  = take_while (fun c => negb (c =? ch_dollar)) url).
  { destruct (str_contains [ch_dollar] url) eqn:Hc; [done|].
    by rewrite take_while_no_sep. }
  rewrite Hbase. f_equal.
  destruct (is_ipv6 url), (total_urls =? 1); by rewrite ?app_nil_r.
Qed.

(** C7. Ranking is a stable sort on the address family: with preference
    "ipv6" the surviving IPv6-literal urls come first, otherwise the
    surviving other urls come first, each group in input order. The suffix
    replaces everything from the first dollar on by the family tag of the
    url itself, alone when the channel has one surviving url and followed
    by the numbered line label otherwise. With preference "ipv4" the
    candidates http://[::1]/a, http://b/c are ranked http://b/c first, and
    are tagged as IPV4 line 1 and IPV6 line 2. *)
Theorem ranking_and_suffix :
  (forall cfg urls,
      py_sorted (family_key cfg) urls
      = if bool_decide (ip_version_priority cfg = utf8 "ipv6")
        then List.filter is_ipv6 urls
             ++ List.filter (fun u => negb (is_ipv6 u)) urls
        else List.filter (fun u => negb (is_ipv6 u)) urls
             ++ List.filter is_ipv6 urls)
  /\ (forall cfg urls written_urls,
      let kept := List.filter (survives cfg written_urls) urls in
      (sort_and_filter_urls cfg urls written_urls).1
      = if bool_decide (ip_version_priority cfg = utf8 "ipv6")
        then List.filter is_ipv6 kept
             ++ List.filter (fun u => negb (is_ipv6 u)) kept
        else List.filter (fun u => negb (is_ipv6 u)) kept
             ++ List.filter is_ipv6 kept)
  /\ (forall url index total_urls,
      add_url_suffix url index total_urls
      = take_while (fun c => negb (c =? ch_dollar)) url
        ++ (if is_ipv6 url then utf8 "$LR•IPV6" else utf8 "$LR•IPV4")
        ++ (if total_urls =? 1 then []
            else utf8 "『线路" ++ str_of_int index ++ utf8 "』"))
  /\ (forall epg blacklist,
      let cfg := {| source_urls := []; epg_urls := epg;
                    url_blacklist := blacklist;
                    ip_version_priority := utf8 "ipv4" |} in
      py_sorted (family_key cfg) [utf8 "http://[::1]/a"; utf8 "http://b/c"]
      = [utf8 "http://b/c"; utf8 "http://[::1]/a"])
  /\ add_url_suffix (utf8 "http://b/c") 1 2 = utf8 "http://b/c$LR•IPV4『线路1』"
  /\ add_url_suffix (utf8 "http://[::1]/a") 2 2
     = utf8 "http://[::1]/a$LR•IPV6『线路2』".
Proof.
  split_and!.
  - intros cfg urls. rewrite py_sorted_partition. unfold family_key.
    change (utf8 "ipv6") with lit_ipv6.
    case_bool_decide; [|done].
    f_equal. apply List.filter_ext. intros u. by rewrite negb_involutive.
  - intros cfg urls written_urls kept. subst kept.
    rewrite sort_and_filter_urls_fst, py_sorted_partition, List.filter_app.
    rewrite !(filter_filter_comm (survives cfg written_urls)).
    unfold family_key.
    change (utf8 "ipv6") with lit_ipv6.
    case_bool_decide; [|done].
    f_equal. apply List.filter_ext. intros u. by rewrite negb_involutive.
  - intros url index total_urls. apply add_url_suffix_shape.
  - intros epg blacklist. vm_compute. reflexivity.
  - vm_compute. reflexivity.
  - vm_compute. reflexivity.
Qed.

(** ** Source parsers: the keys of the result are distinct *)

Lemma fold_left_invariant {S L : Type} (P : S -> Prop) (step : S -> L -> S)
    (ls : list L) (s : S) :
  (forall s l, P s -> P (step s l)) -> P s -> P (fold_left step ls s).
Proof.
  intros Hstep. revert s. induction ls as [|l ls IH]; simpl; [done|].
  intros s Hs. apply IH. by apply Hstep.
Qed.

Lemma od_keys_fold_alter {V L : Type} (f : L -> V -> V) (k : pystr)
    (ls : list L) (d : odict V) :
  od_keys (fold_left (fun d l => od_alter (f l) k d) ls d) = od_keys d.
Proof.
  revert d. induction ls as [|l ls IH]; intros d; simpl; [done|].
  by rewrite IH, od_keys_alter.
Qed.

Lemma txt_step_keys_NoDup (st : txt_state) (line : pystr) :
  NoDup (od_keys (txt_channels st)) ->
  NoDup (od_keys (txt_channels (txt_step st line))).
Proof.
  intros Hst. unfold txt_step.
  destruct (str_contains lit_genre (str_strip line)); simpl.
  { by apply od_keys_set_NoDup. }
  destruct (txt_category st) as [c|]; [|done].
  destruct (truthy c); [|done].
  destruct (re_match_name_rest (str_strip line)) as [[g1 g2]|]; simpl.
  - by rewrite (od_keys_fold_alter
                  (fun u l => l ++ [(_, str_strip u)])).
  - destruct (truthy (str_strip line)); simpl; [|done].
    by rewrite od_keys_alter.
Qed.

Lemma parse_txt_lines_keys_NoDup (lines : list pystr) :
  NoDup (od_keys (parse_txt_lines lines)).
Proof.
  unfold parse_txt_lines, txt_run.
  apply (fold_left_invariant (fun st => NoDup (od_keys (txt_channels st)))).
  - apply txt_step_keys_NoDup.
  - apply NoDup_nil_2.
Qed.

Lemma m3u_step_keys_NoDup (st : m3u_state) (line : pystr) :
  NoDup (od_keys (m3u_channels st)) ->
  NoDup (od_keys (m3u_channels (m3u_step st line))).
Proof.
  intros Hst. unfold m3u_step.
  destruct (str_startswith lit_extinf (str_strip line)).
  { destruct (re_search_group_title (str_strip line)) as [[g1 g2]|]; [|done].
    simpl. destruct (od_mem (str_strip g1) (m3u_channels st)); [done|].
    by apply od_keys_set_NoDup. }
  destruct (truthy (str_strip line) && _); [|done].
  destruct (m3u_category st) as [c|], (m3u_name st) as [n|]; try done.
  destruct (truthy c && truthy n); simpl; [|done].
  by rewrite od_keys_alter.
Qed.

Lemma parse_m3u_lines_keys_NoDup (lines : list pystr) :
  NoDup (od_keys (parse_m3u_lines lines)).
Proof.
  unfold parse_m3u_lines, m3u_run.
  apply (fold_left_invariant (fun st => NoDup (od_keys (m3u_channels st)))).
  - apply m3u_step_keys_NoDup.
  - apply NoDup_nil_2.
Qed.

(** ** Format detection *)

Lemma is_m3u_spec (lines : list pystr) :
  is_m3u lines = true
  <-> exists (i : nat) (line : pystr),
        (i < 15)%nat /\ lines !! i = Some line
        /\ str_startswith lit_extinf line = true.
Proof.
  unfold is_m3u. rewrite existsb_exists. split.
  - intros (line & Hin & Hline).
    apply list_elem_of_In, list_elem_of_lookup in Hin as [i Hi].
    apply lookup_take_Some in Hi as [Hi Hlt]. by exists i, line.
  - intros (i & line & Hlt & Hi & Hline). exists line. split; [|done].
    apply list_elem_of_In, list_elem_of_lookup. exists i.
    by apply lookup_take_Some.
Qed.

(** C6. A fetched text is parsed as extended format exactly when one of
    its first 15 lines begins with the marker #EXTINF, and as delimited
    format otherwise; the choice depends on nothing but these 15 lines, so
    a text whose markers all come after line 15 is parsed as delimited
    format. *)
Theorem format_detection (text : pystr) :
  let lines := str_split ch_nl text in
  (is_m3u lines = true
   <-> exists (i : nat) (line : pystr),
         (i < 15)%nat /\ lines !! i = Some line
         /\ str_startswith (utf8 "#EXTINF") line = true)
  /\ fetch_channels (Some text)
     = (if is_m3u lines then parse_m3u_lines lines else parse_txt_lines lines)
  /\ (forall text' : pystr,
         take 15 (str_split ch_nl text') = take 15 lines ->
         is_m3u (str_split ch_nl text') = is_m3u lines)
  /\ ((forall (i : nat) (line : pystr),
          lines !! i = Some line ->
          str_startswith (utf8 "#EXTINF") line = true -> (15 <= i)%nat) ->
      is_m3u lines = false
      /\ fetch_channels (Some text) = parse_txt_lines lines).
Proof.
  intros lines.
  assert (Hfetch : fetch_channels (Some text)
            = (if is_m3u lines then parse_m3u_lines lines
               else parse_txt_lines lines)).
  { unfold fetch_channels. fold lines. destruct (is_m3u lines).
    - apply od_update_nil, parse_m3u_lines_keys_NoDup.
    - apply od_update_nil, parse_txt_lines_keys_NoDup. }
  split_and!.
  - apply is_m3u_spec.
  - exact Hfetch.
  - intros text' Htake. unfold is_m3u. by rewrite Htake.
  - intros Hlate.
    assert (Hno : is_m3u lines = false).
    { destruct (is_m3u lines) eqn:Hm; [|done].
      apply is_m3u_spec in Hm as (i & line & Hlt & Hi & Hline).
      specialize (Hlate i line Hi Hline). lia. }
    split; [done|]. by rewrite Hfetch, Hno.
Qed.

Lemma format_detection_witness :
  let text := repeat ch_nl 15 ++ utf8 "#EXTINF:-1 ,A" in
  is_m3u (str_split ch_nl text) = false
  /\ fetch_channels (Some text) = parse_txt_lines (str_split ch_nl text).
Proof.
  intros text.
  destruct (format_detection text) as (_ & _ & _ & Hlate). apply Hlate.
  intros i line Hi Hs.
  do 15 (destruct i as [|i];
         [vm_compute in Hi; injection Hi as <-; discriminate Hs|]).
  lia.
Defined.

(** ** Determinism of the run *)

Lemma fold_left_ext_in {S L : Type} (f g : S -> L -> S) (ls : list L) (s : S) :
  (forall s l, l ∈ ls -> f s l = g s l) -> fold_left f ls s = fold_left g ls s.
Proof.
  revert s. induction ls as [|l ls IH]; intros s Hfg; simpl; [done|].
  rewrite Hfg by left. apply IH. intros s' l' Hl'. apply Hfg. by right.
Qed.

(** C1. The two playlist files are a function of the settings, the
    template text and the texts fetched for the configured source urls:
    two runs that agree on these write the same characters to both files,
    whatever the wall clock says at each run. *)
Theorem pipeline_deterministic (cfg : config) (fetch1 fetch2 : pystr -> option pystr)
    (now1 now2 : datetime) (template_content : pystr) :
  (forall url, url ∈ source_urls cfg -> fetch1 url = fetch2 url) ->
  f_m3u (main cfg fetch1 now1 template_content)
  = f_m3u (main cfg fetch2 now2 template_content)
  /\ f_txt (main cfg fetch1 now1 template_content)
     = f_txt (main cfg fetch2 now2 template_content).
Proof.
  intros Hfetch.
  assert (Hsame : filter_source_urls cfg fetch1 template_content
                  = filter_source_urls cfg fetch2 template_content).
  { unfold filter_source_urls. do 2 f_equal.
    apply fold_left_ext_in. intros all url Hurl. by rewrite Hfetch. }
  unfold main. rewrite Hsame.
  by destruct (filter_source_urls cfg fetch2 template_content).
Qed.

Lemma pipeline_deterministic_witness :
  let cfg := sample_config (utf8 "ipv4") in
  f_m3u (main cfg sample_fetch (sample_now 9) sample_template)
  = f_m3u (main cfg sample_fetch (sample_now 10) sample_template)
  /\ f_txt (main cfg sample_fetch (sample_now 9) sample_template)
     = f_txt (main cfg sample_fetch (sample_now 10) sample_template).
Proof.
  intros cfg.
  apply (pipeline_deterministic cfg sample_fetch sample_fetch).
  intros url _. reflexivity.
Defined.

(** ** The parsing loops, one line at a time *)

Lemma template_run_snoc (pre : list pystr) (line : pystr) :
  template_run (pre ++ [line]) = template_step (template_run pre) line.
Proof. unfold template_run. by rewrite fold_left_app. Qed.

Lemma m3u_run_snoc (pre : list pystr) (line : pystr) :
  m3u_run (pre ++ [line]) = m3u_step (m3u_run pre) line.
Proof. unfold m3u_run. by rewrite fold_left_app. Qed.

Lemma txt_run_snoc (pre : list pystr) (line : pystr) :
  txt_run (pre ++ [line]) = txt_step (txt_run pre) line.
Proof. unfold txt_run. by rewrite fold_left_app. Qed.

Lemma od_alter_ext {V : Type} (f g : V -> V) (k : pystr) (d : odict V) :
  (forall v, f v = g v) -> od_alter f k d = od_alter g k d.
Proof.
  intros Hfg. induction d as [|[k' v] d IH]; simpl; [done|].
  by rewrite Hfg, IH.
Qed.

Lemma od_alter_id {V : Type} (f : V -> V) (k : pystr) (d : odict V) :
  (forall v, f v = v) -> od_alter f k d = d.
Proof.
  intros Hf. induction d as [|[k' v] d IH]; simpl; [done|].
  rewrite Hf, IH. by case_bool_decide.
Qed.

Lemma od_alter_alter {V : Type} (f g : V -> V) (k : pystr) (d : odict V) :
  od_alter g k (od_alter f k d) = od_alter (fun v => g (f v)) k d.
Proof.
  induction d as [|[k' v] d IH]; simpl; [done|].
  case_bool_decide as Hk; simpl; rewrite ?bool_decide_true, ?bool_decide_false by done;
    [done|by rewrite IH].
Qed.

(** Appending the elements one by one is appending them all at once. *)
Lemma fold_left_od_append {A L : Type} (f : L -> A) (k : pystr)
    (ls : list L) (d : odict (list A)) :
  fold_left (fun d x => od_alter (fun l => l ++ [f x]) k d) ls d
  = od_alter (fun l => l ++ List.map f ls) k d.
Proof.
  revert d. induction ls as [|x ls IH]; intros d; simpl.
  - symmetry. apply od_alter_id. intros v. apply app_nil_r.
  - rewrite IH, od_alter_alter. apply od_alter_ext.
    intros v. by rewrite <- app_assoc.
Qed.

(** The current category of either source parser is a key of the result
    built so far. *)
Lemma txt_category_registered (lines : list pystr) (c : pystr) :
  txt_category (txt_run lines) = Some c ->
  od_mem c (txt_channels (txt_run lines)) = true.
Proof.
  unfold txt_run.
  apply (fold_left_invariant
           (fun st => txt_category st = Some c ->
                      od_mem c (txt_channels st) = true));
    [|done].
  intros st line IH. unfold txt_step.
  destruct (str_contains lit_genre (str_strip line)); simpl.
  { intros [= <-]. apply od_mem_keys. rewrite od_keys_set.
    destruct (od_mem _ (txt_channels st)) eqn:Hm; [by apply od_mem_keys|].
    apply elem_of_app. right. by left. }
  destruct (txt_category st) as [c'|] eqn:Hc; [|by rewrite Hc].
  destruct (truthy c'); [|by rewrite Hc].
  destruct (re_match_name_rest (str_strip line)) as [[g1 g2]|]; simpl.
  - intros Hcc. apply od_mem_keys.
    rewrite (od_keys_fold_alter (fun u l => l ++ [(_, str_strip u)])).
    apply od_mem_keys. by apply IH.
  - destruct (truthy (str_strip line)); simpl; [|by rewrite Hc].
    intros Hcc. apply od_mem_keys. rewrite od_keys_alter.
    apply od_mem_keys. by apply IH.
Qed.

Lemma m3u_category_registered (lines : list pystr) (c : pystr) :
  m3u_category (m3u_run lines) = Some c ->
  od_mem c (m3u_channels (m3u_run lines)) = true.
Proof.
  unfold m3u_run.
  apply (fold_left_invariant
           (fun st => m3u_category st = Some c ->
                      od_mem c (m3u_channels st) = true));
    [|done].
  intros st line IH. unfold m3u_step.
  destruct (str_startswith lit_extinf (str_strip line)).
  { destruct (re_search_group_title (str_strip line)) as [[g1 g2]|]; [|done].
    simpl. intros [= <-].
    destruct (od_mem (str_strip g1) (m3u_channels st)) eqn:Hm; [done|].
    apply od_mem_keys. rewrite od_keys_set, Hm.
    apply elem_of_app. right. by left. }
  destruct (truthy (str_strip line) && _); [|done].
  destruct (m3u_category st) as [c'|] eqn:Hc, (m3u_name st) as [n|];
    rewrite ?Hc; try done.
  destruct (truthy c' && truthy n); simpl; rewrite ?Hc; [|done].
  intros Hcc. apply od_mem_keys. rewrite od_keys_alter.
  apply od_mem_keys. by apply IH.
Qed.

(** The local [channel_name] of [parse_m3u_lines] is bound whenever a
    category has been captured. *)
Lemma m3u_name_bound (lines : list pystr) (c : pystr) :
  m3u_category (m3u_run lines) = Some c ->
  is_Some (m3u_name (m3u_run lines)).
Proof.
  unfold m3u_run.
  apply (fold_left_invariant
           (fun st => m3u_category st = Some c -> is_Some (m3u_name st)));
    [|done].
  intros st line IH. unfold m3u_step.
  destruct (str_startswith lit_extinf (str_strip line)).
  { destruct (re_search_group_title (str_strip line)) as [[g1 g2]|]; [|done].
    simpl. by eexists. }
  destruct (truthy (str_strip line) && _); [|done].
  destruct (m3u_category st) as [c'|] eqn:Hc, (m3u_name st) as [n|] eqn:Hn;
    rewrite ?Hc, ?Hn; try done.
  destruct (truthy c' && truthy n); simpl; rewrite ?Hc, ?Hn; done.
Qed.

(** ** Stripping and the line pattern of the delimited format *)

Lemma str_lstrip_elem (x : N) (s : pystr) : x ∈ str_lstrip s -> x ∈ s.
Proof.
  induction s as [|c s IH]; simpl; [done|].
  destruct (isspace c); [|done]. intros Hx. right. by apply IH.
Qed.

Lemma elem_of_rev_iff (x : N) (s : pystr) : x ∈ rev s <-> x ∈ s.
Proof. rewrite !list_elem_of_In. symmetry. apply in_rev. Qed.

Lemma str_strip_elem (x : N) (s : pystr) : x ∈ str_strip s -> x ∈ s.
Proof.
  unfold str_strip, str_rstrip. intros Hx.
  apply (proj1 (elem_of_rev_iff _ _)), str_lstrip_elem in Hx.
  apply (proj1 (elem_of_rev_iff _ _)) in Hx.
  by apply str_lstrip_elem.
Qed.

Lemma re_dot_star_no_nl (s : pystr) : ch_nl ∉ s -> re_dot_star s = s.
Proof.
  induction s as [|c s IH]; simpl; [done|].
  intros [Hc Hs]%not_elem_of_cons.
  destruct (N.eqb_spec c ch_nl) as [->|_]; [done|]. by rewrite IH.
Qed.

Lemma re_lazy_to_end_no_nl (r : pystr) : ch_nl ∉ r -> re_lazy_to_end r = Some r.
Proof.
  intros Hr. unfold re_lazy_to_end.
  rewrite re_dot_star_no_nl by done. by rewrite drop_all.
Qed.

(** On a line without newline the pattern splits at the first comma. *)
Lemma re_match_name_rest_first_comma (raw rest : pystr) :
  ch_comma ∉ raw -> ch_nl ∉ raw -> ch_nl ∉ rest ->
  re_match_name_rest (raw ++ ch_comma :: rest) = Some (raw, rest).
Proof.
  intros Hcomma Hnl Hrest. induction raw as [|c raw IH]; simpl.
  - by rewrite re_lazy_to_end_no_nl.
  - apply not_elem_of_cons in Hcomma as [Hc1 Hcomma].
    apply not_elem_of_cons in Hnl as [Hc2 Hnl].
    destruct (N.eqb_spec c ch_comma) as [->|_]; [done|].
    destruct (N.eqb_spec c ch_nl) as [->|_]; [done|].
    by rewrite IH.
Qed.

Lemma re_match_name_rest_no_comma (s : pystr) :
  ch_comma ∉ s -> re_match_name_rest s = None.
Proof.
  induction s as [|c s IH]; simpl; [done|].
  intros [Hc Hs]%not_elem_of_cons.
  destruct (N.eqb_spec c ch_comma) as [->|_]; [done|].
  rewrite IH by done. by destruct (c =? ch_nl).
Qed.

(** A line of the delimited format that is not a category marker, read
    while a category is active. *)
Lemma txt_step_channel_line (st : txt_state) (line c : pystr) :
  txt_category st = Some c -> truthy c = true ->
  str_contains lit_genre (str_strip line) = false ->
  txt_step st line
  = match re_match_name_rest (str_strip line) with
    | Some (g1, g2) =>
        let raw := str_strip g1 in
        let channel_name :=
          if str_startswith lit_cctv raw then clean_channel_name raw
          else raw in
        {| txt_channels :=
             od_alter
               (fun l => l ++ List.map (fun seg => (channel_name, str_strip seg))
                                (str_split ch_hash (str_strip g2)))
               c (txt_channels st);
           txt_category := Some c |}
    | None =>
        if truthy (str_strip line) then
          {| txt_channels :=
               od_alter (fun l => l ++ [(str_strip line, [])]) c
                 (txt_channels st);
             txt_category := Some c |}
        else st
    end.
Proof.
  intros Hc Hactive Hgenre. unfold txt_step.
  rewrite Hgenre, Hc, Hactive.
  destruct (re_match_name_rest (str_strip line)) as [[g1 g2]|]; [|done].
  simpl. f_equal.
  rewrite (fold_left_od_append (fun u => (_, str_strip u))).
  apply od_alter_ext. intros l. do 2 f_equal.
  destruct (str_strip g1) as [|a raw]; [done|]. done.
Qed.

(** A metadata line of the extended format on which the pattern matches. *)
Lemma m3u_step_metadata (st : m3u_state) (line g1 g2 : pystr) :
  str_startswith lit_extinf (str_strip line) = true ->
  re_search_group_title (str_strip line) = Some (g1, g2) ->
  m3u_step st line
  = {| m3u_channels :=
         if od_mem (str_strip g1) (m3u_channels st) then m3u_channels st
         else od_set (str_strip g1) [] (m3u_channels st);
       m3u_category := Some (str_strip g1);
       m3u_name :=
         Some (if str_startswith lit_cctv (str_strip g2)
               then clean_channel_name (str_strip g2) else str_strip g2) |}.
Proof.
  intros Hext Hre. unfold m3u_step. rewrite Hext, Hre.
  do 2 f_equal. by destruct (str_strip g2).
Qed.

(** ** The name normalizer and its call sites *)

(** C3, as stated, fails: the normalizer removes the two corner brackets
    but keeps the letters between them. *)
Lemma normalizer_keeps_bracketed_text :
  clean_channel_name (utf8 "CCTV-1 「HD」") = utf8 "CCTV1HD"
  /\ clean_channel_name (utf8 "CCTV-1 「HD」") <> utf8 "CCTV1".
Proof. split; [vm_compute; reflexivity|vm_compute; discriminate]. Qed.

(** C3 (amended). The normalizer maps "CCTV-1 「HD」" to "CCTV1HD" and
    "CCTV05" to "CCTV5". In the extended-format parser the name stored for a
    metadata line is the normalized trimmed capture when that capture starts
    with "CCTV" and the trimmed capture itself otherwise; in the
    delimited-format parser the same holds for the name of every pair a
    channel line appends. *)
Theorem normalizer_and_call_sites :
  clean_channel_name (utf8 "CCTV-1 「HD」") = utf8 "CCTV1HD"
  /\ clean_channel_name (utf8 "CCTV05") = utf8 "CCTV5"
  /\ (forall (pre : list pystr) (line g1 g2 : pystr),
        str_startswith (utf8 "#EXTINF") (str_strip line) = true ->
        re_search_group_title (str_strip line) = Some (g1, g2) ->
        m3u_name (m3u_run (pre ++ [line]))
        = Some (if str_startswith (utf8 "CCTV") (str_strip g2)
                then clean_channel_name (str_strip g2) else str_strip g2))
  /\ (forall (pre : list pystr) (line c g1 g2 : pystr),
        txt_category (txt_run pre) = Some c -> truthy c = true ->
        str_contains (utf8 "#genre#") (str_strip line) = false ->
        re_match_name_rest (str_strip line) = Some (g1, g2) ->
        parse_txt_lines (pre ++ [line])
        = od_alter
            (fun l =>
               l ++ List.map
                      (fun seg =>
                         (if str_startswith (utf8 "CCTV") (str_strip g1)
                          then clean_channel_name (str_strip g1)
                          else str_strip g1,
                          str_strip seg))
                      (str_split ch_hash (str_strip g2)))
            c (parse_txt_lines pre)).
Proof.
  split_and!.
  - vm_compute. reflexivity.
  - vm_compute. reflexivity.
  - intros pre line g1 g2 Hext Hre.
    rewrite m3u_run_snoc, (m3u_step_metadata _ _ g1 g2) by done. done.
  - intros pre line c g1 g2 Hc Hactive Hgenre Hre.
    unfold parse_txt_lines.
    rewrite txt_run_snoc, (txt_step_channel_line _ _ c), Hre by done. done.
Qed.

Lemma normalizer_and_call_sites_witness :
  m3u_name (m3u_run ([] ++ [sample_extinf_line])) = Some (utf8 "CCTV1")
  /\ parse_txt_lines ([utf8 "G,#genre#"] ++ [utf8 "Other 05 , http://o/1 "])
     = [(utf8 "G", [(utf8 "Other 05", utf8 "http://o/1")])].
Proof.
  destruct normalizer_and_call_sites as (_ & _ & Hm3u & Htxt). split.
  - exact (Hm3u [] sample_extinf_line (utf8 "News") (utf8 "CCTV01")
             eq_refl eq_refl).
  - exact (Htxt [utf8 "G,#genre#"] (utf8 "Other 05 , http://o/1 ")
             (utf8 "G") (utf8 "Other 05 ")
             (utf8 " http://o/1") eq_refl eq_refl eq_refl eq_refl).
Defined.

(** ** Channel lines of the delimited format *)

Lemma not_elem_of_computed (x : N) (s : pystr) :
  bool_decide (x ∉ s) = true -> x ∉ s.
Proof. intros H. by apply bool_decide_eq_true in H. Qed.

(** C4, as stated, fails on a line that carries the category marker after
    its first comma: it opens a category and yields no pair. *)
Lemma delimited_marker_line_yields_no_pair :
  let pre := [utf8 "G,#genre#"] in
  let line := utf8 "A,x#genre#y" in
  txt_category (txt_run pre) = Some (utf8 "G")
  /\ str_strip line = utf8 "A" ++ ch_comma :: utf8 "x#genre#y"
  /\ ch_hash ∈ utf8 "x#genre#y"
  /\ parse_txt_lines (pre ++ [line]) = [(utf8 "G", []); (utf8 "A", [])]
  /\ parse_txt_lines (pre ++ [line])
     <> od_alter
          (fun l => l ++ List.map (fun seg => (utf8 "A", str_strip seg))
                           (str_split ch_hash (utf8 "x#genre#y")))
          (utf8 "G") (parse_txt_lines pre).
Proof.
  split_and!; try (vm_compute; reflexivity).
  - apply (bool_decide_unpack _). vm_compute. exact I.
  - vm_compute. discriminate.
Qed.

(** C4 (amended). While a category is active, a line without newline
    that does not contain the category marker keeps the category and, if it
    has a comma, appends one pair per hash-separated segment of the trimmed
    text after its first comma: the name is the trimmed text before that
    comma (normalized when it starts with "CCTV"), the url is the trimmed
    segment, empty segments included; if it has no comma and is not blank,
    it appends the single pair of the trimmed line and the empty url. *)
Theorem delimited_channel_line (pre : list pystr) (line c : pystr) :
  txt_category (txt_run pre) = Some c -> truthy c = true ->
  str_contains (utf8 "#genre#") (str_strip line) = false ->
  ch_nl ∉ line ->
  od_mem c (parse_txt_lines pre) = true
  /\ (str_strip line <> [] -> txt_category (txt_run (pre ++ [line])) = Some c)
  /\ (forall raw rest : pystr,
        str_strip line = raw ++ ch_comma :: rest -> ch_comma ∉ raw ->
        parse_txt_lines (pre ++ [line])
        = od_alter
            (fun l =>
               l ++ List.map
                      (fun seg =>
                         (if str_startswith (utf8 "CCTV") (str_strip raw)
                          then clean_channel_name (str_strip raw)
                          else str_strip raw,
                          str_strip seg))
                      (str_split ch_hash (str_strip rest)))
            c (parse_txt_lines pre))
  /\ (ch_comma ∉ str_strip line -> str_strip line <> [] ->
      parse_txt_lines (pre ++ [line])
      = od_alter (fun l => l ++ [(str_strip line, [])]) c (parse_txt_lines pre)).
Proof.
  intros Hc Hactive Hgenre Hnl.
  assert (Hnl' : ch_nl ∉ str_strip line).
  { intros Hin. by apply Hnl, str_strip_elem. }
  pose proof (txt_step_channel_line (txt_run pre) line c Hc Hactive Hgenre)
    as Hstep.
  split_and!.
  - by apply txt_category_registered.
  - intros Hne. rewrite txt_run_snoc, Hstep.
    destruct (re_match_name_rest (str_strip line)) as [[g1 g2]|]; [done|].
    by destruct (str_strip line).
  - intros raw rest Hline Hraw.
    unfold parse_txt_lines. rewrite txt_run_snoc, Hstep.
    rewrite Hline in Hnl' |- *.
    rewrite re_match_name_rest_first_comma; [done|done|..].
    + intros Hin. apply Hnl', elem_of_app. by left.
    + intros Hin. apply Hnl', elem_of_app. right. by right.
  - intros Hcomma Hne.
    unfold parse_txt_lines. rewrite txt_run_snoc, Hstep.
    rewrite re_match_name_rest_no_comma by done.
    by destruct (str_strip line).
Qed.

Lemma delimited_channel_line_witness :
  parse_txt_lines ([utf8 "G,#genre#"]
                   ++ [utf8 "NewsChannel,http://a/1#http://a/2"])
  = [(utf8 "G", [(utf8 "NewsChannel", utf8 "http://a/1");
                 (utf8 "NewsChannel", utf8 "http://a/2")])]
  /\ parse_txt_lines ([utf8 "G,#genre#"] ++ [utf8 "A, http://a/1 ## "])
     = [(utf8 "G", [(utf8 "A", utf8 "http://a/1"); (utf8 "A", []);
                    (utf8 "A", [])])]
  /\ parse_txt_lines ([utf8 "G,#genre#"] ++ [utf8 " bare line "])
     = [(utf8 "G", [(utf8 "bare line", [])])].
Proof.
  pose proof not_elem_of_computed as Hnl.
  split_and!.
  - destruct (delimited_channel_line [utf8 "G,#genre#"]
                (utf8 "NewsChannel,http://a/1#http://a/2") (utf8 "G")
                eq_refl eq_refl eq_refl (Hnl ch_nl (utf8 "NewsChannel,http://a/1#http://a/2") eq_refl)) as (_ & _ & H & _).
    refine (H (utf8 "NewsChannel") (utf8 "http://a/1#http://a/2") eq_refl _).
    apply not_elem_of_computed. reflexivity.
  - destruct (delimited_channel_line [utf8 "G,#genre#"]
                (utf8 "A, http://a/1 ## ") (utf8 "G")
                eq_refl eq_refl eq_refl (Hnl ch_nl (utf8 "A, http://a/1 ## ") eq_refl)) as (_ & _ & H & _).
    refine (H (utf8 "A") (utf8 " http://a/1 ##") eq_refl _).
    apply not_elem_of_computed. reflexivity.
  - destruct (delimited_channel_line [utf8 "G,#genre#"]
                (utf8 " bare line ") (utf8 "G")
                eq_refl eq_refl eq_refl (Hnl ch_nl (utf8 " bare line ") eq_refl)) as (_ & _ & _ & H).
    refine (H _ _).
    + apply not_elem_of_computed. reflexivity.
    + discriminate.
Defined.

(** ** Lines of the extended format *)

Lemma str_lstrip_head (s : pystr) :
  match str_lstrip s with
  | [] => True
  | c :: _ => isspace c = false
  end.
Proof.
  induction s as [|c s IH]; simpl; [done|].
  destruct (isspace c) eqn:Hc; [done|]. done.
Qed.

Lemma str_lstrip_fixed (s : pystr) :
  match s with [] => True | c :: _ => isspace c = false end ->
  str_lstrip s = s.
Proof. destruct s as [|c s]; simpl; [done|]. by intros ->. Qed.

Lemma str_lstrip_suffix (s : pystr) : exists ws, s = ws ++ str_lstrip s.
Proof.
  induction s as [|c s [ws IH]]; simpl; [by exists []|].
  destruct (isspace c); [|by exists []].
  exists (c :: ws). simpl. by f_equal.
Qed.

(** Stripping twice is stripping once. *)
Lemma str_strip_idemp (s : pystr) : str_strip (str_strip s) = str_strip s.
Proof.
  unfold str_strip, str_rstrip.
  set (t := str_lstrip s). set (u := str_lstrip (rev t)).
  assert (Hfix : str_lstrip (rev u) = rev u).
  { apply str_lstrip_fixed.
    destruct (str_lstrip_suffix (rev t)) as [ws Hws]. fold u in Hws.
    assert (Ht : t = rev u ++ rev ws).
    { by rewrite <- (rev_involutive t), Hws, rev_app_distr. }
    destruct (rev u) as [|c r] eqn:Hr; [done|].
    pose proof (str_lstrip_head s) as Hhead. fold t in Hhead.
    by rewrite Ht in Hhead. }
  rewrite Hfix, rev_involutive. f_equal.
  apply str_lstrip_fixed. apply str_lstrip_head.
Qed.

Lemma str_startswith_extinf_hash (s : pystr) :
  str_startswith [ch_hash] s = false -> str_startswith lit_extinf s = false.
Proof.
  destruct s as [|c s]; simpl; [done|].
  rewrite andb_true_r. unfold ch_hash. by intros ->.
Qed.

(** A url line read while a category and a name are held. *)
Lemma m3u_step_url_line (st : m3u_state) (line c n : pystr) :
  m3u_category st = Some c -> truthy c = true ->
  m3u_name st = Some n -> truthy n = true ->
  is_url_line line = true ->
  m3u_step st line
  = {| m3u_channels :=
         od_alter (fun l => l ++ [(n, str_strip line)]) c (m3u_channels st);
       m3u_category := Some c;
       m3u_name := Some n |}.
Proof.
  intros Hc Hct Hn Hnt [Hne Hhash]%andb_prop.
  apply negb_true_iff in Hhash.
  unfold m3u_step.
  rewrite (str_startswith_extinf_hash _ Hhash), Hne, Hhash, Hc, Hn, Hct, Hnt.
  simpl. by rewrite str_strip_idemp.
Qed.

Lemma m3u_run_url_lines (urls pre : list pystr) (c n : pystr) :
  m3u_category (m3u_run pre) = Some c -> truthy c = true ->
  m3u_name (m3u_run pre) = Some n -> truthy n = true ->
  forallb is_url_line urls = true ->
  m3u_run (pre ++ urls)
  = {| m3u_channels :=
         od_alter (fun l => l ++ List.map (fun line => (n, str_strip line)) urls)
           c (m3u_channels (m3u_run pre));
       m3u_category := Some c;
       m3u_name := Some n |}.
Proof.
  revert pre. induction urls as [|u urls IH]; intros pre Hc Hct Hn Hnt Hall.
  - rewrite app_nil_r. simpl.
    rewrite od_alter_id by (intros; apply app_nil_r).
    destruct (m3u_run pre); simpl in *; by subst.
  - simpl in Hall. apply andb_prop in Hall as [Hu Hall].
    pose proof (m3u_step_url_line (m3u_run pre) u c n Hc Hct Hn Hnt Hu) as Hstep.
    rewrite <- m3u_run_snoc in Hstep.
    rewrite (cons_middle u pre urls), app_assoc.
    rewrite IH by (by rewrite ?Hstep).
    rewrite Hstep. simpl. f_equal.
    rewrite od_alter_alter. apply od_alter_ext.
    intros l. by rewrite <- app_assoc.
Qed.

Lemma m3u_step_unmatched_metadata (st : m3u_state) (line : pystr) :
  str_startswith lit_extinf (str_strip line) = true ->
  re_search_group_title (str_strip line) = None ->
  m3u_step st line = st.
Proof. intros Hext Hre. unfold m3u_step. by rewrite Hext, Hre. Qed.

(** C10, as stated, fails when the metadata line captured an empty name:
    the category is active, yet the url line that follows is dropped. *)
Lemma extended_url_after_empty_name_is_dropped :
  let pre := [sample_nameless_extinf_line] in
  let url := utf8 "http://x/1" in
  m3u_category (m3u_run pre) = Some (utf8 "News")
  /\ m3u_name (m3u_run pre) = Some []
  /\ is_url_line url = true
  /\ parse_m3u_lines (pre ++ [url]) = [(utf8 "News", [])]
  /\ parse_m3u_lines (pre ++ [url])
     <> od_alter (fun l => l ++ [([], url)]) (utf8 "News") (parse_m3u_lines pre).
Proof.
  split_and!; try (vm_compute; reflexivity). vm_compute. discriminate.
Qed.

(** C10 (amended). While a category is active and the name captured last
    is not empty, every line that is neither blank nor a comment is
    appended as a pair of that name and the trimmed line, whether or not it
    comes first after a metadata line: k such lines in a row give k pairs
    with the same name, and category and name stay as they were. A #EXTINF
    line on which the pattern does not match changes nothing, so the lines
    after it are read with the previous category and name. *)
Theorem extended_url_lines (pre urls : list pystr) (c n : pystr) :
  m3u_category (m3u_run pre) = Some c -> truthy c = true ->
  m3u_name (m3u_run pre) = Some n -> truthy n = true ->
  forallb is_url_line urls = true ->
  od_mem c (parse_m3u_lines pre) = true
  /\ parse_m3u_lines (pre ++ urls)
     = od_alter (fun l => l ++ List.map (fun line => (n, str_strip line)) urls)
         c (parse_m3u_lines pre)
  /\ m3u_category (m3u_run (pre ++ urls)) = Some c
  /\ m3u_name (m3u_run (pre ++ urls)) = Some n
  /\ (forall line : pystr,
        str_startswith (utf8 "#EXTINF") (str_strip line) = true ->
        re_search_group_title (str_strip line) = None ->
        m3u_run (pre ++ [line]) = m3u_run pre
        /\ parse_m3u_lines ((pre ++ [line]) ++ urls)
           = parse_m3u_lines (pre ++ urls)).
Proof.
  intros Hc Hct Hn Hnt Hall.
  pose proof (m3u_run_url_lines urls pre c n Hc Hct Hn Hnt Hall) as Hrun.
  split_and!.
  - by apply m3u_category_registered.
  - unfold parse_m3u_lines. by rewrite Hrun.
  - by rewrite Hrun.
  - by rewrite Hrun.
  - intros line Hext Hre.
    assert (Hsame : m3u_run (pre ++ [line]) = m3u_run pre).
    { rewrite m3u_run_snoc. by apply m3u_step_unmatched_metadata. }
    split; [done|].
    unfold parse_m3u_lines, m3u_run in *.
    by rewrite (fold_left_app _ (pre ++ [line])), Hsame, <- fold_left_app.
Qed.

Lemma extended_url_lines_witness :
  parse_m3u_lines
    ([sample_extinf_line]
     ++ [utf8 "http://x/1"; utf8 " http://x/2 "; utf8 "http://x/3"])
  = [(utf8 "News", [(utf8 "CCTV1", utf8 "http://x/1");
                    (utf8 "CCTV1", utf8 "http://x/2");
                    (utf8 "CCTV1", utf8 "http://x/3")])]
  /\ parse_m3u_lines
       (([sample_extinf_line] ++ [utf8 "#EXTINF:-1,Lost"])
        ++ [utf8 "http://x/1"; utf8 " http://x/2 "; utf8 "http://x/3"])
     = parse_m3u_lines
         ([sample_extinf_line]
          ++ [utf8 "http://x/1"; utf8 " http://x/2 "; utf8 "http://x/3"]).
Proof.
  destruct (extended_url_lines [sample_extinf_line]
              [utf8 "http://x/1"; utf8 " http://x/2 "; utf8 "http://x/3"]
              (utf8 "News") (utf8 "CCTV1")
              eq_refl eq_refl eq_refl eq_refl eq_refl)
    as (_ & Hpairs & _ & _ & Hskip).
  split.
  - exact Hpairs.
  - exact (proj2 (Hskip (utf8 "#EXTINF:-1,Lost") eq_refl eq_refl)).
Defined.

(** ** The metadata pattern of the extended format *)

Lemma str_partition_eq (sep s : pystr) :
  str_partition sep s
  = if str_startswith sep s then Some ([], drop (length sep) s)
    else match s with
         | [] => None
         | c :: s' =>
             match str_partition sep s' with
             | Some (before, after) => Some (c :: before, after)
             | None => None
             end
         end.
Proof. by destruct s. Qed.

Lemma re_lazy_quote_comma_eq (s : pystr) :
  re_lazy_quote_comma s
  = if str_startswith lit_quote_comma s
    then Some ([], re_dot_star (drop (length lit_quote_comma) s))
    else match s with
         | [] => None
         | c :: s' =>
             if c =? ch_nl then None
             else match re_lazy_quote_comma s' with
                  | Some (g1, g2) => Some (c :: g1, g2)
                  | None => None
                  end
         end.
Proof. by destruct s. Qed.

Lemma re_search_group_title_eq (s : pystr) :
  re_search_group_title s
  = match (if str_startswith lit_group_title s
           then re_lazy_quote_comma (drop (length lit_group_title) s)
           else None) with
    | Some r => Some r
    | None =>
        match s with
        | [] => None
        | _ :: s' => re_search_group_title s'
        end
    end.
Proof. by destruct s. Qed.

Lemma not_elem_of_drop (x : N) (n : nat) (s : pystr) : x ∉ s -> x ∉ drop n s.
Proof.
  intros Hx Hin. apply Hx. rewrite <- (take_drop n s).
  apply elem_of_app. by right.
Qed.

Lemma str_partition_none_drop (sep s : pystr) (n : nat) :
  str_partition sep s = None -> str_partition sep (drop n s) = None.
Proof.
  revert s. induction n as [|n IH]; intros s; [done|].
  destruct s as [|c s]; [done|]. simpl drop.
  rewrite (str_partition_eq sep (c :: s)).
  destruct (str_startswith sep (c :: s)); [done|].
  destruct (str_partition sep s) as [[a b]|] eqn:Hs; [done|].
  intros _. by apply IH.
Qed.

Lemma str_partition_after (sep s before after : pystr) :
  str_partition sep s = Some (before, after) ->
  after = drop (length before + length sep) s.
Proof.
  revert before. induction s as [|c s IH]; intros before;
    rewrite str_partition_eq.
  - destruct (str_startswith sep []); [|done]. by intros [= <- <-].
  - destruct (str_startswith sep (c :: s)); [by intros [= <- <-]|].
    destruct (str_partition sep s) as [[a b]|] eqn:Hs; [|done].
    intros [= <- <-]. simpl. by apply IH.
Qed.

Lemma re_lazy_quote_comma_partition (s : pystr) :
  ch_nl ∉ s -> re_lazy_quote_comma s = str_partition lit_quote_comma s.
Proof.
  induction s as [|c s IH]; intros Hnl;
    rewrite re_lazy_quote_comma_eq, str_partition_eq.
  - done.
  - destruct (str_startswith lit_quote_comma (c :: s)).
    + by rewrite re_dot_star_no_nl by by apply not_elem_of_drop.
    + apply not_elem_of_cons in Hnl as [Hc Hs].
      destruct (N.eqb_spec c ch_nl) as [->|_]; [done|].
      by rewrite IH.
Qed.

(** On a line without newline the pattern captures the text between the
    first occurrence of the attribute opener and the first quote-comma
    after it, and the whole text after that quote-comma. *)
Lemma re_search_group_title_partition (s : pystr) :
  ch_nl ∉ s ->
  re_search_group_title s
  = match str_partition lit_group_title s with
    | Some (_, t) => str_partition lit_quote_comma t
    | None => None
    end.
Proof.
  induction s as [|c s IH]; intros Hnl;
    rewrite re_search_group_title_eq, (str_partition_eq lit_group_title).
  - done.
  - pose proof Hnl as [Hc Hs]%not_elem_of_cons.
    destruct (str_startswith lit_group_title (c :: s)) eqn:Hstart.
    + rewrite re_lazy_quote_comma_partition by by apply not_elem_of_drop.
      destruct (str_partition lit_quote_comma
                  (drop (length lit_group_title) (c :: s)))
        as [r|] eqn:Hqc; [done|].
      rewrite IH by done.
      destruct (str_partition lit_group_title s) as [[a t]|] eqn:Hgt; [|done].
      apply str_partition_after in Hgt as ->.
      replace (drop (length a + length lit_group_title) s)
        with (drop (S (length a))
                (drop (length lit_group_title) (c :: s))).
      * by apply str_partition_none_drop.
      * rewrite drop_drop.
        by replace (length lit_group_title + S (length a))%nat
          with (S (length a + length lit_group_title)) by lia.
    + rewrite IH by done.
      by destruct (str_partition lit_group_title s) as [[a t]|].
Qed.

(** C5, as stated, fails: the captured name is everything after the
    quote-comma that closes the capture of the category, commas included,
    not the text after the final comma of the line; and the captured
    category runs up to that quote-comma, past the closing quote of the
    attribute when other attributes follow it. *)
Lemma extended_name_keeps_inner_commas :
  str_startswith (utf8 "#EXTINF") sample_comma_extinf_line = true
  /\ last (str_split ch_comma sample_comma_extinf_line) = Some (utf8 "B")
  /\ m3u_name (m3u_run [sample_comma_extinf_line]) = Some (utf8 "A,B")
  /\ parse_m3u_lines [sample_comma_extinf_line; utf8 "http://x/1"]
     = [(utf8 "News", [(utf8 "A,B", utf8 "http://x/1")])]
  /\ m3u_category (m3u_run [sample_attr_extinf_line])
     = Some (utf8 "News" ++ [ch_quote] ++ utf8 " tvg-id=" ++ [ch_quote]
             ++ utf8 "7")
  /\ m3u_name (m3u_run [sample_comma_extinf_line]) <> Some (utf8 "B").
Proof.
  split_and!; try (vm_compute; reflexivity). vm_compute. discriminate.
Qed.

(** C5 (amended). On a line without newline the pattern captures, as
    category, the text between the first attribute opener (group-title, the
    equals sign and a quote) and the first quote-comma after it, and, as raw
    name, all the text after that quote-comma. A line starting with #EXTINF
    on which the pattern matches makes the trimmed first capture the current
    category, the trimmed second capture (normalized when it starts with
    "CCTV") the current name, and registers the category at once if it is
    new. So the metadata line with group-title "News" and name CCTV01
    registers News, and followed by http://x/1 it gives News the single
    pair (CCTV1, http://x/1). *)
Theorem extended_metadata_line :
  (forall s : pystr,
      ch_nl ∉ s ->
      re_search_group_title s
      = match str_partition (utf8 "group-title=" ++ [ch_quote]) s with
        | Some (_, t) => str_partition [ch_quote; ch_comma] t
        | None => None
        end)
  /\ (forall (pre : list pystr) (line g1 g2 : pystr),
        str_startswith (utf8 "#EXTINF") (str_strip line) = true ->
        re_search_group_title (str_strip line) = Some (g1, g2) ->
        m3u_category (m3u_run (pre ++ [line])) = Some (str_strip g1)
        /\ m3u_name (m3u_run (pre ++ [line]))
           = Some (if str_startswith (utf8 "CCTV") (str_strip g2)
                   then clean_channel_name (str_strip g2) else str_strip g2)
        /\ parse_m3u_lines (pre ++ [line])
           = (if od_mem (str_strip g1) (parse_m3u_lines pre)
              then parse_m3u_lines pre
              else parse_m3u_lines pre ++ [(str_strip g1, [])]))
  /\ parse_m3u_lines [sample_extinf_line] = [(utf8 "News", [])]
  /\ parse_m3u_lines [sample_extinf_line; utf8 "http://x/1"]
     = [(utf8 "News", [(utf8 "CCTV1", utf8 "http://x/1")])].
Proof.
  split_and!.
  - apply re_search_group_title_partition.
  - intros pre line g1 g2 Hext Hre. unfold parse_m3u_lines.
    rewrite m3u_run_snoc, (m3u_step_metadata _ _ g1 g2) by done. simpl.
    split_and!; [done..|].
    destruct (od_mem (str_strip g1) (m3u_channels (m3u_run pre))) eqn:Hm;
      [done|].
    apply od_set_fresh. by apply od_mem_false_keys.
  - vm_compute. reflexivity.
  - vm_compute. reflexivity.
Qed.

Lemma extended_metadata_line_witness :
  re_search_group_title sample_attr_extinf_line
  = Some (utf8 "News" ++ [ch_quote] ++ utf8 " tvg-id=" ++ [ch_quote]
          ++ utf8 "7", utf8 "A")
  /\ m3u_category (m3u_run ([] ++ [sample_extinf_line])) = Some (utf8 "News")
  /\ m3u_name (m3u_run ([] ++ [sample_extinf_line])) = Some (utf8 "CCTV1")
  /\ parse_m3u_lines ([] ++ [sample_extinf_line]) = [(utf8 "News", [])].
Proof.
  destruct extended_metadata_line as (Hre & Hstep & _).
  split.
  - refine (Hre sample_attr_extinf_line _).
    apply not_elem_of_computed. reflexivity.
  - exact (Hstep [] sample_extinf_line (utf8 "News") (utf8 "CCTV01")
             eq_refl eq_refl).
Defined.

(** ** The template *)

Lemma str_split_hd (sep : N) (s : pystr) :
  hd [] (str_split sep s) = take_while (fun c => negb (c =? sep)) s.
Proof.
  induction s as [|c s IH]; simpl; [done|].
  destruct (c =? sep); simpl; [done|].
  rewrite <- IH. by destruct (str_split sep s).
Qed.

Lemma od_alter_set {V : Type} (f : V -> V) (k : pystr) (v : V) (d : odict V) :
  od_alter f k (od_set k v d) = od_set k (f v) d.
Proof.
  induction d as [|[k' v'] d IH]; simpl.
  - by rewrite bool_decide_true.
  - case_bool_decide as Hk; simpl.
    + by rewrite bool_decide_true.
    + by rewrite bool_decide_false, IH.
Qed.

Lemma template_step_ignored (st : template_state) (line : pystr) :
  template_line_ignored line = true -> template_step st line = st.
Proof.
  unfold template_line_ignored, template_step. intros Hig.
  destruct (truthy (str_strip line)); simpl in *; [|done].
  by rewrite Hig.
Qed.

Lemma template_step_category (st : template_state) (line : pystr) :
  template_line_category line = true ->
  template_step st line
  = {| template_channels :=
         od_set (template_line_name line) [] (template_channels st);
       template_category := Some (template_line_name line) |}.
Proof.
  unfold template_line_category, template_line_ignored, template_step,
    template_line_name, pre_comma.
  intros [Hig Hgenre]%andb_prop.
  apply negb_true_iff, orb_false_elim in Hig as [Hne Hhash].
  apply negb_false_iff in Hne.
  by rewrite Hne, Hhash, Hgenre, str_split_hd.
Qed.

Lemma template_step_channel (st : template_state) (line c : pystr) :
  template_category st = Some c -> truthy c = true ->
  template_line_ignored line = false ->
  template_line_category line = false ->
  template_step st line
  = {| template_channels :=
         od_alter (fun l => l ++ [template_line_name line]) c
           (template_channels st);
       template_category := Some c |}.
Proof.
  unfold template_line_category, template_step, template_line_name, pre_comma.
  intros Hc Hct Hig Hcat. rewrite Hig in Hcat. simpl in Hcat.
  unfold template_line_ignored in Hig.
  apply orb_false_elim in Hig as [Hne Hhash].
  apply negb_false_iff in Hne.
  by rewrite Hne, Hhash, Hcat, Hc, Hct, str_split_hd.
Qed.

(** The current category of the template parser is a key of the result
    built so far. *)
Lemma template_category_registered (lines : list pystr) (c : pystr) :
  template_category (template_run lines) = Some c ->
  od_mem c (template_channels (template_run lines)) = true.
Proof.
  unfold template_run.
  apply (fold_left_invariant
           (fun st => template_category st = Some c ->
                      od_mem c (template_channels st) = true));
    [|done].
  intros st line IH.
  destruct (template_line_ignored line) eqn:Hig.
  { by rewrite template_step_ignored. }
  destruct (template_line_category line) eqn:Hcat.
  { rewrite template_step_category by done.
    cbn [template_category template_channels]. intros [= <-].
    apply od_mem_keys. rewrite od_keys_set.
    destruct (od_mem _ (template_channels st)) eqn:Hm; [by apply od_mem_keys|].
    apply elem_of_app. right. by left. }
  unfold template_step, template_line_category in *.
  rewrite Hig in Hcat. cbn [negb andb] in Hcat.
  unfold template_line_ignored in Hig.
  apply orb_false_elim in Hig as [Hne Hhash].
  apply negb_false_iff in Hne. rewrite Hne, Hhash, Hcat. cbn [negb andb].
  destruct (template_category st) as [c'|] eqn:Hc; [|by rewrite Hc].
  destruct (truthy c'); [|by rewrite Hc].
  cbn [template_category template_channels]. intros Hcc.
  apply od_mem_keys. rewrite od_keys_alter. apply od_mem_keys. by apply IH.
Qed.

(** The lines that follow a category line, up to the next one. *)
Lemma template_run_block (block : list pystr) (st : template_state)
    (c : pystr) :
  template_category st = Some c -> truthy c = true ->
  forallb (fun l => negb (template_line_category l)) block = true ->
  fold_left template_step block st
  = {| template_channels :=
         od_alter
           (fun l =>
              l ++ List.map template_line_name
                     (List.filter (fun l => negb (template_line_ignored l))
                        block))
           c (template_channels st);
       template_category := Some c |}.
Proof.
  revert st. induction block as [|line block IH]; intros st Hc Hct Hall; simpl.
  - rewrite od_alter_id by (intros; apply app_nil_r).
    destruct st; simpl in *; by subst.
  - simpl in Hall. apply andb_prop in Hall as [Hline Hall].
    apply negb_true_iff in Hline.
    destruct (template_line_ignored line) eqn:Hig; simpl.
    + rewrite template_step_ignored by done. by apply IH.
    + rewrite (template_step_channel st line c) by done.
      rewrite IH by done. simpl. f_equal.
      rewrite od_alter_alter. apply od_alter_ext.
      intros l. by rewrite <- app_assoc.
Qed.

(** C9, as stated, fails: a line that starts with a hash is ignored even
    when it contains the marker, so it opens no category and the channel
    line after it is lost. *)
Lemma template_marked_comment_is_ignored :
  let header := utf8 "#Favourites,#genre#" ++ [ch_nl] in
  let lines := [header; utf8 "CCTV1" ++ [ch_nl]] in
  str_startswith [ch_hash] header = true
  /\ str_contains (utf8 "#genre#") header = true
  /\ parse_template_lines lines = []
  /\ parse_template (concat lines) = []
  /\ parse_template_lines lines <> [(utf8 "#Favourites", [utf8 "CCTV1"])].
Proof. split_and!; try (vm_compute; reflexivity). done. Qed.

(** C9 (amended). Template parsing ignores blank lines and every line that
    starts with a hash, with or without the marker: removing such a line
    changes nothing. A line that is not ignored and contains the marker is a
    category line: it sets the category named by its trimmed text before the
    first comma to the empty list; when that name is not empty, the lines
    after it up to the next category line give the category its channel
    names, the trimmed text before the first comma of each line that is
    not ignored, in file order. *)
Theorem template_parsing :
  (forall line : pystr,
      str_strip line = [] \/ str_startswith [ch_hash] (str_strip line) = true ->
      template_line_ignored line = true)
  /\ (forall (pre post : list pystr) (line : pystr),
        template_line_ignored line = true ->
        parse_template_lines (pre ++ line :: post)
        = parse_template_lines (pre ++ post))
  /\ (forall (pre block : list pystr) (header : pystr),
        template_line_category header = true ->
        template_line_name header <> [] ->
        forallb (fun l => negb (template_line_category l)) block = true ->
        parse_template_lines (pre ++ header :: block)
        = od_set (template_line_name header)
            (List.map template_line_name
               (List.filter (fun l => negb (template_line_ignored l)) block))
            (parse_template_lines pre))
  /\ parse_template sample_template
     = [(utf8 "News", [utf8 "CCTV1"; utf8 "Other"]); (utf8 "Empty", [])].
Proof.
  split_and!.
  - intros line [Hblank|Hhash]; unfold template_line_ignored.
    + by rewrite Hblank.
    + by rewrite Hhash, orb_true_r.
  - intros pre post line Hig.
    unfold parse_template_lines, template_run.
    rewrite !fold_left_app. simpl. by rewrite template_step_ignored.
  - intros pre block header Hcat Hname Hblock.
    unfold parse_template_lines, template_run.
    rewrite fold_left_app. simpl.
    rewrite template_step_category by done.
    rewrite (template_run_block block _ (template_line_name header));
      [|done|by destruct (template_line_name header)|done].
    simpl. by rewrite od_alter_set.
  - vm_compute. reflexivity.
Qed.

Lemma template_parsing_witness :
  parse_template_lines
    ([] ++ (utf8 "News,#genre#" ++ [ch_nl])
        :: [utf8 "CCTV1" ++ [ch_nl]; utf8 "# a comment" ++ [ch_nl]; [ch_nl];
            utf8 " Other , anything" ++ [ch_nl]])
  = [(utf8 "News", [utf8 "CCTV1"; utf8 "Other"])]
  /\ parse_template_lines
       ([utf8 "News,#genre#"] ++ utf8 "#Hidden,#genre#" :: [utf8 "CCTV1"])
     = parse_template_lines ([utf8 "News,#genre#"] ++ [utf8 "CCTV1"]).
Proof.
  destruct template_parsing as (Hig & Hskip & Hblock & _). split.
  - refine (Hblock []
              [utf8 "CCTV1" ++ [ch_nl]; utf8 "# a comment" ++ [ch_nl]; [ch_nl];
               utf8 " Other , anything" ++ [ch_nl]]
              (utf8 "News,#genre#" ++ [ch_nl]) eq_refl _ eq_refl).
    discriminate.
  - apply Hskip. apply Hig. right. reflexivity.
Defined.

(** ** Deduplication across the run *)

Lemma sort_and_filter_urls_subset cfg urls written_urls (url : pystr) :
  url ∈ (sort_and_filter_urls cfg urls written_urls).1 -> url ∈ urls.
Proof.
  rewrite sort_and_filter_urls_fst, py_sorted_partition.
  rewrite !list_elem_of_In, filter_In, in_app_iff, !filter_In. tauto.
Qed.

(** Every url kept by the ranker is not empty, was not written before,
    contains no blacklisted text, and is in the set afterwards. *)
Lemma sort_and_filter_urls_sound cfg urls written_urls (url : pystr) :
  url ∈ (sort_and_filter_urls cfg urls written_urls).1 ->
  url <> [] /\ (url ∉ written_urls)
  /\ (forall blacklist, blacklist ∈ url_blacklist cfg ->
        str_contains blacklist url = false)
  /\ url ∈ (sort_and_filter_urls cfg urls written_urls).2.
Proof.
  intros Hin. pose proof Hin as Hin'.
  rewrite sort_and_filter_urls_fst, list_elem_of_In, filter_In in Hin.
  destruct Hin as [_ Hs]. unfold survives in Hs.
  apply andb_prop in Hs as [[Hne Hw]%andb_prop Hb].
  split_and!.
  - by destruct url.
  - apply negb_true_iff, bool_decide_eq_false in Hw. done.
  - intros blacklist Hbl. apply negb_true_iff in Hb.
    destruct (str_contains blacklist url) eqn:Hc; [|done].
    assert (existsb (fun b => str_contains b url) (url_blacklist cfg) = true)
      as Hex; [|by rewrite Hex in Hb].
    apply existsb_exists. exists blacklist. by rewrite <- list_elem_of_In.
  - simpl. apply elem_of_union. right. by apply elem_of_list_to_set.
Qed.

(** A url that is already in the set is never kept again, and the set
    only grows: no url kept for one channel is kept for a later one. *)
Lemma sort_and_filter_urls_threaded cfg urls written_urls (url : pystr) :
  url ∈ written_urls ->
  (url ∉ (sort_and_filter_urls cfg urls written_urls).1)
  /\ url ∈ (sort_and_filter_urls cfg urls written_urls).2.
Proof.
  intros Hw. split.
  - intros Hin. by apply sort_and_filter_urls_sound in Hin as (_ & ? & _).
  - simpl. apply elem_of_union. by left.
Qed.

(** C2, on the code: a url that occurs twice among the candidates of one
    channel is kept twice by the ranker, because the set is updated only
    after the whole list has been filtered, and is written twice. *)
Theorem duplicate_candidate_is_written_twice :
  (forall (cfg : config) (written_urls : gset (list N)) (url : pystr),
      survives cfg written_urls url = true ->
      (sort_and_filter_urls cfg [url; url] written_urls).1 = [url; url])
  /\
  let cfg := {| source_urls := [utf8 "http://source/1"]; epg_urls := [];
                url_blacklist := []; ip_version_priority := utf8 "ipv4" |} in
  let fetch := fun _ : pystr =>
    Some (utf8 "News,#genre#
A,http://a/1
A,http://a/1
") in
  let template_content := utf8 "News,#genre#
A
" in
  (sort_and_filter_urls cfg [utf8 "http://a/1"; utf8 "http://a/1"] ∅).1
  = [utf8 "http://a/1"; utf8 "http://a/1"]
  /\ (filter_source_urls cfg fetch template_content).1
     = [(utf8 "News", [(utf8 "A", [utf8 "http://a/1"; utf8 "http://a/1"])])]
  /\ f_txt (main cfg fetch (sample_now 9) template_content)
     = utf8 "News,#genre#
A,http://a/1$LR•IPV4『线路1』
A,http://a/1$LR•IPV4『线路2』

".
Proof.
  split.
  - intros cfg written_urls url Hurl.
    rewrite sort_and_filter_urls_fst, py_sorted_partition.
    destruct (family_key cfg url) eqn:Hkey; simpl; rewrite Hkey; simpl;
      by rewrite Hurl.
  - split_and!; vm_compute; reflexivity.
Qed.

Lemma duplicate_candidate_is_written_twice_witness :
  (sort_and_filter_urls (sample_config (utf8 "ipv6"))
     [utf8 "http://[::1]/a"; utf8 "http://[::1]/a"] ∅).1
  = [utf8 "http://[::1]/a"; utf8 "http://[::1]/a"].
Proof.
  exact (proj1 duplicate_candidate_is_written_twice
           (sample_config (utf8 "ipv6")) ∅ (utf8 "http://[::1]/a") eq_refl).
Defined.

(** ** Category headers in the delimited output *)

Lemma no_newline_spec (s : pystr) : no_newline s = true <-> ch_nl ∉ s.
Proof.
  unfold no_newline. induction s as [|c s IH]; simpl.
  - split; [intros _ ?%elem_of_nil; done|done].
  - rewrite andb_true_iff, IH, not_elem_of_cons, negb_true_iff, N.eqb_neq.
    split; intros [? ?]; split; auto.
Qed.

Lemma no_newline_app (s t : pystr) :
  no_newline (s ++ t) = no_newline s && no_newline t.
Proof. apply forallb_app. Qed.

Lemma unlines_app (ls ls' : list pystr) :
  unlines (ls ++ ls') = unlines ls ++ unlines ls'.
Proof. apply flat_map_app. Qed.

Lemma str_split_unlines (ls : list pystr) (t : pystr) :
  forallb no_newline ls = true ->
  str_split ch_nl (unlines ls ++ t) = ls ++ str_split ch_nl t.
Proof.
  induction ls as [|l ls IH]; simpl; [done|].
  intros [Hl Hls]%andb_prop.
  rewrite <- !app_assoc. simpl.
  rewrite str_split_app, str_split_no_sep by by apply no_newline_spec.
  simpl. by rewrite IH.
Qed.

Lemma is_header_line_mark (category : pystr) :
  is_header_line (category ++ lit_header_mark) = true.
Proof.
  unfold is_header_line, str_endswith.
  rewrite rev_app_distr. apply str_startswith_app.
Qed.

Lemma is_header_line_last (s : pystr) (c : N) :
  c <> ch_hash -> is_header_line (s ++ [c]) = false.
Proof.
  intros Hc. unfold is_header_line, str_endswith.
  rewrite rev_app_distr.
  change (rev [c] ++ rev s) with (c :: rev s).
  change (rev lit_header_mark) with (ch_hash :: tl (rev lit_header_mark)).
  cbn [str_startswith].
  by rewrite (proj2 (N.eqb_neq ch_hash c)) by done.
Qed.

Lemma no_newline_take_while (p : N -> bool) (s : pystr) :
  no_newline s = true -> no_newline (take_while p s) = true.
Proof.
  unfold no_newline. induction s as [|c s IH]; simpl; [done|].
  intros [Hc Hs]%andb_prop. destruct (p c); simpl; [|done].
  by rewrite Hc, IH.
Qed.

Lemma no_newline_uint_codes (d : Decimal.uint) :
  no_newline (uint_codes d) = true.
Proof. induction d; simpl; done. Qed.

Lemma no_newline_add_url_suffix (url : pystr) (index total_urls : N) :
  no_newline url = true ->
  no_newline (add_url_suffix url index total_urls) = true.
Proof.
  intros Hurl. rewrite add_url_suffix_shape, !no_newline_app.
  rewrite no_newline_take_while by done.
  replace (no_newline (if is_ipv6 url then lit_lr_ipv6 else lit_lr_ipv4))
    with true by (by destruct (is_ipv6 url)).
  destruct (total_urls =? 1); [done|].
  rewrite !no_newline_app. unfold str_of_int.
  by rewrite no_newline_uint_codes.
Qed.

Lemma is_header_line_add_url_suffix (s url : pystr) (index total_urls : N) :
  is_header_line (s ++ add_url_suffix url index total_urls) = false.
Proof.
  rewrite add_url_suffix_shape.
  destruct (total_urls =? 1).
  - rewrite app_nil_r.
    destruct (is_ipv6 url).
    + change lit_lr_ipv6 with (removelast lit_lr_ipv6 ++ [54]).
      rewrite !app_assoc. by apply is_header_line_last.
    + change lit_lr_ipv4 with (removelast lit_lr_ipv4 ++ [52]).
      rewrite !app_assoc. by apply is_header_line_last.
  - change lit_line_close with [12303].
    rewrite !app_assoc. by apply is_header_line_last.
Qed.

Lemma appends_body_refl (fs : files) : appends_body fs fs.
Proof. exists []. simpl. by rewrite app_nil_r. Qed.

Lemma appends_body_trans (fs1 fs2 fs3 : files) :
  appends_body fs1 fs2 -> appends_body fs2 fs3 -> appends_body fs1 fs3.
Proof.
  intros (ls & Hls & Hb) (ls' & Hls' & Hb'). exists (ls ++ ls'). split.
  - by rewrite Hls', Hls, unlines_app, app_assoc.
  - by rewrite forallb_app, Hb, Hb'.
Qed.

Lemma write_to_files_body (fs : files) (category channel_name url : pystr)
    (index total_urls : N) :
  no_newline channel_name = true -> no_newline url = true ->
  appends_body fs
    (write_to_files fs category channel_name index
       (add_url_suffix url index total_urls)).
Proof.
  intros Hname Hurl.
  exists [channel_name ++ [ch_comma] ++ add_url_suffix url index total_urls].
  split.
  - unfold write_to_files, unlines. cbn [f_txt flat_map].
    by rewrite app_nil_r, <- !app_assoc.
  - cbn [forallb]. rewrite andb_true_r. unfold body_line.
    rewrite !no_newline_app, Hname, no_newline_add_url_suffix by done.
    rewrite app_assoc. by rewrite is_header_line_add_url_suffix.
Qed.

Lemma write_urls_body (category channel_name : pystr) (total_urls : N)
    (urls : list pystr) (i : N) (fs : files) :
  no_newline channel_name = true -> forallb no_newline urls = true ->
  appends_body fs
    (fold_left
       (fun fs '(index, url) =>
          write_to_files fs category channel_name index
            (add_url_suffix url index total_urls))
       (enumerate i urls) fs).
Proof.
  intros Hname. revert i fs.
  induction urls as [|url urls IH]; intros i fs Hurls; simpl.
  - apply appends_body_refl.
  - simpl in Hurls. apply andb_prop in Hurls as [Hurl Hurls].
    eapply appends_body_trans; [|by apply IH].
    by apply write_to_files_body.
Qed.

Lemma od_get_elem {V : Type} (k : pystr) (v : V) (d : odict V) :
  od_get k d = Some v -> (k, v) ∈ d.
Proof.
  induction d as [|[k' v'] d IH]; simpl; [done|].
  case_bool_decide as Hk.
  - intros [= ->]. subst. left.
  - intros Hd. right. by apply IH.
Qed.

Lemma forallb_elem {A : Type} (p : A -> bool) (l : list A) (x : A) :
  forallb p l = true -> x ∈ l -> p x = true.
Proof.
  intros Hall Hx. eapply forallb_forall; [done|]. by apply list_elem_of_In.
Qed.

Lemma write_channel_body (cfg : config) (category : pystr)
    (inner : odict (list pystr)) (st : files * gset (list N))
    (channel_name : pystr) :
  no_newline channel_name = true ->
  forallb (fun '(_, urls) => forallb no_newline urls) inner = true ->
  appends_body st.1 (write_channel cfg category inner st channel_name).1.
Proof.
  intros Hname Hinner. destruct st as [fs written_urls].
  unfold write_channel.
  destruct (od_get channel_name inner) as [urls|] eqn:Hget;
    [|apply appends_body_refl].
  destruct (sort_and_filter_urls cfg urls written_urls)
    as [sorted_urls written_urls'] eqn:Hsort.
  simpl. apply write_urls_body; [done|].
  apply forallb_forall. intros url Hurl%list_elem_of_In.
  assert (Hin : url ∈ urls).
  { apply (sort_and_filter_urls_subset cfg urls written_urls).
    by rewrite Hsort. }
  apply od_get_elem in Hget.
  pose proof (forallb_elem _ _ _ Hinner Hget) as Hurls. simpl in Hurls.
  by apply (forallb_elem _ _ _ Hurls).
Qed.

Lemma write_channels_body (cfg : config) (category : pystr)
    (inner : odict (list pystr)) (channel_list : list pystr)
    (st : files * gset (list N)) :
  forallb no_newline channel_list = true ->
  forallb (fun '(_, urls) => forallb no_newline urls) inner = true ->
  appends_body st.1
    (fold_left (write_channel cfg category inner) channel_list st).1.
Proof.
  intros Hnames Hinner. revert st.
  induction channel_list as [|name names IH]; intros st; simpl.
  - apply appends_body_refl.
  - simpl in Hnames. apply andb_prop in Hnames as [Hname Hnames].
    eapply appends_body_trans; [|by apply IH].
    by apply write_channel_body.
Qed.

(** One template category writes its header line, then body lines. *)
Lemma write_category_lines (cfg : config) (channels : matched_map)
    (st : files * gset (list N)) (category : pystr)
    (channel_list : list pystr) :
  forallb no_newline channel_list = true ->
  matched_no_newline channels = true ->
  exists ls : list pystr,
    f_txt (write_category cfg channels st (category, channel_list)).1
    = f_txt st.1 ++ unlines ((category ++ lit_header_mark) :: ls)
    /\ forallb body_line ls = true.
Proof.
  intros Hnames Hchannels. unfold write_category.
  set (st' := ({| f_m3u := f_m3u st.1;
                  f_txt := f_txt st.1 ++ category ++ lit_header_mark ++ [ch_nl] |},
               st.2)).
  assert (Hbody : appends_body st'.1
            (match od_get category channels with
             | Some inner =>
                 fold_left (write_channel cfg category inner) channel_list st'
             | None => st'
             end).1).
  { destruct (od_get category channels) as [inner|] eqn:Hget;
      [|apply appends_body_refl].
    apply write_channels_body; [done|].
    apply od_get_elem in Hget.
    by pose proof (forallb_elem _ _ _ Hchannels Hget). }
  destruct Hbody as (ls & Hls & Hb). exists ls. split; [|done].
  rewrite Hls. simpl. by rewrite <- !app_assoc.
Qed.

Lemma filter_body_lines (ls : list pystr) :
  forallb body_line ls = true ->
  List.filter is_header_line ls = [] /\ forallb no_newline ls = true.
Proof.
  induction ls as [|l ls IH]; simpl; [done|].
  intros [[Hnl Hh]%andb_prop Hls]%andb_prop.
  apply negb_true_iff in Hh. rewrite Hh, Hnl. by apply IH.
Qed.

Lemma write_categories_lines (cfg : config) (channels : matched_map)
    (template_channels : odict (list pystr)) (st : files * gset (list N)) :
  template_no_newline template_channels = true ->
  matched_no_newline channels = true ->
  exists ls : list pystr,
    f_txt (fold_left (write_category cfg channels) template_channels st).1
    = f_txt st.1 ++ unlines ls
    /\ forallb no_newline ls = true
    /\ List.filter is_header_line ls
       = List.map (fun category => category ++ lit_header_mark)
           (od_keys template_channels).
Proof.
  intros Htemplate Hchannels. revert st.
  induction template_channels as [|[category channel_list] template IH];
    intros st; cbn [fold_left].
  - exists []. simpl. by rewrite app_nil_r.
  - simpl in Htemplate.
    apply andb_prop in Htemplate as [[Hc Hnames]%andb_prop Htemplate].
    destruct (write_category_lines cfg channels st category channel_list
                Hnames Hchannels) as (ls1 & Hls1 & Hb1).
    destruct (IH Htemplate
                (write_category cfg channels st (category, channel_list)))
      as (ls2 & Hls2 & Hnl2 & Hh2).
    destruct (filter_body_lines ls1 Hb1) as [Hf1 Hnl1].
    exists (((category ++ lit_header_mark) :: ls1) ++ ls2). split_and!.
    + by rewrite Hls2, Hls1, unlines_app, app_assoc.
    + rewrite forallb_app, Hnl2, andb_true_r. simpl.
      by rewrite no_newline_app, Hc, Hnl1.
    + rewrite List.filter_app. cbn [List.filter].
      by rewrite is_header_line_mark, Hf1, Hh2.
Qed.

(** The header lines of the delimited output are the headers of the
    template categories, in template order. *)
Lemma header_lines_of_writer (cfg : config) (now : datetime)
    (channels : matched_map) (template_channels : odict (list pystr)) :
  template_no_newline template_channels = true ->
  matched_no_newline channels = true ->
  header_lines (f_txt (updateChannelUrlsM3U cfg now channels template_channels))
  = List.map (fun category => category ++ utf8 ",#genre#")
      (od_keys template_channels).
Proof.
  intros Htemplate Hchannels. unfold updateChannelUrlsM3U, header_lines.
  set (st0 := (_, _) : files * gset (list N)).
  destruct (write_categories_lines cfg channels template_channels st0
              Htemplate Hchannels) as (ls & Hls & Hnl & Hh).
  simpl. rewrite Hls. simpl.
  rewrite str_split_unlines by done.
  rewrite List.filter_app, Hh. simpl. apply app_nil_r.
Qed.

(** ** Strings cut from lines contain no newline *)

Lemma forallb_Forall_iff {A : Type} (p : A -> bool) (l : list A) :
  forallb p l = true <-> Forall (fun x => p x = true) l.
Proof.
  induction l as [|x l IH]; simpl; [by split|].
  rewrite andb_true_iff, Forall_cons, IH. done.
Qed.

Lemma od_set_Forall {V : Type} (P : pystr * V -> Prop) (k : pystr) (v : V)
    (d : odict V) :
  Forall P d -> P (k, v) -> Forall P (od_set k v d).
Proof.
  intros Hd Hkv. induction Hd as [|[k' v'] d Hx Hd IH]; simpl.
  - by constructor.
  - case_bool_decide as Hk; [subst|]; by constructor.
Qed.

Lemma od_alter_Forall {V : Type} (P : pystr * V -> Prop) (f : V -> V)
    (k : pystr) (d : odict V) :
  Forall P d -> (forall v, P (k, v) -> P (k, f v)) ->
  Forall P (od_alter f k d).
Proof.
  intros Hd Hf. induction Hd as [|[k' v'] d Hx Hd IH]; simpl.
  - constructor.
  - case_bool_decide as Hk; [subst|]; constructor; auto.
Qed.

Lemma no_newline_elem (s t : pystr) :
  (forall x, x ∈ s -> x ∈ t) -> no_newline t = true -> no_newline s = true.
Proof.
  intros Hsub Ht. apply no_newline_spec. apply no_newline_spec in Ht.
  intros Hin. by apply Ht, Hsub.
Qed.

Lemma no_newline_strip (s : pystr) :
  no_newline s = true -> no_newline (str_strip s) = true.
Proof. apply no_newline_elem. intros x. apply str_strip_elem. Qed.

Lemma str_split_elem (sep : N) (s piece : pystr) (x : N) :
  piece ∈ str_split sep s -> x ∈ piece -> x ∈ s.
Proof.
  revert piece. induction s as [|c s IH]; intros piece; simpl.
  - intros ->%list_elem_of_singleton. done.
  - destruct (c =? sep).
    + intros [->|Hp]%elem_of_cons; [by intros ?%elem_of_nil|].
      intros Hx. right. by apply (IH piece).
    + pose proof (str_split_nonempty sep s) as Hne.
      destruct (str_split sep s) as [|p ps]; [done|].
      intros [->|Hp]%elem_of_cons.
      * intros [->|Hx]%elem_of_cons; [left|].
        right. apply (IH p); [left|done].
      * intros Hx. right. apply (IH piece); [by right|done].
Qed.

Lemma str_split_pieces_no_sep (sep : N) (s : pystr) :
  Forall (fun piece => sep ∉ piece) (str_split sep s).
Proof.
  induction s as [|c s IH]; simpl.
  - constructor; [|constructor]. by intros ?%elem_of_nil.
  - destruct (N.eqb_spec c sep) as [->|Hc].
    + constructor; [|done]. by intros ?%elem_of_nil.
    + destruct (str_split sep s) as [|p ps].
      * constructor; [|constructor]. apply not_elem_of_cons.
        split; [by intros ->|apply not_elem_of_nil].
      * apply Forall_cons in IH as [Hp Hps]. constructor; [|done].
        apply not_elem_of_cons. split; [by intros ->|done].
Qed.

Lemma no_newline_re_dot_star (s : pystr) : no_newline (re_dot_star s) = true.
Proof.
  induction s as [|c s IH]; simpl; [done|].
  destruct (c =? ch_nl) eqn:Hc; simpl; [done|]. by rewrite Hc, IH.
Qed.

Lemma no_newline_re_match_name_rest (s g1 g2 : pystr) :
  re_match_name_rest s = Some (g1, g2) -> no_newline g2 = true.
Proof.
  revert g1. induction s as [|c s IH]; intros g1; simpl; [done|].
  destruct (c =? ch_comma).
  - unfold re_lazy_to_end.
    destruct (drop (length (re_dot_star s)) s) as [|a [|b r]].
    + intros [= <- <-]. apply no_newline_re_dot_star.
    + intros [= <- <-]. apply no_newline_re_dot_star.
    + destruct (c =? ch_nl); [done|].
      destruct (re_match_name_rest s) as [[h1 h2]|]; [|done].
      intros [= <- <-]. by apply (IH h1).
  - destruct (c =? ch_nl); [done|].
    destruct (re_match_name_rest s) as [[h1 h2]|]; [|done].
    intros [= <- <-]. by apply (IH h1).
Qed.

Lemma channels_no_newline_Forall (channels : channel_map) :
  channels_no_newline channels = true
  <-> Forall entry_no_newline channels.
Proof.
  unfold channels_no_newline, entry_no_newline. rewrite forallb_Forall_iff.
  apply Forall_iff. intros [c pairs]. simpl.
  rewrite forallb_Forall_iff. apply Forall_iff. by intros [n u].
Qed.

Lemma fold_left_invariant_in {S L : Type} (P : S -> Prop) (step : S -> L -> S)
    (ls : list L) (s : S) :
  (forall s l, l ∈ ls -> P s -> P (step s l)) -> P s ->
  P (fold_left step ls s).
Proof.
  revert s. induction ls as [|l ls IH]; intros s Hstep Hs; simpl; [done|].
  apply IH.
  - intros s' l' Hl'. apply Hstep. by right.
  - apply Hstep; [left|done].
Qed.

Lemma entry_no_newline_append (k : pystr) (l l' : list (pystr * pystr)) :
  Forall (fun pair : pystr * pystr => no_newline pair.2 = true) l' ->
  entry_no_newline (k, l) -> entry_no_newline (k, l ++ l').
Proof. unfold entry_no_newline. simpl. intros Hl' Hl. by apply Forall_app. Qed.

Lemma txt_step_no_newline (st : txt_state) (line : pystr) :
  Forall entry_no_newline (txt_channels st) ->
  Forall entry_no_newline (txt_channels (txt_step st line)).
Proof.
  intros Hst. unfold txt_step.
  destruct (str_contains lit_genre (str_strip line)); cbn [txt_channels].
  { apply od_set_Forall; [done|]. constructor. }
  destruct (txt_category st) as [c|]; [|done].
  destruct (truthy c); [|done].
  destruct (re_match_name_rest (str_strip line)) as [[g1 g2]|] eqn:Hre;
    cbn [txt_channels].
  - rewrite (fold_left_od_append (fun u => (_, str_strip u))).
    apply od_alter_Forall; [done|]. intros l. apply entry_no_newline_append.
    apply Forall_forall. intros pair Hpair.
    apply list_elem_of_In, in_map_iff in Hpair as (seg & <- & Hseg).
    apply list_elem_of_In in Hseg.
    cbn [snd]. apply no_newline_strip.
    apply (no_newline_elem _ (str_strip g2)).
    + intros x. by apply (str_split_elem ch_hash).
    + apply no_newline_strip. by apply no_newline_re_match_name_rest in Hre.
  - destruct (truthy (str_strip line)); cbn [txt_channels]; [|done].
    apply od_alter_Forall; [done|]. intros l. apply entry_no_newline_append.
    by repeat constructor.
Qed.

Lemma parse_txt_lines_no_newline (lines : list pystr) :
  Forall entry_no_newline (parse_txt_lines lines).
Proof.
  unfold parse_txt_lines, txt_run.
  apply (fold_left_invariant
           (fun st => Forall entry_no_newline (txt_channels st))).
  - apply txt_step_no_newline.
  - constructor.
Qed.

Lemma m3u_step_no_newline (st : m3u_state) (line : pystr) :
  no_newline line = true ->
  Forall entry_no_newline (m3u_channels st) ->
  Forall entry_no_newline (m3u_channels (m3u_step st line)).
Proof.
  intros Hline Hst. unfold m3u_step.
  destruct (str_startswith lit_extinf (str_strip line)).
  { destruct (re_search_group_title (str_strip line)) as [[g1 g2]|]; [|done].
    simpl. destruct (od_mem (str_strip g1) (m3u_channels st)); [done|].
    apply od_set_Forall; [done|]. constructor. }
  destruct (truthy (str_strip line) && _); [|done].
  destruct (m3u_category st) as [c|], (m3u_name st) as [n|]; try done.
  destruct (truthy c && truthy n); simpl; [|done].
  apply od_alter_Forall; [done|]. intros l. apply entry_no_newline_append.
  constructor; [|constructor]. cbn [snd].
  apply no_newline_strip. by apply no_newline_strip.
Qed.

Lemma parse_m3u_lines_no_newline (lines : list pystr) :
  Forall (fun line => no_newline line = true) lines ->
  Forall entry_no_newline (parse_m3u_lines lines).
Proof.
  intros Hlines. unfold parse_m3u_lines, m3u_run.
  apply (fold_left_invariant_in
           (fun st => Forall entry_no_newline (m3u_channels st))).
  - intros st line Hline. apply m3u_step_no_newline.
    rewrite Forall_forall in Hlines. by apply Hlines.
  - constructor.
Qed.

Lemma fetch_channels_no_newline (response : option pystr) :
  Forall entry_no_newline (fetch_channels response).
Proof.
  destruct response as [text|]; simpl; [|constructor].
  destruct (is_m3u (str_split ch_nl text)).
  - rewrite od_update_nil by apply parse_m3u_lines_keys_NoDup.
    apply parse_m3u_lines_no_newline.
    eapply Forall_impl; [apply str_split_pieces_no_sep|].
    intros piece. apply no_newline_spec.
  - rewrite od_update_nil by apply parse_txt_lines_keys_NoDup.
    apply parse_txt_lines_no_newline.
Qed.

Lemma merge_channels_no_newline (target source : channel_map) :
  Forall entry_no_newline target -> Forall entry_no_newline source ->
  Forall entry_no_newline (merge_channels target source).
Proof.
  intros Htarget Hsource. unfold merge_channels.
  apply (fold_left_invariant_in (Forall entry_no_newline)); [|done].
  intros acc [category channel_list] Hin Hacc.
  rewrite Forall_forall in Hsource.
  pose proof (Hsource _ Hin) as Hentry.
  destruct (od_mem category acc).
  - apply od_alter_Forall; [done|]. intros l.
    by apply entry_no_newline_append.
  - by apply od_set_Forall.
Qed.

Lemma od_setdefault_append_no_newline (name url : pystr)
    (inner : odict (list pystr)) :
  no_newline url = true ->
  inner_no_newline (name, inner) ->
  inner_no_newline (name, od_setdefault_append name url inner).
Proof.
  unfold inner_no_newline, od_setdefault_append. cbn [snd].
  intros Hurl Hinner. destruct (od_get name inner).
  - apply od_alter_Forall; [done|]. intros urls Hurls. cbn [snd] in *.
    apply Forall_app. split; [done|]. by repeat constructor.
  - apply od_set_Forall; [done|]. cbn [snd]. by repeat constructor.
Qed.

Lemma match_channels_no_newline (template_channels : odict (list pystr))
    (all_channels : channel_map) :
  Forall entry_no_newline all_channels ->
  Forall inner_no_newline (match_channels template_channels all_channels).
Proof.
  intros Hall. unfold match_channels.
  apply (fold_left_invariant (Forall inner_no_newline)); [|constructor].
  intros matched [category channel_list] Hmatched.
  apply (fold_left_invariant (Forall inner_no_newline)).
  2:{ apply od_set_Forall; [done|]. constructor. }
  intros matched1 channel_name Hmatched1.
  apply (fold_left_invariant_in (Forall inner_no_newline)); [|done].
  intros matched2 [online_category online_channel_list] Hin Hmatched2.
  rewrite Forall_forall in Hall. pose proof (Hall _ Hin) as Hentry.
  unfold entry_no_newline in Hentry. cbn [snd] in Hentry.
  apply (fold_left_invariant_in (Forall inner_no_newline)); [|done].
  intros matched3 [online_channel_name online_channel_url] Hpair Hmatched3.
  case_bool_decide; [|done].
  apply od_alter_Forall; [done|]. intros inner Hinner.
  rewrite Forall_forall in Hentry. pose proof (Hentry _ Hpair) as Hurl.
  unfold inner_no_newline in *. cbn [snd] in *.
  by apply (od_setdefault_append_no_newline channel_name _ inner Hurl).
Qed.

Lemma matched_no_newline_Forall (channels : matched_map) :
  matched_no_newline channels = true <-> Forall inner_no_newline channels.
Proof.
  unfold matched_no_newline, inner_no_newline. rewrite forallb_Forall_iff.
  apply Forall_iff. intros [c inner]. cbn [snd].
  rewrite forallb_Forall_iff. apply Forall_iff. intros [n urls]. cbn [snd].
  apply forallb_Forall_iff.
Qed.

Lemma template_no_newline_Forall (template_channels : odict (list pystr)) :
  template_no_newline template_channels = true
  <-> Forall template_entry_no_newline template_channels.
Proof.
  unfold template_no_newline, template_entry_no_newline.
  rewrite forallb_Forall_iff. apply Forall_iff. intros [c names].
  cbn [fst snd]. by rewrite andb_true_iff, forallb_Forall_iff.
Qed.

Lemma no_newline_template_line_name (line : pystr) :
  no_newline (str_strip line) = true ->
  no_newline (template_line_name line) = true.
Proof.
  intros Hline. unfold template_line_name, pre_comma.
  by apply no_newline_strip, no_newline_take_while.
Qed.

Lemma template_step_no_newline (st : template_state) (line : pystr) :
  no_newline (str_strip line) = true ->
  Forall template_entry_no_newline (template_channels st) ->
  Forall template_entry_no_newline (template_channels (template_step st line)).
Proof.
  intros Hline Hst.
  destruct (template_line_ignored line) eqn:Hig.
  { by rewrite template_step_ignored. }
  destruct (template_line_category line) eqn:Hcat.
  { rewrite template_step_category by done. cbn [template_channels].
    apply od_set_Forall; [done|]. split; [|constructor].
    by apply no_newline_template_line_name. }
  destruct (template_category st) as [c|] eqn:Hc.
  - destruct (truthy c) eqn:Hct.
    + rewrite (template_step_channel st line c) by done.
      cbn [template_channels].
      apply od_alter_Forall; [done|]. intros names [Hk Hnames].
      split; [done|]. cbn [snd] in *. apply Forall_app. split; [done|].
      constructor; [|constructor]. by apply no_newline_template_line_name.
    + unfold template_step, template_line_category in *.
      rewrite Hig in Hcat. cbn [negb andb] in Hcat.
      unfold template_line_ignored in Hig.
      apply orb_false_elim in Hig as [Hne Hhash].
      apply negb_false_iff in Hne.
      by rewrite Hne, Hhash, Hcat, Hc, Hct.
  - unfold template_step, template_line_category in *.
    rewrite Hig in Hcat. cbn [negb andb] in Hcat.
    unfold template_line_ignored in Hig.
    apply orb_false_elim in Hig as [Hne Hhash].
    apply negb_false_iff in Hne.
    by rewrite Hne, Hhash, Hcat, Hc.
Qed.

Lemma str_lstrip_snoc_space (s : pystr) (c : N) :
  isspace c = true ->
  str_lstrip (s ++ [c])
  = match str_lstrip s with [] => [] | _ :: _ => str_lstrip s ++ [c] end.
Proof.
  intros Hc. induction s as [|a s IH]; simpl; [by rewrite Hc|].
  destruct (isspace a); [done|]. done.
Qed.

Lemma str_strip_snoc_space (s : pystr) (c : N) :
  isspace c = true -> str_strip (s ++ [c]) = str_strip s.
Proof.
  intros Hc. unfold str_strip, str_rstrip.
  rewrite str_lstrip_snoc_space by done.
  destruct (str_lstrip s) as [|a t] eqn:Ht; [done|].
  rewrite rev_app_distr. simpl rev at 2. simpl app. simpl str_lstrip.
  by rewrite Hc.
Qed.

Lemma file_lines_shape (s : pystr) :
  Forall (fun l => exists body,
              no_newline body = true /\ (l = body \/ l = body ++ [ch_nl]))
    (file_lines s).
Proof.
  induction s as [|c s IH]; simpl; [constructor|].
  destruct (c =? ch_nl) eqn:Hc.
  - apply N.eqb_eq in Hc as ->. constructor; [|done].
    exists []. split; [done|]. by right.
  - destruct (file_lines s) as [|l ls].
    + constructor; [|constructor]. exists [c]. split; [|by left].
      simpl. by rewrite Hc.
    + apply Forall_cons in IH as [(body & Hbody & Hl) Hls].
      constructor; [|done]. exists (c :: body). split.
      * simpl. by rewrite Hc.
      * destruct Hl as [->| ->]; [by left|by right].
Qed.

Lemma file_lines_strip_no_newline (s : pystr) :
  Forall (fun l => no_newline (str_strip l) = true) (file_lines s).
Proof.
  eapply Forall_impl; [apply file_lines_shape|].
  intros l (body & Hbody & [->| ->]).
  - by apply no_newline_strip.
  - rewrite str_strip_snoc_space by done. by apply no_newline_strip.
Qed.

Lemma parse_template_no_newline (content : pystr) :
  template_no_newline (parse_template content) = true.
Proof.
  apply template_no_newline_Forall.
  unfold parse_template, parse_template_lines, template_run.
  apply (fold_left_invariant_in
           (fun st => Forall template_entry_no_newline (template_channels st)));
    [|constructor].
  intros st line Hline. apply template_step_no_newline.
  pose proof (file_lines_strip_no_newline (universal_newlines content)) as Hall.
  rewrite Forall_forall in Hall. by apply Hall.
Qed.

Lemma parse_template_keys_NoDup (content : pystr) :
  NoDup (od_keys (parse_template content)).
Proof.
  unfold parse_template, parse_template_lines, template_run.
  apply (fold_left_invariant
           (fun st => NoDup (od_keys (template_channels st))));
    [|apply NoDup_nil_2].
  intros st line Hst. unfold template_step.
  destruct (truthy (str_strip line) && _); [|done].
  destruct (str_contains lit_genre (str_strip line)); cbn [template_channels].
  { by apply od_keys_set_NoDup. }
  destruct (template_category st) as [c|]; [|done].
  destruct (truthy c); [|done]. cbn [template_channels].
  by rewrite od_keys_alter.
Qed.

(** The matched channels and the template of every run are free of
    newlines. *)
Lemma filter_source_urls_no_newline (cfg : config)
    (fetch : pystr -> option pystr) (template_content : pystr) :
  matched_no_newline (filter_source_urls cfg fetch template_content).1 = true
  /\ template_no_newline (filter_source_urls cfg fetch template_content).2
     = true.
Proof.
  unfold filter_source_urls. cbn [fst snd]. split.
  - apply matched_no_newline_Forall, match_channels_no_newline.
    apply (fold_left_invariant (Forall entry_no_newline)); [|constructor].
    intros all url Hall. apply merge_channels_no_newline; [done|].
    apply fetch_channels_no_newline.
  - apply parse_template_no_newline.
Qed.

(** C8. When no category, channel name or candidate url contains a
    newline, the header lines of the delimited output file are exactly the
    headers of the template categories, one for each, in template order:
    they do not depend on the matched channels, and a category without
    matched channels has its header too. The condition holds in every run
    of the program, whose template categories are moreover distinct. *)
Theorem category_headers_follow_template :
  (forall (cfg : config) (now : datetime) (channels : matched_map)
          (template_channels : odict (list pystr)),
      template_no_newline template_channels = true ->
      matched_no_newline channels = true ->
      header_lines
        (f_txt (updateChannelUrlsM3U cfg now channels template_channels))
      = List.map (fun category => category ++ utf8 ",#genre#")
          (od_keys template_channels))
  /\ (forall (cfg : config) (fetch : pystr -> option pystr) (now : datetime)
             (template_content : pystr),
        header_lines (f_txt (main cfg fetch now template_content))
        = List.map (fun category => category ++ utf8 ",#genre#")
            (od_keys (parse_template template_content))
        /\ NoDup (od_keys (parse_template template_content))).
Proof.
  split.
  - apply header_lines_of_writer.
  - intros cfg fetch now template_content.
    split; [|apply parse_template_keys_NoDup].
    pose proof (filter_source_urls_no_newline cfg fetch template_content)
      as [Hmatched Htemplate].
    unfold main.
    destruct (filter_source_urls cfg fetch template_content)
      as [channels template_channels] eqn:Hrun.
    assert (Htpl : template_channels = parse_template template_content).
    { unfold filter_source_urls in Hrun. by injection Hrun as _ <-. }
    cbn [fst snd] in *. rewrite <- Htpl.
    by apply header_lines_of_writer.
Qed.

Lemma category_headers_follow_template_witness :
  let cfg := sample_config (utf8 "ipv4") in
  let matched := filter_source_urls cfg sample_fetch sample_template in
  header_lines
    (f_txt (updateChannelUrlsM3U cfg (sample_now 9) matched.1 matched.2))
  = [utf8 "News,#genre#"; utf8 "Empty,#genre#"]
  /\ od_get (utf8 "Empty") matched.1 = Some [].
Proof.
  intros cfg matched. split; [|reflexivity].
  exact (proj1 category_headers_follow_template cfg (sample_now 9)
           matched.1 matched.2 eq_refl eq_refl).
Defined.

(** * Further properties of the code *)

(** ** Lines read before any category is open *)

Lemma template_step_init (line : pystr) :
  template_line_category line = false ->
  template_step template_init line = template_init.
Proof.
  intros Hcat.
  destruct (template_line_ignored line) eqn:Hig.
  { by apply template_step_ignored. }
  unfold template_step, template_line_category in *.
  rewrite Hig in Hcat. cbn [negb andb] in Hcat.
  unfold template_line_ignored in Hig.
  apply orb_false_elim in Hig as [Hne Hhash].
  apply negb_false_iff in Hne. by rewrite Hne, Hhash, Hcat.
Qed.

Lemma txt_step_init (line : pystr) :
  is_genre_line line = false -> txt_step txt_init line = txt_init.
Proof. unfold is_genre_line, txt_step. by intros ->. Qed.

Lemma m3u_step_init (line : pystr) :
  is_metadata_line line = false -> m3u_step m3u_init line = m3u_init.
Proof.
  unfold is_metadata_line, m3u_step. intros Hmeta.
  destruct (str_startswith lit_extinf (str_strip line)).
  - by destruct (re_search_group_title (str_strip line)) as [[g1 g2]|].
  - by destruct (truthy (str_strip line) && _).
Qed.

Lemma fold_left_fixed {S L : Type} (step : S -> L -> S) (p : L -> bool)
    (s : S) (ls : list L) :
  (forall l, p l = false -> step s l = s) ->
  forallb (fun l => negb (p l)) ls = true ->
  fold_left step ls s = s.
Proof.
  intros Hstep. induction ls as [|l ls IH]; simpl; [done|].
  intros [Hl Hls]%andb_prop. apply negb_true_iff in Hl.
  rewrite Hstep by done. by apply IH.
Qed.

(** X1. Whatever comes before the first category is lost: in the template
    and in a delimited source, the lines before the first category line
    contribute nothing, and in an extended source neither do the lines
    before the first metadata line on which the pattern matches. *)
Theorem lines_before_first_category_are_dropped :
  (forall pre rest : list pystr,
      forallb (fun l => negb (template_line_category l)) pre = true ->
      parse_template_lines (pre ++ rest) = parse_template_lines rest)
  /\ (forall pre rest : list pystr,
        forallb (fun l => negb (is_genre_line l)) pre = true ->
        parse_txt_lines (pre ++ rest) = parse_txt_lines rest)
  /\ (forall pre rest : list pystr,
        forallb (fun l => negb (is_metadata_line l)) pre = true ->
        parse_m3u_lines (pre ++ rest) = parse_m3u_lines rest).
Proof.
  split_and!; intros pre rest Hpre.
  - unfold parse_template_lines, template_run. rewrite fold_left_app.
    by rewrite (fold_left_fixed template_step template_line_category template_init pre)
      by (done || apply template_step_init).
  - unfold parse_txt_lines, txt_run. rewrite fold_left_app.
    by rewrite (fold_left_fixed txt_step is_genre_line txt_init pre)
      by (done || apply txt_step_init).
  - unfold parse_m3u_lines, m3u_run. rewrite fold_left_app.
    by rewrite (fold_left_fixed m3u_step is_metadata_line m3u_init pre)
      by (done || apply m3u_step_init).
Qed.

Lemma lines_before_first_category_are_dropped_witness :
  parse_template_lines ([utf8 "CCTV1"; utf8 "#x,#genre#"]
                        ++ [utf8 "News,#genre#"; utf8 "A"])
  = [(utf8 "News", [utf8 "A"])]
  /\ parse_txt_lines ([utf8 "A,http://a/1"; utf8 "B"]
                      ++ [utf8 "News,#genre#"; utf8 "C,http://c/1"])
     = [(utf8 "News", [(utf8 "C", utf8 "http://c/1")])]
  /\ parse_m3u_lines ([utf8 "http://lost/1"; utf8 "#EXTINF:-1,NoGroup";
                       utf8 "http://lost/2"]
                      ++ [sample_extinf_line; utf8 "http://x/1"])
     = [(utf8 "News", [(utf8 "CCTV1", utf8 "http://x/1")])].
Proof.
  destruct lines_before_first_category_are_dropped as (Ht & Hx & Hm).
  split_and!.
  - exact (Ht [utf8 "CCTV1"; utf8 "#x,#genre#"]
             [utf8 "News,#genre#"; utf8 "A"] eq_refl).
  - exact (Hx [utf8 "A,http://a/1"; utf8 "B"]
             [utf8 "News,#genre#"; utf8 "C,http://c/1"] eq_refl).
  - exact (Hm [utf8 "http://lost/1"; utf8 "#EXTINF:-1,NoGroup";
               utf8 "http://lost/2"]
             [sample_extinf_line; utf8 "http://x/1"] eq_refl).
Defined.

(** ** What the source parsers record *)

(** An invariant of the entries of [parse_txt_lines]: a property that
    holds of a category without pairs and is kept when a line appends its
    pairs under a category that is not empty. *)
Lemma txt_entries_invariant
    (E : pystr * list (pystr * pystr) -> Prop) (lines : list pystr) :
  (forall c, E (c, [])) ->
  (forall c l name g2,
      truthy c = true -> E (c, l) ->
      E (c, l ++ List.map (fun seg => (name, str_strip seg))
                   (str_split ch_hash g2))) ->
  (forall c l name,
      truthy c = true -> E (c, l) -> E (c, l ++ [(name, [])])) ->
  Forall E (parse_txt_lines lines).
Proof.
  intros Hnew Hsegs Hbare. unfold parse_txt_lines, txt_run.
  apply (fold_left_invariant (fun st => Forall E (txt_channels st)));
    [|constructor].
  intros st line Hst. unfold txt_step.
  destruct (str_contains lit_genre (str_strip line)); cbn [txt_channels].
  { by apply od_set_Forall. }
  destruct (txt_category st) as [c|]; [|done].
  destruct (truthy c) eqn:Hc; [|done].
  destruct (re_match_name_rest (str_strip line)) as [[g1 g2]|];
    cbn [txt_channels].
  - rewrite (fold_left_od_append (fun u => (_, str_strip u))).
    apply od_alter_Forall; [done|]. intros l. by apply Hsegs.
  - destruct (truthy (str_strip line)); cbn [txt_channels]; [|done].
    apply od_alter_Forall; [done|]. intros l. by apply Hbare.
Qed.

(** The same for [parse_m3u_lines]: a url line appends one pair, of a name
    that is not empty and a trimmed line, under a category that is not
    empty. *)
Lemma m3u_entries_invariant
    (E : pystr * list (pystr * pystr) -> Prop) (lines : list pystr) :
  (forall c, E (c, [])) ->
  (forall c l name line,
      truthy c = true -> truthy name = true -> E (c, l) ->
      E (c, l ++ [(name, str_strip line)])) ->
  Forall E (parse_m3u_lines lines).
Proof.
  intros Hnew Hurl. unfold parse_m3u_lines, m3u_run.
  apply (fold_left_invariant (fun st => Forall E (m3u_channels st)));
    [|constructor].
  intros st line Hst. unfold m3u_step.
  destruct (str_startswith lit_extinf (str_strip line)).
  { destruct (re_search_group_title (str_strip line)) as [[g1 g2]|]; [|done].
    cbn [m3u_channels].
    destruct (od_mem (str_strip g1) (m3u_channels st)); [done|].
    by apply od_set_Forall. }
  destruct (truthy (str_strip line) && _); [|done].
  destruct (m3u_category st) as [c|], (m3u_name st) as [n|]; try done.
  destruct (truthy c && truthy n) eqn:Hcn; cbn [m3u_channels]; [|done].
  apply andb_prop in Hcn as [Hc Hn].
  apply od_alter_Forall; [done|]. intros l. by apply Hurl.
Qed.

Lemma truthy_nonempty (s : pystr) : truthy s = true -> s <> [].
Proof. by destruct s. Qed.

(** X2. Pairs are recorded only under a category that is not empty: in
    the result of either source parser the category named by the empty
    string, if present, has no pair; and in the result of the
    extended-format parser no pair has an empty name. *)
Theorem pairs_need_a_named_category :
  (forall (lines : list pystr) (c : pystr) (pairs : list (pystr * pystr)),
      (c, pairs) ∈ parse_txt_lines lines -> pairs <> [] -> c <> [])
  /\ (forall (lines : list pystr) (c : pystr) (pairs : list (pystr * pystr)),
        (c, pairs) ∈ parse_m3u_lines lines ->
        (pairs <> [] -> c <> [])
        /\ (forall name url, (name, url) ∈ pairs -> name <> [])).
Proof.
  split.
  - intros lines c pairs Hin.
    assert (Hinv : Forall (fun entry : pystr * list (pystr * pystr) =>
                             entry.2 <> [] -> entry.1 <> [])
                     (parse_txt_lines lines)).
    { apply txt_entries_invariant; cbn [fst snd].
      - done.
      - intros c' l name g2 Hc' _ _. by apply truthy_nonempty.
      - intros c' l name Hc' _ _. by apply truthy_nonempty. }
    rewrite Forall_forall in Hinv. exact (Hinv _ Hin).
  - intros lines c pairs Hin.
    assert (Hinv : Forall (fun entry : pystr * list (pystr * pystr) =>
                             (entry.2 <> [] -> entry.1 <> [])
                             /\ Forall (fun pair : pystr * pystr =>
                                          pair.1 <> []) entry.2)
                     (parse_m3u_lines lines)).
    { apply m3u_entries_invariant; cbn [fst snd].
      - intros c'. split; [done|constructor].
      - intros c' l name line Hc' Hname [_ Hl]. split.
        + intros _. by apply truthy_nonempty.
        + apply Forall_app. split; [done|].
          constructor; [|constructor]. by apply truthy_nonempty. }
    rewrite Forall_forall in Hinv.
    destruct (Hinv _ Hin) as [Hc Hnames]. cbn [fst snd] in *.
    split; [done|]. intros name url Hpair.
    rewrite Forall_forall in Hnames. exact (Hnames _ Hpair).
Qed.

Lemma pairs_need_a_named_category_witness :
  utf8 "News" <> []
  /\ forall name url,
       (name, url) ∈ [(utf8 "CCTV1", utf8 "http://x/1")] -> name <> [].
Proof.
  destruct pairs_need_a_named_category as [_ Hm3u].
  destruct (Hm3u [sample_extinf_line; utf8 "http://x/1"] (utf8 "News")
              [(utf8 "CCTV1", utf8 "http://x/1")]) as [Hc Hn].
  - vm_compute. left.
  - split; [by apply Hc|exact Hn].
Defined.

(** X3. Every url recorded by [fetch_channels] is trimmed (stripping it
    again changes nothing) and free of newlines; a url recorded by the
    delimited-format parser contains no hash either, since the hash
    separates the urls of a line. *)
Theorem recorded_urls_are_trimmed :
  (forall (response : option pystr) (c : pystr)
          (pairs : list (pystr * pystr)) (name url : pystr),
      (c, pairs) ∈ fetch_channels response -> (name, url) ∈ pairs ->
      str_strip url = url /\ ch_nl ∉ url)
  /\ (forall (lines : list pystr) (c : pystr)
             (pairs : list (pystr * pystr)) (name url : pystr),
        (c, pairs) ∈ parse_txt_lines lines -> (name, url) ∈ pairs ->
        ch_hash ∉ url).
Proof.
  split.
  - intros response c pairs name url Hentry Hpair. split.
    + assert (Hinv : Forall (fun entry : pystr * list (pystr * pystr) =>
                               Forall (fun pair : pystr * pystr =>
                                         str_strip pair.2 = pair.2) entry.2)
                       (fetch_channels response)).
      { destruct response as [text|]; cbn [fetch_channels]; [|constructor].
        destruct (is_m3u (str_split ch_nl text)).
        - rewrite od_update_nil by apply parse_m3u_lines_keys_NoDup.
          apply m3u_entries_invariant; cbn [snd].
          + constructor.
          + intros c' l n line _ _ Hl. apply Forall_app; split; [done|].
            constructor; [|constructor]. apply str_strip_idemp.
        - rewrite od_update_nil by apply parse_txt_lines_keys_NoDup.
          apply txt_entries_invariant; cbn [snd].
          + constructor.
          + intros c' l n g2 _ Hl. apply Forall_app; split; [done|].
            apply Forall_forall. intros pair Hp.
            apply list_elem_of_In, in_map_iff in Hp as (seg & <- & _).
            apply str_strip_idemp.
          + intros c' l n _ Hl. apply Forall_app; split; [done|]. by repeat constructor. }
      rewrite Forall_forall in Hinv. pose proof (Hinv _ Hentry) as Hpairs.
      cbn [snd] in Hpairs. rewrite Forall_forall in Hpairs.
      by apply (Hpairs _ Hpair).
    + pose proof (fetch_channels_no_newline response) as Hinv.
      rewrite Forall_forall in Hinv. pose proof (Hinv _ Hentry) as Hpairs.
      unfold entry_no_newline in Hpairs. cbn [snd] in Hpairs.
      rewrite Forall_forall in Hpairs.
      by apply no_newline_spec, (Hpairs _ Hpair).
  - intros lines c pairs name url Hentry Hpair.
    assert (Hinv : Forall (fun entry : pystr * list (pystr * pystr) =>
                             Forall (fun pair : pystr * pystr =>
                                       ch_hash ∉ pair.2) entry.2)
                     (parse_txt_lines lines)).
    { apply txt_entries_invariant; cbn [snd].
      - constructor.
      - intros c' l n g2 _ Hl. apply Forall_app; split; [done|].
        apply Forall_forall. intros pair Hp.
        apply list_elem_of_In, in_map_iff in Hp as (seg & <- & Hseg).
        cbn [snd]. intros Hin%str_strip_elem.
        pose proof (str_split_pieces_no_sep ch_hash g2) as Hpieces.
        rewrite Forall_forall in Hpieces.
        by apply (Hpieces seg); [apply list_elem_of_In|].
      - intros c' l n _ Hl. apply Forall_app; split; [done|].
        constructor; [|constructor]. cbn [snd]. apply not_elem_of_nil. }
    rewrite Forall_forall in Hinv. pose proof (Hinv _ Hentry) as Hpairs.
    cbn [snd] in Hpairs. rewrite Forall_forall in Hpairs.
    by apply (Hpairs _ Hpair).
Qed.

Lemma recorded_urls_are_trimmed_witness :
  str_strip (utf8 "http://o/1") = utf8 "http://o/1"
  /\ ch_nl ∉ utf8 "http://o/1".
Proof.
  destruct recorded_urls_are_trimmed as [Hfetch _].
  apply (Hfetch (Some sample_txt_source) (utf8 "Misc")
           [(utf8 "Other", utf8 "http://o/1"); (utf8 "Other", utf8 "http://o/2");
            (utf8 "CCTV1", utf8 "http://b/c$old")] (utf8 "Other")).
  - vm_compute. left.
  - left.
Defined.

(** ** The ranker across calls *)

Lemma survives_kept (cfg : config) (urls : list pystr)
    (written_urls : gset (list N)) (url : pystr) :
  url ∈ urls -> survives cfg written_urls url = true ->
  url ∈ (sort_and_filter_urls cfg urls written_urls).1.
Proof.
  intros Hin Hs.
  rewrite sort_and_filter_urls_fst, py_sorted_partition.
  rewrite list_elem_of_In, filter_In, in_app_iff, !filter_In.
  apply list_elem_of_In in Hin. split; [|done].
  destruct (family_key cfg url); [right|left]; by split.
Qed.

Lemma filter_nil_iff {A : Type} (p : A -> bool) (l : list A) :
  (forall x, x ∈ l -> p x = false) -> List.filter p l = [].
Proof.
  induction l as [|x l IH]; intros Hall; simpl; [done|].
  rewrite (Hall x) by left. apply IH. intros y Hy. apply Hall. by right.
Qed.

Lemma processed_urls_are_not_kept (cfg : config)
    (urls later_urls : list pystr)
    (written_urls later_written : gset (list N)) (url : pystr) :
  (sort_and_filter_urls cfg urls written_urls).2 ⊆ later_written ->
  url ∈ urls ->
  url ∉ (sort_and_filter_urls cfg later_urls later_written).1.
Proof.
  intros Hsub Hin Hkept.
  apply sort_and_filter_urls_sound in Hkept as (Hne & Hfresh & Hbl & _).
  apply Hfresh, Hsub.
  destruct (decide (url ∈ written_urls)) as [Hw|Hw].
  { by apply sort_and_filter_urls_threaded. }
  apply sort_and_filter_urls_sound with (urls := urls).
  apply survives_kept; [done|]. unfold survives.
  rewrite bool_decide_false by done.
  assert (existsb (fun blacklist => str_contains blacklist url)
            (url_blacklist cfg) = false) as ->.
  { destruct (existsb _ _) eqn:Hex; [|done].
    apply existsb_exists in Hex as (b & Hb & Hc).
    by rewrite (Hbl b) in Hc by by apply list_elem_of_In. }
  by destruct url.
Qed.

(** X4. Every url the ranker keeps is not empty, was not in the set of
    written urls, contains no blacklisted text, is one of the candidates,
    and is in the set the ranker returns. *)
Theorem ranker_keeps_only_fresh_allowed_candidates (cfg : config)
    (urls : list pystr) (written_urls : gset (list N)) (url : pystr) :
  url ∈ (sort_and_filter_urls cfg urls written_urls).1 ->
  url <> [] /\ url ∈ urls /\ (url ∉ written_urls)
  /\ (forall blacklist, blacklist ∈ url_blacklist cfg ->
        str_contains blacklist url = false)
  /\ url ∈ (sort_and_filter_urls cfg urls written_urls).2.
Proof.
  intros Hkept.
  pose proof (sort_and_filter_urls_subset _ _ _ _ Hkept) as Hin.
  apply sort_and_filter_urls_sound in Hkept as (? & ? & ? & ?). done.
Qed.

Lemma ranker_keeps_only_fresh_allowed_candidates_witness :
  utf8 "http://b/c" <> []
  /\ utf8 "http://b/c" ∈ [[]; utf8 "http://bad.example/1"; utf8 "http://b/c"]
  /\ (utf8 "http://b/c" ∉ ({[ utf8 "http://old/1" ]} : gset (list N)))
  /\ (forall blacklist,
        blacklist ∈ url_blacklist (sample_config (utf8 "ipv4")) ->
        str_contains blacklist (utf8 "http://b/c") = false)
  /\ utf8 "http://b/c"
     ∈ (sort_and_filter_urls (sample_config (utf8 "ipv4"))
          [[]; utf8 "http://bad.example/1"; utf8 "http://b/c"]
          {[ utf8 "http://old/1" ]}).2.
Proof.
  apply (ranker_keeps_only_fresh_allowed_candidates
           (sample_config (utf8 "ipv4"))
           [[]; utf8 "http://bad.example/1"; utf8 "http://b/c"]
           {[ utf8 "http://old/1" ]} (utf8 "http://b/c")).
  vm_compute. left.
Defined.

(** X5. Once the ranker has processed a list of candidates, none of them
    is kept by any later call whose set contains the set that call
    returned, whatever the later candidates are: a url offered for one
    channel is never written for a later one. *)
Theorem processed_candidates_are_never_kept_again (cfg : config)
    (urls later_urls : list pystr)
    (written_urls later_written : gset (list N)) :
  (sort_and_filter_urls cfg urls written_urls).2 ⊆ later_written ->
  forall url, url ∈ urls ->
    url ∉ (sort_and_filter_urls cfg later_urls later_written).1.
Proof.
  intros Hsub url Hin.
  by apply (processed_urls_are_not_kept cfg urls later_urls written_urls).
Qed.

Lemma processed_candidates_are_never_kept_again_witness :
  utf8 "http://a/2"
  ∉ (sort_and_filter_urls (sample_config (utf8 "ipv4"))
       [utf8 "http://a/2"; utf8 "http://a/3"]
       (sort_and_filter_urls (sample_config (utf8 "ipv4"))
          [utf8 "http://a/1"; utf8 "http://a/2"] ∅).2).1.
Proof.
  apply (processed_candidates_are_never_kept_again
           (sample_config (utf8 "ipv4"))
           [utf8 "http://a/1"; utf8 "http://a/2"]
           [utf8 "http://a/2"; utf8 "http://a/3"] ∅
           (sort_and_filter_urls (sample_config (utf8 "ipv4"))
              [utf8 "http://a/1"; utf8 "http://a/2"] ∅).2).
  - reflexivity.
  - right. left.
Defined.



(** X7. An empty string in the blacklist blocks every url, since the
    empty string occurs in every string: the ranker then keeps nothing. *)
Theorem empty_blacklist_entry_blocks_everything (cfg : config)
    (urls : list pystr) (written_urls : gset (list N)) :
  [] ∈ url_blacklist cfg ->
  (sort_and_filter_urls cfg urls written_urls).1 = [].
Proof.
  intros Hempty. rewrite sort_and_filter_urls_fst.
  apply filter_nil_iff. intros url _. unfold survives.
  assert (existsb (fun blacklist => str_contains blacklist url)
            (url_blacklist cfg) = true) as ->.
  { apply existsb_exists. exists []. split; [by apply list_elem_of_In|].
    by destruct url. }
  by rewrite andb_false_r.
Qed.

Lemma empty_blacklist_entry_blocks_everything_witness :
  (sort_and_filter_urls
     {| source_urls := []; epg_urls := [];
        url_blacklist := [utf8 "bad.example"; []];
        ip_version_priority := utf8 "ipv4" |}
     [utf8 "http://a/1"; utf8 "http://[::1]/b"] ∅).1 = [].
Proof.
  apply empty_blacklist_entry_blocks_everything. right. left.
Defined.

(** ** The suffix and the address family *)

Lemma take_while_split (c : N) (s : pystr) :
  s = take_while (fun x => negb (x =? c)) s
  \/ exists r, s = take_while (fun x => negb (x =? c)) s ++ c :: r.
Proof.
  induction s as [|a s IH]; simpl; [by left|].
  destruct (N.eqb_spec a c) as [->|Hac]; simpl.
  - right. by exists s.
  - destruct IH as [IH|[r IH]].
    + left. by f_equal.
    + right. exists r. by f_equal.
Qed.

Lemma take_while_cut (q : N -> bool) (b : pystr) (c : N) (r : pystr) :
  q c = false -> take_while q (b ++ c :: r) = take_while q b.
Proof.
  intros Hc. induction b as [|a b IH]; simpl; [by rewrite Hc|].
  destruct (q a); [by rewrite IH|done].
Qed.

Lemma take_while_idemp (q : N -> bool) (s : pystr) :
  take_while q (take_while q s) = take_while q s.
Proof.
  induction s as [|a s IH]; simpl; [done|].
  destruct (q a) eqn:Ha; simpl; [|done]. by rewrite Ha, IH.
Qed.

Lemma take_while_length (q : N -> bool) (s : pystr) :
  (length (take_while q s) <= length s)%nat.
Proof.
  induction s as [|a s IH]; simpl; [done|]. destruct (q a); simpl; lia.
Qed.

Lemma str_startswith_cut (p b : pystr) (c : N) (r : pystr) :
  c ∉ p -> str_startswith p (b ++ c :: r) = str_startswith p b.
Proof.
  revert b. induction p as [|a p IH]; intros b Hc; [by destruct b|].
  apply not_elem_of_cons in Hc as [Hca Hc].
  destruct b as [|x b]; simpl.
  - by rewrite (proj2 (N.eqb_neq a c)) by done.
  - by rewrite IH.
Qed.

(** The family test looks no further than the first dollar. *)
Lemma is_ipv6_cut (b r : pystr) :
  is_ipv6 (b ++ ch_dollar :: r) = is_ipv6 b.
Proof.
  unfold is_ipv6.
  rewrite str_startswith_cut by (apply not_elem_of_computed; reflexivity).
  destruct (str_startswith lit_http_bracket b) eqn:Hstart; [|done].
  apply str_startswith_inv in Hstart.
  revert Hstart. generalize (drop (length lit_http_bracket) b).
  intros b2 ->. cbv zeta.
  rewrite <- app_assoc, !drop_app_length.
  rewrite take_while_cut by done.
  rewrite drop_app_le by apply take_while_length.
  by rewrite str_startswith_cut by (apply not_elem_of_computed; reflexivity).
Qed.

Lemma is_ipv6_base (url : pystr) :
  is_ipv6 (take_while (fun c => negb (c =? ch_dollar)) url) = is_ipv6 url.
Proof.
  destruct (take_while_split ch_dollar url) as [Hurl|[r Hurl]].
  - by rewrite <- Hurl.
  - rewrite Hurl at 2. by rewrite is_ipv6_cut.
Qed.

Lemma add_url_suffix_dollar (url : pystr) (index total_urls : N) :
  exists r,
    add_url_suffix url index total_urls
    = take_while (fun c => negb (c =? ch_dollar)) url ++ ch_dollar :: r.
Proof.
  rewrite add_url_suffix_shape.
  destruct (is_ipv6 url).
  - change lit_lr_ipv6 with (ch_dollar :: tl lit_lr_ipv6). by eexists.
  - change lit_lr_ipv4 with (ch_dollar :: tl lit_lr_ipv4). by eexists.
Qed.

(** X8. The tag agrees with the written url: the family test gives the
    same answer on the url with its suffix as on the candidate, and
    tagging a url that already carries a suffix replaces that suffix, so
    tagging twice is tagging once. *)
Theorem suffix_keeps_family_and_replaces_suffix
    (url : pystr) (index total_urls index' total_urls' : N) :
  is_ipv6 (add_url_suffix url index total_urls) = is_ipv6 url
  /\ add_url_suffix (add_url_suffix url index total_urls) index' total_urls'
     = add_url_suffix url index' total_urls'.
Proof.
  destruct (add_url_suffix_dollar url index total_urls) as [r Hr].
  assert (Hfamily : is_ipv6 (add_url_suffix url index total_urls)
                    = is_ipv6 url).
  { by rewrite Hr, is_ipv6_cut, is_ipv6_base. }
  split; [done|].
  rewrite (add_url_suffix_shape (add_url_suffix _ _ _)), Hfamily.
  rewrite Hr, take_while_cut by (by rewrite N.eqb_refl).
  by rewrite take_while_idemp, <- add_url_suffix_shape.
Qed.

(** ** Merging the sources *)

Lemma od_get_set {V : Type} (k c : pystr) (v : V) (d : odict V) :
  od_get c (od_set k v d) = if bool_decide (c = k) then Some v else od_get c d.
Proof.
  induction d as [|[k' v'] d IH]; simpl.
  - by case_bool_decide.
  - destruct (bool_decide (k = k')) eqn:Hk; simpl.
    + apply bool_decide_eq_true in Hk as <-. by case_bool_decide.
    + rewrite IH. apply bool_decide_eq_false in Hk.
      destruct (bool_decide (c = k')) eqn:Hc; [|done].
      apply bool_decide_eq_true in Hc as ->.
      by rewrite bool_decide_false by done.
Qed.

Lemma od_get_alter {V : Type} (f : V -> V) (k c : pystr) (d : odict V) :
  od_get c (od_alter f k d)
  = if bool_decide (c = k) then f <$> od_get c d else od_get c d.
Proof.
  induction d as [|[k' v'] d IH]; simpl.
  - by case_bool_decide.
  - destruct (bool_decide (k = k')) eqn:Hk; simpl.
    + apply bool_decide_eq_true in Hk as <-. by case_bool_decide.
    + rewrite IH. apply bool_decide_eq_false in Hk.
      destruct (bool_decide (c = k')) eqn:Hc; [|done].
      apply bool_decide_eq_true in Hc as ->.
      by rewrite bool_decide_false by done.
Qed.

Lemma od_get_None {V : Type} (c : pystr) (d : odict V) :
  od_get c d = None <-> c ∉ od_keys d.
Proof.
  rewrite <- od_mem_false_keys. unfold od_mem. by destruct (od_get c d).
Qed.

Lemma od_mem_get {V : Type} (c : pystr) (d : odict V) :
  od_mem c d = match od_get c d with Some _ => true | None => false end.
Proof. done. Qed.

Lemma merge_channels_cons (target : channel_map) (k : pystr)
    (v : list (pystr * pystr)) (source : channel_map) :
  merge_channels target ((k, v) :: source)
  = merge_channels
      (if od_mem k target then od_alter (fun l => l ++ v) k target
       else od_set k v target)
      source.
Proof. done. Qed.

Lemma merge_channels_get (source target : channel_map) (c : pystr) :
  NoDup (od_keys source) ->
  od_get c (merge_channels target source)
  = match od_get c target, od_get c source with
    | Some a, Some b => Some (a ++ b)
    | Some a, None => Some a
    | None, found => found
    end.
Proof.
  revert target. induction source as [|[k v] source IH]; intros target Hnd.
  - cbn. by destruct (od_get c target).
  - cbn [od_keys List.map fst] in Hnd. apply NoDup_cons in Hnd as [Hk Hnd].
    rewrite merge_channels_cons, IH by done. cbn [od_get].
    destruct (bool_decide (c = k)) eqn:Hc.
    + apply bool_decide_eq_true in Hc as ->.
      rewrite (proj2 (od_get_None k source)) by done.
      rewrite od_mem_get.
      destruct (od_get k target) as [a|] eqn:Ha.
      * by rewrite od_get_alter, bool_decide_true, Ha.
      * by rewrite od_get_set, bool_decide_true.
    + assert (Hsame : od_get c (if od_mem k target
                                then od_alter (fun l => l ++ v) k target
                                else od_set k v target)
                      = od_get c target).
      { destruct (od_mem k target).
        - by rewrite od_get_alter, Hc.
        - by rewrite od_get_set, Hc. }
      by rewrite Hsame.
Qed.

Lemma merge_channels_keys (source target : channel_map) :
  NoDup (od_keys source) ->
  od_keys (merge_channels target source)
  = od_keys target
    ++ List.filter (fun k => negb (od_mem k target)) (od_keys source).
Proof.
  revert target. induction source as [|[k v] source IH]; intros target Hnd.
  - cbn. by rewrite app_nil_r.
  - cbn [od_keys List.map fst] in Hnd. apply NoDup_cons in Hnd as [Hk Hnd].
    rewrite merge_channels_cons, IH by done.
    cbn [od_keys List.map fst List.filter]. fold (od_keys source).
    assert (Hfilter :
      forall target' : channel_map,
        (forall x, x <> k -> od_mem x target' = od_mem x target) ->
        List.filter (fun x => negb (od_mem x target')) (od_keys source)
        = List.filter (fun x => negb (od_mem x target)) (od_keys source)).
    { intros target' Hsame. apply filter_ext_in. intros x Hx.
      rewrite Hsame; [done|]. intros ->. by apply Hk, list_elem_of_In. }
    destruct (od_mem k target) eqn:Hmem; cbn [negb].
    + rewrite od_keys_alter. f_equal. apply Hfilter. intros x Hx.
      by rewrite !od_mem_get, od_get_alter, bool_decide_false.
    + rewrite od_keys_set, Hmem, <- app_assoc. cbn [app]. do 2 f_equal.
      apply Hfilter. intros x Hx.
      by rewrite !od_mem_get, od_get_set, bool_decide_false.
Qed.

(** X9. Merging a source into the repository keeps the categories of the
    repository in their order and puts the new categories of the source
    after them in source order; a category of both has the pairs of the
    repository followed by those of the source, any other category keeps
    its pairs. *)
Theorem merge_channels_appends (target source : channel_map) :
  NoDup (od_keys source) ->
  od_keys (merge_channels target source)
  = od_keys target
    ++ List.filter (fun k => negb (od_mem k target)) (od_keys source)
  /\ forall c,
       od_get c (merge_channels target source)
       = match od_get c target, od_get c source with
         | Some a, Some b => Some (a ++ b)
         | Some a, None => Some a
         | None, found => found
         end.
Proof.
  intros Hnd. split.
  - by apply merge_channels_keys.
  - intros c. by apply merge_channels_get.
Qed.

Lemma merge_channels_appends_witness :
  let target := [(utf8 "News", [(utf8 "A", utf8 "http://a/1")]);
                 (utf8 "Kids", [])] in
  let source := [(utf8 "Sport", [(utf8 "S", utf8 "http://s/1")]);
                 (utf8 "News", [(utf8 "B", utf8 "http://b/1")])] in
  od_keys (merge_channels target source)
  = [utf8 "News"; utf8 "Kids"; utf8 "Sport"]
  /\ forall c,
       od_get c (merge_channels target source)
       = match od_get c target, od_get c source with
         | Some a, Some b => Some (a ++ b)
         | Some a, None => Some a
         | None, found => found
         end.
Proof.
  intros target source.
  apply (merge_channels_appends target source).
  apply (bool_decide_unpack _). vm_compute. exact I.
Defined.

(** ** A source that yields nothing *)

Lemma merge_channels_nil (target : channel_map) :
  merge_channels target [] = target.
Proof. done. Qed.

Lemma updateChannelUrlsM3U_settings (cfg : config) (urls : list pystr)
    (now : datetime) (channels : matched_map)
    (template_channels : odict (list pystr)) :
  updateChannelUrlsM3U (with_source_urls cfg urls) now channels
    template_channels
  = updateChannelUrlsM3U cfg now channels template_channels.
Proof. by destruct cfg. Qed.

(** X10. A source whose request fails, or whose text yields no category,
    is as good as absent: the run writes the same two files as a run from
    which that source url is removed. *)
Theorem source_without_channels_is_skipped (cfg : config)
    (fetch : pystr -> option pystr) (now : datetime)
    (template_content : pystr) (before after : list pystr) (url : pystr) :
  source_urls cfg = before ++ url :: after ->
  fetch_channels (fetch url) = [] ->
  main cfg fetch now template_content
  = main (with_source_urls cfg (before ++ after)) fetch now template_content.
Proof.
  intros Hsources Hnothing.
  unfold main, filter_source_urls. cbn [source_urls with_source_urls].
  rewrite Hsources, !fold_left_app. cbn [fold_left].
  rewrite Hnothing, merge_channels_nil.
  by rewrite updateChannelUrlsM3U_settings.
Qed.

Lemma source_without_channels_is_skipped_witness :
  let cfg := {| source_urls := [utf8 "http://source/1"; utf8 "http://down/";
                                utf8 "http://source/2"];
                epg_urls := []; url_blacklist := [];
                ip_version_priority := utf8 "ipv6" |} in
  let fetch := failing_at (utf8 "http://down/") sample_fetch in
  main cfg fetch (sample_now 9) sample_template
  = main (with_source_urls cfg
            ([utf8 "http://source/1"] ++ [utf8 "http://source/2"]))
      fetch (sample_now 9) sample_template.
Proof.
  intros cfg fetch.
  exact (source_without_channels_is_skipped cfg fetch (sample_now 9)
           sample_template [utf8 "http://source/1"] [utf8 "http://source/2"]
           (utf8 "http://down/") eq_refl eq_refl).
Defined.

(** ** Matching the template against the repository *)

Lemma match_pairs_lift (channel_name category : pystr)
    (pairs : list (pystr * pystr)) (matched : matched_map) :
  fold_left
    (fun matched_channels '(online_channel_name, online_channel_url) =>
       if bool_decide (channel_name = online_channel_name)
       then od_alter (od_setdefault_append channel_name online_channel_url)
              category matched_channels
       else matched_channels)
    pairs matched
  = od_alter (match_pairs channel_name pairs) category matched.
Proof.
  revert matched. induction pairs as [|[n u] pairs IH]; intros matched.
  - cbn. symmetry. by apply od_alter_id.
  - cbn [fold_left]. rewrite IH. unfold match_pairs. cbn [fold_left].
    case_bool_decide; [|done]. by rewrite od_alter_alter.
Qed.

Lemma match_all_lift (channel_name category : pystr)
    (all_channels : channel_map) (matched : matched_map) :
  fold_left
    (fun matched_channels '(online_category, online_channel_list) =>
       fold_left
         (fun matched_channels '(online_channel_name, online_channel_url) =>
            if bool_decide (channel_name = online_channel_name)
            then od_alter (od_setdefault_append channel_name online_channel_url)
                   category matched_channels
            else matched_channels)
         (online_channel_list : list (pystr * pystr)) matched_channels)
    all_channels matched
  = od_alter (match_all channel_name all_channels) category matched.
Proof.
  revert matched. induction all_channels as [|[oc pairs] all IH]; intros matched.
  - cbn. symmetry. by apply od_alter_id.
  - cbn [fold_left]. rewrite match_pairs_lift, IH, od_alter_alter. done.
Qed.

Lemma match_names_lift (category : pystr) (channel_list : list pystr)
    (all_channels : channel_map) (matched : matched_map) :
  fold_left
    (fun matched_channels channel_name =>
       fold_left
         (fun matched_channels '(online_category, online_channel_list) =>
            fold_left
              (fun matched_channels '(online_channel_name, online_channel_url) =>
                 if bool_decide (channel_name = online_channel_name)
                 then od_alter
                        (od_setdefault_append channel_name online_channel_url)
                        category matched_channels
                 else matched_channels)
              (online_channel_list : list (pystr * pystr)) matched_channels)
         all_channels matched_channels)
    channel_list matched
  = od_alter (match_names channel_list all_channels) category matched.
Proof.
  revert matched. induction channel_list as [|name names IH]; intros matched.
  - cbn. symmetry. by apply od_alter_id.
  - cbn [fold_left]. rewrite match_all_lift, IH, od_alter_alter. done.
Qed.

(** [match_channels] sets, for each template category in turn, the inner
    mapping built from its channel names. *)
Lemma match_channels_alt (template_channels : odict (list pystr))
    (all_channels : channel_map) :
  match_channels template_channels all_channels
  = fold_left
      (fun matched '(category, channel_list) =>
         od_set category (match_names channel_list all_channels []) matched)
      template_channels [].
Proof.
  unfold match_channels. apply fold_left_ext_in.
  intros matched [category channel_list] _.
  by rewrite match_names_lift, od_alter_set.
Qed.

Lemma match_all_flat (channel_name : pystr) (all_channels : channel_map)
    (inner : odict (list pystr)) :
  match_all channel_name all_channels inner
  = match_pairs channel_name (all_pairs all_channels) inner.
Proof.
  unfold match_all, all_pairs. revert inner.
  induction all_channels as [|[oc pairs] all IH]; intros inner; [done|].
  cbn [fold_left List.map snd concat]. rewrite IH.
  unfold match_pairs. by rewrite fold_left_app.
Qed.

(** X11. Matching does not look at the category under which a source
    lists a channel: the result is the one obtained from a repository that
    holds all the pairs, in the same order, under a single category. *)
Theorem matching_ignores_source_categories
    (template_channels : odict (list pystr)) (all_channels : channel_map)
    (any_category : pystr) :
  match_channels template_channels all_channels
  = match_channels template_channels
      [(any_category, concat (List.map snd all_channels))].
Proof.
  rewrite !match_channels_alt. apply fold_left_ext_in.
  intros matched [category channel_list] _. f_equal.
  unfold match_names. apply fold_left_ext_in. intros inner name _.
  rewrite !match_all_flat. unfold all_pairs. cbn [List.map snd concat].
  by rewrite app_nil_r.
Qed.

Lemma od_get_setdefault_append (name url n : pystr)
    (inner : odict (list pystr)) :
  od_get n (od_setdefault_append name url inner)
  = if bool_decide (n = name)
    then Some (default [] (od_get name inner) ++ [url])
    else od_get n inner.
Proof.
  unfold od_setdefault_append.
  destruct (od_get name inner) as [l|] eqn:Hget.
  - rewrite od_get_alter. case_bool_decide; [|done]. subst. by rewrite Hget.
  - rewrite od_get_set. by case_bool_decide.
Qed.

Lemma match_pairs_cons (m x u : pystr) (pairs : list (pystr * pystr))
    (inner : odict (list pystr)) :
  match_pairs m ((x, u) :: pairs) inner
  = match_pairs m pairs
      (if bool_decide (m = x) then od_setdefault_append m u inner else inner).
Proof. done. Qed.

Lemma urls_named_cons (m x u : pystr) (pairs : list (pystr * pystr)) :
  urls_named m ((x, u) :: pairs)
  = if bool_decide (m = x) then u :: urls_named m pairs
    else urls_named m pairs.
Proof. unfold urls_named. cbn. by case_bool_decide. Qed.

Lemma od_get_match_pairs (m : pystr) (pairs : list (pystr * pystr))
    (inner : odict (list pystr)) (n : pystr) :
  od_get n (match_pairs m pairs inner)
  = if bool_decide (n = m)
    then match urls_named m pairs with
         | [] => od_get n inner
         | us => Some (default [] (od_get n inner) ++ us)
         end
    else od_get n inner.
Proof.
  revert inner. induction pairs as [|[x u] pairs IH]; intros inner.
  - cbn. by case_bool_decide.
  - rewrite match_pairs_cons, IH, urls_named_cons.
    destruct (bool_decide (n = m)) eqn:Hn.
    + apply bool_decide_eq_true in Hn as ->.
      destruct (bool_decide (m = x)) eqn:Hx; [|done].
      rewrite od_get_setdefault_append, bool_decide_true by done.
      destruct (urls_named m pairs); cbn; [done|].
      by rewrite <- app_assoc.
    + destruct (bool_decide (m = x)); [|done].
      by rewrite od_get_setdefault_append, Hn.
Qed.

Lemma occurrences_cons (n m : pystr) (names : list pystr) :
  occurrences n (m :: names)
  = if bool_decide (m = n) then S (occurrences n names)
    else occurrences n names.
Proof. unfold occurrences. cbn. by case_bool_decide. Qed.

Lemma od_get_match_names (names : list pystr) (all_channels : channel_map)
    (inner : odict (list pystr)) (n : pystr) :
  od_get n (match_names names all_channels inner)
  = match occurrences n names, urls_named n (all_pairs all_channels) with
    | O, _ | _, [] => od_get n inner
    | k, us => Some (default [] (od_get n inner) ++ concat (repeat us k))
    end.
Proof.
  revert inner. induction names as [|m names IH]; intros inner; [done|].
  unfold match_names in *. cbn [fold_left]. rewrite IH, occurrences_cons.
  rewrite match_all_flat, od_get_match_pairs.
  destruct (bool_decide (m = n)) eqn:Hm.
  - apply bool_decide_eq_true in Hm as ->. rewrite bool_decide_true by done.
    destruct (urls_named n (all_pairs all_channels)) as [|u us] eqn:Hus.
    + by destruct (occurrences n names).
    + destruct (occurrences n names) as [|k]; cbn.
      * by rewrite app_nil_r.
      * by rewrite <- !app_assoc.
  - apply bool_decide_eq_false in Hm.
    by rewrite bool_decide_false by (by intros ->).
Qed.

Lemma fold_left_od_set_fresh {A V : Type} (g : A -> V) (entries : odict A)
    (d : odict V) :
  NoDup (od_keys entries) ->
  (forall k, k ∈ od_keys entries -> k ∉ od_keys d) ->
  fold_left (fun d '(k, x) => od_set k (g x) d) entries d
  = d ++ List.map (fun '(k, x) => (k, g x)) entries.
Proof.
  revert d. induction entries as [|[k x] entries IH]; intros d Hnd Hfresh.
  - cbn. by rewrite app_nil_r.
  - cbn [od_keys List.map fst] in Hnd. apply NoDup_cons in Hnd as [Hk Hnd].
    cbn [fold_left List.map].
    rewrite od_set_fresh by (apply Hfresh; left).
    rewrite IH; [by rewrite <- app_assoc|done|].
    intros k' Hk'. unfold od_keys at 1. rewrite map_app. cbn [List.map fst].
    intros [Hin|Hin]%elem_of_app.
    + eapply Hfresh; [|done]. by right.
    + apply list_elem_of_singleton in Hin as ->. done.
Qed.

Lemma od_get_map {A V : Type} (g : A -> V) (entries : odict A) (c : pystr) :
  od_get c (List.map (fun '(k, x) => (k, g x)) entries)
  = g <$> od_get c entries.
Proof.
  induction entries as [|[k x] entries IH]; [done|].
  cbn [List.map od_get]. by case_bool_decide.
Qed.

Lemma od_keys_map {A V : Type} (g : A -> V) (entries : odict A) :
  od_keys (List.map (fun '(k, x) => (k, g x)) entries) = od_keys entries.
Proof.
  induction entries as [|[k x] entries IH]; [done|].
  cbn [List.map od_keys fst] in *. by f_equal.
Qed.

(** X12. The matched mapping has the categories of the template, in
    template order. Under a category, a channel name has an entry exactly
    when the template lists it there and some pair of the sources carries
    it, whatever its source category; its candidates are then the urls of
    all these pairs in repository order, repeated as many times as the
    template lists the name in that category. No entry has an empty list
    of candidates. *)
Theorem match_channels_collects_by_name
    (template_channels : odict (list pystr)) (all_channels : channel_map) :
  NoDup (od_keys template_channels) ->
  od_keys (match_channels template_channels all_channels)
  = od_keys template_channels
  /\ forall category channel_list,
       od_get category template_channels = Some channel_list ->
       exists inner,
         od_get category (match_channels template_channels all_channels)
         = Some inner
         /\ forall name,
              od_get name inner
              = match occurrences name channel_list,
                      urls_named name (all_pairs all_channels) with
                | O, _ | _, [] => None
                | k, urls => Some (concat (repeat urls k))
                end.
Proof.
  intros Hnd.
  assert (Hmap : match_channels template_channels all_channels
                 = List.map (fun '(category, channel_list) =>
                               (category,
                                match_names channel_list all_channels []))
                     template_channels).
  { rewrite match_channels_alt.
    rewrite (fold_left_od_set_fresh
               (fun channel_list => match_names channel_list all_channels []));
      [done|done|].
    intros k _ ?%elem_of_nil. done. }
  rewrite Hmap. split.
  - apply (od_keys_map
             (fun channel_list => match_names channel_list all_channels [])).
  - intros category channel_list Hget.
    exists (match_names channel_list all_channels []). split.
    + rewrite (od_get_map
                 (fun channel_list => match_names channel_list all_channels [])).
      by rewrite Hget.
    + intros name. rewrite od_get_match_names. cbn [od_get default app].
      destruct (occurrences name channel_list); [done|].
      by destruct (urls_named name (all_pairs all_channels)).
Qed.

Lemma match_channels_collects_by_name_witness :
  let template := [(utf8 "News", [utf8 "A"; utf8 "B"; utf8 "A"]);
                   (utf8 "Kids", [utf8 "C"])] in
  let all := [(utf8 "x", [(utf8 "A", utf8 "http://a/1");
                          (utf8 "C", utf8 "http://c/1")]);
              (utf8 "y", [(utf8 "A", utf8 "http://a/2")])] in
  od_keys (match_channels template all) = [utf8 "News"; utf8 "Kids"]
  /\ exists inner,
       od_get (utf8 "News") (match_channels template all) = Some inner
       /\ od_get (utf8 "A") inner
          = Some [utf8 "http://a/1"; utf8 "http://a/2";
                  utf8 "http://a/1"; utf8 "http://a/2"]
       /\ od_get (utf8 "B") inner = None.
Proof.
  intros template all.
  destruct (match_channels_collects_by_name template all) as [Hkeys Hget].
  { apply (bool_decide_unpack _). vm_compute. exact I. }
  split; [exact Hkeys|].
  destruct (Hget (utf8 "News") [utf8 "A"; utf8 "B"; utf8 "A"] eq_refl)
    as (inner & Hinner & Hnames).
  exists inner. split; [exact Hinner|]. split.
  - exact (Hnames (utf8 "A")).
  - exact (Hnames (utf8 "B")).
Defined.

(** ** The name normalizer *)

Lemma range_points_elem (lo hi step target c : N) :
  0 < step -> lo <= c -> c <= hi -> (c - lo) mod step = 0 ->
  c ∈ range_points (lo, hi, step, target).
Proof.
  intros Hstep Hlo Hhi Hmod. unfold range_points.
  apply list_elem_of_In, in_map_iff.
  exists (N.to_nat ((c - lo) / step)). split.
  - rewrite N2Nat.id.
    apply N.Div0.div_exact in Hmod. rewrite <- Hmod. lia.
  - apply in_seq. split; [apply Nat.le_0_l|].
    assert ((c - lo) / step <= (hi - lo) / step) as Hle
      by (apply N.Div0.div_le_mono; lia).
    set (q := (c - lo) / step) in *. set (r := (hi - lo) / step) in *.
    lia.
Qed.

Lemma upper_ranges_steps :
  forallb (fun '(_, _, step, _) => 0 <? step) upper_ranges = true.
Proof. vm_compute. reflexivity. Qed.

Lemma upper_char_default_or_mapped (c : N) :
  upper_char c = [c] \/ c ∈ mapped_points.
Proof.
  unfold upper_char, mapped_points.
  destruct (List.find _ upper_ranges) as [[[[lo hi] step] target]|] eqn:Hrange.
  - right. apply elem_of_app. left.
    apply find_some in Hrange as [Hin Hc].
    apply andb_prop in Hc as [[Hlo Hhi]%andb_prop Hmod].
    apply N.leb_le in Hlo, Hhi. apply N.eqb_eq in Hmod.
    pose proof upper_ranges_steps as Hsteps.
    rewrite forallb_forall in Hsteps. specialize (Hsteps _ Hin).
    cbn in Hsteps. apply N.ltb_lt in Hsteps.
    apply list_elem_of_In, in_flat_map. eexists. split; [exact Hin|].
    apply list_elem_of_In. by apply range_points_elem.
  - destruct (List.find _ upper_special) as [[k u]|] eqn:Hspecial; [|by left].
    right. apply elem_of_app. right.
    apply find_some in Hspecial as [Hin Hk]. apply N.eqb_eq in Hk as <-.
    apply list_elem_of_In, in_map_iff. by exists (k, u).
Qed.

Lemma mapped_points_sane : forallb upper_char_sane mapped_points = true.
Proof. vm_compute. reflexivity. Qed.

Lemma upper_char_sane_all (c : N) : upper_char_sane c = true.
Proof.
  destruct (upper_char_default_or_mapped c) as [Hdefault|Hmapped].
  - unfold upper_char_sane. rewrite Hdefault. cbn [truthy forallb].
    rewrite Hdefault, bool_decide_true by done.
    by destruct (isdecimal c), (is_removed c).
  - pose proof mapped_points_sane as Hall.
    rewrite forallb_forall in Hall. by apply Hall, list_elem_of_In.
Qed.

Lemma upper_char_facts (c : N) :
  upper_char c <> []
  /\ (forall x, x ∈ upper_char c -> upper_char x = [x])
  /\ (isdecimal c = false ->
      forall x, x ∈ upper_char c -> isdecimal x = false)
  /\ (is_removed c = false ->
      forall x, x ∈ upper_char c -> is_removed x = false).
Proof.
  pose proof (upper_char_sane_all c) as Hsane. unfold upper_char_sane in Hsane.
  apply andb_prop in Hsane as [[[Hne Hfix]%andb_prop Hdec]%andb_prop Hrem].
  split_and!.
  - by destruct (upper_char c).
  - intros x Hx. rewrite forallb_forall in Hfix.
    by apply (bool_decide_eq_true_1 _), Hfix, list_elem_of_In.
  - intros Hc x Hx. rewrite Hc in Hdec. cbn in Hdec.
    rewrite forallb_forall in Hdec.
    by apply negb_true_iff, Hdec, list_elem_of_In.
  - intros Hc x Hx. rewrite Hc in Hrem. cbn in Hrem.
    rewrite forallb_forall in Hrem.
    by apply negb_true_iff, Hrem, list_elem_of_In.
Qed.

Lemma ascii_digit_facts (c : N) :
  is_ascii_digit c = true ->
  decimal_value c = Some (c - 48) /\ upper_char c = [c]
  /\ is_removed c = false.
Proof.
  intros [Hlo Hhi]%andb_prop. apply N.leb_le in Hlo, Hhi.
  assert (c = 48 \/ c = 49 \/ c = 50 \/ c = 51 \/ c = 52 \/ c = 53
          \/ c = 54 \/ c = 55 \/ c = 56 \/ c = 57) as Hc by lia.
  destruct_or!; subst c; vm_compute; done.
Qed.

Lemma ascii_digit_isdecimal (c : N) :
  is_ascii_digit c = true -> isdecimal c = true.
Proof.
  intros Hc. unfold isdecimal.
  by rewrite (proj1 (ascii_digit_facts c Hc)).
Qed.

Lemma ascii_digit_clean (c : N) : is_ascii_digit c = true -> clean_char c.
Proof.
  intros Hc. split; [|done]. apply (ascii_digit_facts c Hc).
Qed.

Lemma uint_codes_ascii (d : Decimal.uint) :
  Forall (fun c => is_ascii_digit c = true) (uint_codes d).
Proof. induction d; cbn [uint_codes]; by constructor. Qed.

Lemma render_run_ascii (run : pystr) :
  Forall (fun c => is_ascii_digit c = true) (render_run run).
Proof.
  unfold render_run. destruct (truthy run); [apply uint_codes_ascii|done].
Qed.

Lemma int_of_digits_step (acc c : N) :
  is_ascii_digit c = true ->
  acc * 10 + default 0 (decimal_value c) = 10 * acc + (c - 48).
Proof.
  intros Hc. rewrite (proj1 (ascii_digit_facts c Hc)). cbn. lia.
Qed.

Lemma int_of_digits_acc (d : Decimal.uint) (acc : positive) :
  fold_left (fun acc c => acc * 10 + default 0 (decimal_value c))
    (uint_codes d) (N.pos acc)
  = N.pos (Pos.of_uint_acc d acc).
Proof.
  revert acc.
  induction d; intros acc; cbn [uint_codes fold_left Pos.of_uint_acc];
    [done|..];
    rewrite int_of_digits_step by done; rewrite <- IHd; f_equal; lia.
Qed.

Lemma int_of_digits_uint_codes (d : Decimal.uint) :
  int_of_digits (uint_codes d) = N.of_uint d.
Proof.
  unfold int_of_digits, N.of_uint.
  induction d; cbn [uint_codes fold_left Pos.of_uint]; [done|..];
    rewrite int_of_digits_step by done;
    [exact IHd|rewrite <- int_of_digits_acc; f_equal; lia..].
Qed.

(** [int(str(n))] is [n]. *)
Lemma int_of_digits_str_of_int (n : N) : int_of_digits (str_of_int n) = n.
Proof.
  unfold str_of_int. rewrite int_of_digits_uint_codes.
  apply DecimalN.Unsigned.of_to.
Qed.

Lemma render_run_render (run : pystr) :
  render_run (render_run run) = render_run run.
Proof.
  unfold render_run at 2 3. destruct (truthy run); [|done].
  unfold render_run. destruct (truthy _) eqn:Hempty.
  - by rewrite int_of_digits_str_of_int.
  - by destruct (str_of_int _).
Qed.

Lemma sub_numbers_digits (digits rest run : pystr) :
  Forall (fun c => isdecimal c = true) digits ->
  sub_numbers (digits ++ rest) run = sub_numbers rest (run ++ digits).
Proof.
  intros Hdigits. revert run.
  induction Hdigits as [|c digits Hc _ IH]; intros run.
  - by rewrite app_nil_r.
  - cbn [app sub_numbers]. rewrite Hc, IH. by rewrite <- app_assoc.
Qed.

Lemma sub_numbers_nondigits (others rest : pystr) :
  Forall (fun c => isdecimal c = false) others ->
  sub_numbers (others ++ rest) [] = others ++ sub_numbers rest [].
Proof.
  induction 1 as [|c others Hc _ IH]; [done|].
  cbn [app sub_numbers]. rewrite Hc, IH. done.
Qed.

Lemma str_upper_app (s t : pystr) :
  str_upper (s ++ t) = str_upper s ++ str_upper t.
Proof. apply flat_map_app. Qed.

Lemma str_upper_fixed (s : pystr) :
  Forall (fun c => upper_char c = [c]) s -> str_upper s = s.
Proof.
  induction 1 as [|c s Hc _ IH]; [done|].
  unfold str_upper in *. cbn [flat_map]. by rewrite Hc, IH.
Qed.

Lemma str_upper_ascii_digits (s : pystr) :
  Forall (fun c => is_ascii_digit c = true) s -> str_upper s = s.
Proof.
  intros Hs. apply str_upper_fixed.
  eapply Forall_impl; [exact Hs|]. intros c Hc.
  apply (ascii_digit_facts c Hc).
Qed.

Lemma str_upper_upper (s : pystr) : str_upper (str_upper s) = str_upper s.
Proof.
  apply str_upper_fixed, Forall_forall. intros x Hx.
  apply list_elem_of_In, in_flat_map in Hx as (c & _ & Hx).
  by apply (upper_char_facts c), list_elem_of_In.
Qed.

(** A rendered name is a fixed point of the third substitution, also after
    it has been upper-cased. *)
Lemma sub_numbers_upper_fixed (s run : pystr) :
  sub_numbers (str_upper (sub_numbers s run)) []
  = str_upper (sub_numbers s run).
Proof.
  revert run. induction s as [|c s IH]; intros run; cbn [sub_numbers].
  - rewrite str_upper_ascii_digits by apply render_run_ascii.
    rewrite <- (app_nil_r (render_run run)) at 1.
    rewrite sub_numbers_digits.
    + cbn [app sub_numbers]. apply render_run_render.
    + eapply Forall_impl; [apply render_run_ascii|].
      apply ascii_digit_isdecimal.
  - destruct (isdecimal c) eqn:Hc; [apply IH|].
    rewrite str_upper_app.
    rewrite str_upper_ascii_digits by apply render_run_ascii.
    change (str_upper (c :: sub_numbers s []))
      with (upper_char c ++ str_upper (sub_numbers s [])).
    destruct (upper_char_facts c) as (Hne & _ & Hdec & _).
    destruct (upper_char c) as [|x xs] eqn:Hupper; [done|].
    assert (Forall (fun y => isdecimal y = false) (x :: xs)) as Hxs
      by (apply Forall_forall; intros y Hy; by apply Hdec).
    apply Forall_cons in Hxs as [Hx Hxs].
    rewrite sub_numbers_digits
      by (eapply Forall_impl; [apply render_run_ascii|];
          apply ascii_digit_isdecimal).
    cbn [app sub_numbers]. rewrite Hx, render_run_render.
    by rewrite sub_numbers_nondigits, IH.
Qed.

Lemma sub_numbers_clean (s run : pystr) :
  Forall (fun c => is_removed c = false) s ->
  Forall clean_char (sub_numbers s run).
Proof.
  intros Hs. revert run.
  induction Hs as [|c s Hc _ IH]; intros run; cbn [sub_numbers].
  - eapply Forall_impl; [apply render_run_ascii|]. apply ascii_digit_clean.
  - destruct (isdecimal c) eqn:Hdigit; [apply IH|].
    apply Forall_app. split.
    + eapply Forall_impl; [apply render_run_ascii|]. apply ascii_digit_clean.
    + constructor; [|apply IH]. split; [done|]. by rewrite Hdigit.
Qed.

Lemma str_upper_clean (s : pystr) :
  Forall clean_char s -> Forall clean_char (str_upper s).
Proof.
  intros Hs. apply Forall_forall. intros x Hx.
  apply list_elem_of_In, in_flat_map in Hx as (c & Hc & Hx).
  apply list_elem_of_In in Hc, Hx.
  rewrite Forall_forall in Hs. destruct (Hs c Hc) as [Hrem Hascii].
  destruct (upper_char_facts c) as (_ & _ & Hdec & Hkeep).
  destruct (isdecimal c) eqn:Hdigit.
  - rewrite (proj1 (proj2 (ascii_digit_facts c (Hascii eq_refl)))) in Hx.
    apply list_elem_of_singleton in Hx as ->. split; [done|].
    intros _. by apply Hascii.
  - split; [by apply Hkeep|]. by rewrite (Hdec eq_refl x Hx).
Qed.

Lemma sub_spaces_decorations_removed (s : pystr) :
  Forall (fun c => is_removed c = false) (sub_spaces (sub_decorations s)).
Proof.
  apply Forall_forall. intros c Hc.
  apply list_elem_of_In, filter_In in Hc as [Hc Hspace].
  apply filter_In in Hc as [_ Hdecoration].
  apply negb_true_iff in Hspace, Hdecoration.
  unfold is_removed, is_decoration. by rewrite Hdecoration, Hspace.
Qed.

Lemma sub_spaces_decorations_fixed (s : pystr) :
  Forall (fun c => is_removed c = false) s ->
  sub_spaces (sub_decorations s) = s.
Proof.
  induction 1 as [|c s Hc _ IH]; [done|].
  apply orb_false_elim in Hc as [Hdecoration Hspace].
  unfold sub_spaces, sub_decorations in *. cbn [List.filter].
  unfold is_decoration in Hdecoration. rewrite Hdecoration.
  cbn [negb List.filter]. rewrite Hspace. cbn [negb]. by rewrite IH.
Qed.

Lemma clean_channel_name_clean (s : pystr) :
  Forall clean_char (clean_channel_name s).
Proof.
  unfold clean_channel_name. cbv zeta.
  apply str_upper_clean, sub_numbers_clean, sub_spaces_decorations_removed.
Qed.

(** A name in the form the normalizer produces is left as it is by the
    normalizer. *)
Lemma normal_form_fixed (cleaned : pystr) :
  Forall (fun c => is_removed c = false) cleaned ->
  clean_channel_name (str_upper (sub_numbers cleaned []))
  = str_upper (sub_numbers cleaned []).
Proof.
  intros Hcleaned.
  pose proof (str_upper_clean _ (sub_numbers_clean cleaned [] Hcleaned))
    as Hclean.
  unfold clean_channel_name. cbv zeta.
  rewrite sub_spaces_decorations_fixed
    by (eapply Forall_impl; [exact Hclean|]; by intros c [Hc _]).
  by rewrite sub_numbers_upper_fixed, str_upper_upper.
Qed.

(** X13. Normalizing a name twice is normalizing it once: a name the
    normalizer has produced is left as it is by the normalizer. *)
Theorem clean_channel_name_idempotent (channel_name : pystr) :
  clean_channel_name (clean_channel_name channel_name)
  = clean_channel_name channel_name.
Proof.
  unfold clean_channel_name at 2 3. cbv zeta.
  apply normal_form_fixed, sub_spaces_decorations_removed.
Qed.

(** X14. A normalized name contains no white space and none of the four
    characters dollar, minus and the two corner brackets, and its only
    decimal digits are the ASCII digits: the digits of every other script
    are rendered as ASCII. *)
Theorem clean_channel_name_characters (channel_name : pystr) :
  Forall (fun c => isspace c = false /\ is_decoration c = false
                   /\ (isdecimal c = true -> is_ascii_digit c = true))
    (clean_channel_name channel_name).
Proof.
  eapply Forall_impl; [apply clean_channel_name_clean|].
  intros c [[Hdecoration Hspace]%orb_false_elim Hdigit]. done.
Qed.

(** ** Names the sources store and names the template lists *)

(** The name a parser stores for a captured name. *)
Lemma stored_name_normal (raw : pystr) :
  name_normal (if truthy raw && str_startswith lit_cctv raw
               then clean_channel_name raw else raw).
Proof.
  unfold name_normal.
  destruct (truthy raw && str_startswith lit_cctv raw) eqn:Hraw.
  - intros _. unfold clean_channel_name at 2 3. cbv zeta.
    apply normal_form_fixed, sub_spaces_decorations_removed.
  - intros Hstart. rewrite Hstart, andb_true_r in Hraw.
    destruct raw; [done|discriminate Hraw].
Qed.

Lemma pairs_all_set (P : pystr * pystr -> Prop) (c : pystr)
    (channels : channel_map) :
  pairs_all P channels -> pairs_all P (od_set c [] channels).
Proof. intros Hall. apply od_set_Forall; [done|]. constructor. Qed.

Lemma pairs_all_append (P : pystr * pystr -> Prop) (c : pystr)
    (new : list (pystr * pystr)) (channels : channel_map) :
  Forall P new -> pairs_all P channels ->
  pairs_all P (od_alter (fun l => l ++ new) c channels).
Proof.
  intros Hnew Hall. apply od_alter_Forall; [done|].
  intros l Hl. cbn [snd] in *. by apply Forall_app.
Qed.

Lemma txt_step_pairs_normal (st : txt_state) (line : pystr) :
  pairs_all pair_normal (txt_channels st) ->
  pairs_all pair_normal (txt_channels (txt_step st line)).
Proof.
  intros Hst. unfold txt_step.
  destruct (str_contains lit_genre (str_strip line)); cbn [txt_channels].
  { by apply pairs_all_set. }
  destruct (txt_category st) as [c|]; [|done].
  destruct (truthy c); [|done].
  destruct (re_match_name_rest (str_strip line)) as [[g1 g2]|];
    cbn [txt_channels].
  - rewrite (fold_left_od_append (fun u => (_, str_strip u))).
    apply pairs_all_append; [|done].
    apply Forall_forall. intros pair Hpair.
    apply list_elem_of_In, in_map_iff in Hpair as (seg & <- & _).
    intros _. apply stored_name_normal.
  - destruct (truthy (str_strip line)); cbn [txt_channels]; [|done].
    apply pairs_all_append; [|done].
    constructor; [|constructor]. by intros Hurl.
Qed.

Lemma parse_txt_lines_pairs_normal (lines : list pystr) :
  pairs_all pair_normal (parse_txt_lines lines).
Proof.
  unfold parse_txt_lines, txt_run.
  apply (fold_left_invariant
           (fun st => pairs_all pair_normal (txt_channels st))).
  - apply txt_step_pairs_normal.
  - constructor.
Qed.

Lemma m3u_step_pairs_normal (st : m3u_state) (line : pystr) :
  pairs_all pair_normal (m3u_channels st)
  /\ (forall n, m3u_name st = Some n -> name_normal n) ->
  pairs_all pair_normal (m3u_channels (m3u_step st line))
  /\ (forall n, m3u_name (m3u_step st line) = Some n -> name_normal n).
Proof.
  intros [Hst Hname]. unfold m3u_step.
  destruct (str_startswith lit_extinf (str_strip line)).
  { destruct (re_search_group_title (str_strip line)) as [[g1 g2]|]; [|done].
    cbn [m3u_channels m3u_name]. split.
    - destruct (od_mem (str_strip g1) (m3u_channels st)); [done|].
      by apply pairs_all_set.
    - intros n [= <-]. apply stored_name_normal. }
  destruct (truthy (str_strip line) && _); [|done].
  destruct (m3u_category st) as [c|], (m3u_name st) as [n|] eqn:Hn;
    try (split; [done|]; intros n' Hn'; congruence).
  2: { split; [done|]. intros n' Hn'. apply Hname. congruence. }
  destruct (truthy c && truthy n); cbn [m3u_channels m3u_name];
    [|split; [done|]; intros n' Hn'; apply Hname; congruence].
  split; [|intros n' Hn'; apply Hname; congruence].
  apply pairs_all_append; [|done].
  constructor; [|constructor]. intros _. cbn [fst]. by apply Hname.
Qed.

Lemma parse_m3u_lines_pairs_normal (lines : list pystr) :
  pairs_all pair_normal (parse_m3u_lines lines).
Proof.
  unfold parse_m3u_lines, m3u_run.
  apply (fold_left_invariant
           (fun st => pairs_all pair_normal (m3u_channels st)
                      /\ (forall n, m3u_name st = Some n -> name_normal n))).
  - apply m3u_step_pairs_normal.
  - split; [constructor|done].
Qed.

Lemma fetch_channels_pairs_normal (response : option pystr) :
  pairs_all pair_normal (fetch_channels response).
Proof.
  destruct response as [text|]; cbn [fetch_channels]; [|constructor].
  destruct (is_m3u (str_split ch_nl text)).
  - rewrite od_update_nil by apply parse_m3u_lines_keys_NoDup.
    apply parse_m3u_lines_pairs_normal.
  - rewrite od_update_nil by apply parse_txt_lines_keys_NoDup.
    apply parse_txt_lines_pairs_normal.
Qed.

Lemma merge_channels_pairs_all (P : pystr * pystr -> Prop)
    (target source : channel_map) :
  pairs_all P target -> pairs_all P source ->
  pairs_all P (merge_channels target source).
Proof.
  intros Htarget Hsource. unfold merge_channels.
  apply (fold_left_invariant_in (pairs_all P)); [|done].
  intros acc [category channel_list] Hin Hacc.
  unfold pairs_all in Hsource. rewrite Forall_forall in Hsource.
  pose proof (Hsource _ Hin) as Hentry. cbn [snd] in Hentry.
  destruct (od_mem category acc).
  - by apply pairs_all_append.
  - by apply od_set_Forall.
Qed.

Lemma all_pairs_elem (P : pystr * pystr -> Prop) (channels : channel_map)
    (pair : pystr * pystr) :
  pairs_all P channels -> pair ∈ all_pairs channels -> P pair.
Proof.
  intros Hall Hpair. unfold all_pairs in Hpair.
  apply list_elem_of_In, in_concat in Hpair as (pairs & Hpairs & Hpair).
  apply in_map_iff in Hpairs as (entry & <- & Hentry).
  unfold pairs_all in Hall. rewrite Forall_forall in Hall.
  apply list_elem_of_In in Hentry, Hpair.
  pose proof (Hall _ Hentry) as Hentry'. rewrite Forall_forall in Hentry'.
  by apply Hentry'.
Qed.

Lemma urls_named_elem (name url : pystr) (pairs : list (pystr * pystr)) :
  url ∈ urls_named name pairs -> (name, url) ∈ pairs.
Proof.
  unfold urls_named. intros Hurl.
  apply list_elem_of_In, in_map_iff in Hurl as ([n u] & <- & Hpair).
  apply filter_In in Hpair as [Hpair Hname].
  apply bool_decide_eq_true in Hname. cbn in Hname. subst n.
  by apply list_elem_of_In.
Qed.

Lemma concat_repeat_elem {A : Type} (x : A) (l : list A) (k : nat) :
  x ∈ concat (repeat l k) -> x ∈ l.
Proof.
  induction k as [|k IH]; cbn [repeat concat].
  - by intros ?%elem_of_nil.
  - by intros [Hx|Hx]%elem_of_app; [|apply IH].
Qed.

(** Every candidate of a matched channel is the url of a pair of the
    repository with that very name. *)
Lemma matched_candidates_are_pairs
    (template_channels : odict (list pystr)) (all_channels : channel_map)
    (category : pystr) (inner : odict (list pystr)) (name : pystr)
    (urls : list pystr) (url : pystr) :
  od_get category (match_channels template_channels all_channels)
  = Some inner ->
  od_get name inner = Some urls -> url ∈ urls ->
  (name, url) ∈ all_pairs all_channels.
Proof.
  intros Hinner Hurls Hurl.
  assert (Hall : Forall (fun entry : pystr * odict (list pystr) =>
                    forall n us u, od_get n entry.2 = Some us -> u ∈ us ->
                                   (n, u) ∈ all_pairs all_channels)
                   (match_channels template_channels all_channels)).
  { rewrite match_channels_alt.
    apply (fold_left_invariant
             (Forall (fun entry : pystr * odict (list pystr) =>
                forall n us u, od_get n entry.2 = Some us -> u ∈ us ->
                               (n, u) ∈ all_pairs all_channels)));
      [|constructor].
    intros matched [c channel_list] Hmatched.
    apply od_set_Forall; [done|]. cbn [snd]. intros n us u.
    rewrite od_get_match_names. cbn [od_get default app].
    destruct (occurrences n channel_list) as [|k]; [done|].
    destruct (urls_named n (all_pairs all_channels)) as [|u0 us0] eqn:Hnamed;
      [done|].
    intros [= <-] Hu. apply (concat_repeat_elem u (u0 :: us0) (S k)) in Hu.
    apply urls_named_elem. by rewrite Hnamed. }
  rewrite Forall_forall in Hall.
  apply od_get_elem in Hinner.
  by apply (Hall _ Hinner name urls url).
Qed.

Lemma filter_source_urls_pairs_normal (cfg : config)
    (fetch : pystr -> option pystr) :
  pairs_all pair_normal
    (fold_left
       (fun all_channels url =>
          merge_channels all_channels (fetch_channels (fetch url)))
       (source_urls cfg) []).
Proof.
  apply (fold_left_invariant (pairs_all pair_normal)); [|constructor].
  intros all url Hall.
  apply merge_channels_pairs_all; [done|apply fetch_channels_pairs_normal].
Qed.

(** X15. The sources store a name that starts with CCTV in normalized
    form, the template names are compared as they are written. A template
    name that starts with CCTV and is not in normalized form (one with a
    hyphen or a leading zero, say) is therefore matched by no pair that has
    a url: all its candidates, if it has any, are empty strings, and the
    ranker keeps none of them. *)
Theorem unnormalized_template_name_gets_no_url (cfg : config)
    (fetch : pystr -> option pystr) (template_content : pystr)
    (category name : pystr) (inner : odict (list pystr))
    (urls : list pystr) :
  str_startswith lit_cctv name = true ->
  clean_channel_name name <> name ->
  od_get category (filter_source_urls cfg fetch template_content).1
  = Some inner ->
  od_get name inner = Some urls ->
  Forall (fun url => url = []) urls
  /\ forall written_urls : gset (list N),
       (sort_and_filter_urls cfg urls written_urls).1 = [].
Proof.
  intros Hstart Hname Hinner Hurls.
  assert (Hempty : Forall (fun url : pystr => url = []) urls).
  { apply Forall_forall. intros url Hurl.
    unfold filter_source_urls in Hinner. cbn [fst] in Hinner.
    pose proof (matched_candidates_are_pairs _ _ _ _ _ _ _ Hinner Hurls Hurl)
      as Hpair.
    pose proof (all_pairs_elem pair_normal _ _
                  (filter_source_urls_pairs_normal cfg fetch) Hpair)
      as Hnormal.
    destruct url as [|c url]; [done|].
    exfalso. apply Hname. by apply Hnormal. }
  split; [done|].
  intros written_urls.
  destruct ((sort_and_filter_urls cfg urls written_urls).1)
    as [|url kept] eqn:Hkept; [done|].
  exfalso.
  assert (Hin : url ∈ (sort_and_filter_urls cfg urls written_urls).1)
    by (rewrite Hkept; left).
  pose proof (sort_and_filter_urls_subset _ _ _ _ Hin) as Hcandidate.
  apply sort_and_filter_urls_sound in Hin as [Hne _].
  rewrite Forall_forall in Hempty. by apply Hne, Hempty.
Qed.

Lemma unnormalized_template_name_gets_no_url_witness :
  Forall (fun url : pystr => url = []) [[]; []]
  /\ forall written_urls : gset (list N),
       (sort_and_filter_urls (sample_config (utf8 "ipv4")) [[]; []]
          written_urls).1 = [].
Proof.
  apply (unnormalized_template_name_gets_no_url
           (sample_config (utf8 "ipv4"))
           (fun _ => Some sample_unnormalized_source)
           sample_unnormalized_template
           (utf8 "News") (utf8 "CCTV-1")
           [(utf8 "CCTV-1", [[]; []]);
            (utf8 "CCTV1", [utf8 "http://a/1"; utf8 "http://a/1"])]
           [[]; []]).
  - reflexivity.
  - intros Hsame. vm_compute in Hsame. discriminate Hsame.
  - vm_compute. reflexivity.
  - reflexivity.
Defined.

(** ** A category that is opened again *)

Lemma txt_step_genre (st : txt_state) (line : pystr) :
  is_genre_line line = true ->
  txt_step st line
  = {| txt_channels := od_set (template_line_name line) [] (txt_channels st);
       txt_category := Some (template_line_name line) |}.
Proof.
  unfold is_genre_line, txt_step, template_line_name, pre_comma.
  intros Hgenre. by rewrite Hgenre, str_split_hd.
Qed.

(** The steps of the template parser and of the delimited-format parser
    keep two states related that agree on the current category and on
    what is stored under [c]. *)
Lemma template_step_related (c : pystr) (s s' : template_state)
    (line : pystr) :
  template_category s = template_category s' ->
  od_get c (template_channels s) = od_get c (template_channels s') ->
  template_category (template_step s line)
  = template_category (template_step s' line)
  /\ od_get c (template_channels (template_step s line))
     = od_get c (template_channels (template_step s' line)).
Proof.
  intros Hcat Hget. unfold template_step.
  destruct (truthy (str_strip line) && _); [|done].
  destruct (str_contains lit_genre (str_strip line));
    cbn [template_channels template_category].
  { split; [done|]. rewrite !od_get_set. by case_bool_decide. }
  rewrite <- Hcat.
  destruct (template_category s) as [current|] eqn:Hs; [|split; [congruence|done]].
  destruct (truthy current); [|split; [congruence|done]].
  cbn [template_channels template_category]. split; [congruence|].
  rewrite !od_get_alter, Hget. done.
Qed.

Lemma txt_step_related (c : pystr) (s s' : txt_state) (line : pystr) :
  txt_category s = txt_category s' ->
  od_get c (txt_channels s) = od_get c (txt_channels s') ->
  txt_category (txt_step s line) = txt_category (txt_step s' line)
  /\ od_get c (txt_channels (txt_step s line))
     = od_get c (txt_channels (txt_step s' line)).
Proof.
  intros Hcat Hget. unfold txt_step.
  destruct (str_contains lit_genre (str_strip line));
    cbn [txt_channels txt_category].
  { split; [done|]. rewrite !od_get_set. by case_bool_decide. }
  rewrite <- Hcat.
  destruct (txt_category s) as [current|] eqn:Hs; [|split; [congruence|done]].
  destruct (truthy current); [|split; [congruence|done]].
  destruct (re_match_name_rest (str_strip line)) as [[g1 g2]|];
    cbn [txt_channels txt_category].
  - split; [congruence|].
    rewrite !(fold_left_od_append (fun u => (_, str_strip u))).
    rewrite !od_get_alter, Hget. done.
  - destruct (truthy (str_strip line)); cbn [txt_channels txt_category];
      [|split; [congruence|done]].
    split; [congruence|]. rewrite !od_get_alter, Hget. done.
Qed.

Lemma fold_left_related {S L : Type} (R : S -> S -> Prop) (step : S -> L -> S)
    (ls : list L) (s s' : S) :
  (forall s s' l, R s s' -> R (step s l) (step s' l)) ->
  R s s' -> R (fold_left step ls s) (fold_left step ls s').
Proof.
  intros Hstep. revert s s'.
  induction ls as [|l ls IH]; intros s s' Hs; cbn [fold_left]; [done|].
  by apply IH, Hstep.
Qed.

(** X16. A category line that names a category again starts it afresh:
    in the template and in a delimited source, what is stored under a
    category is decided by its last category line and the lines after it;
    everything collected under it before is discarded. *)
Theorem repeated_category_line_restarts :
  (forall (pre rest : list pystr) (line : pystr),
      template_line_category line = true ->
      od_get (template_line_name line)
        (parse_template_lines (pre ++ line :: rest))
      = od_get (template_line_name line)
          (parse_template_lines (line :: rest)))
  /\ (forall (pre rest : list pystr) (line : pystr),
        is_genre_line line = true ->
        od_get (template_line_name line)
          (parse_txt_lines (pre ++ line :: rest))
        = od_get (template_line_name line)
            (parse_txt_lines (line :: rest))).
Proof.
  split; intros pre rest line Hline.
  - unfold parse_template_lines, template_run.
    rewrite fold_left_app. cbn [fold_left].
    apply (fold_left_related
             (fun s s' =>
                template_category s = template_category s'
                /\ od_get (template_line_name line) (template_channels s)
                   = od_get (template_line_name line) (template_channels s'))).
    + intros s s' l [Hcat Hget]. by apply template_step_related.
    + rewrite !template_step_category by done.
      cbn [template_channels template_category]. split; [done|].
      rewrite !od_get_set. by rewrite !bool_decide_true.
  - unfold parse_txt_lines, txt_run.
    rewrite fold_left_app. cbn [fold_left].
    apply (fold_left_related
             (fun s s' =>
                txt_category s = txt_category s'
                /\ od_get (template_line_name line) (txt_channels s)
                   = od_get (template_line_name line) (txt_channels s'))).
    + intros s s' l [Hcat Hget]. by apply txt_step_related.
    + rewrite !txt_step_genre by done.
      cbn [txt_channels txt_category]. split; [done|].
      rewrite !od_get_set. by rewrite !bool_decide_true.
Qed.

Lemma repeated_category_line_restarts_witness :
  od_get (utf8 "News")
    (parse_template_lines
       ([utf8 "News,#genre#"; utf8 "A"; utf8 "Kids,#genre#"; utf8 "B"]
        ++ utf8 "News,#genre#" :: [utf8 "C"]))
  = Some [utf8 "C"]
  /\ od_get (utf8 "News")
       (parse_txt_lines
          ([utf8 "News,#genre#"; utf8 "A,http://a/1"]
           ++ utf8 "News,#genre#" :: [utf8 "C,http://c/1"]))
     = Some [(utf8 "C", utf8 "http://c/1")].
Proof.
  destruct repeated_category_line_restarts as [Htemplate Htxt]. split.
  - exact (Htemplate
             [utf8 "News,#genre#"; utf8 "A"; utf8 "Kids,#genre#"; utf8 "B"]
             [utf8 "C"] (utf8 "News,#genre#") eq_refl).
  - exact (Htxt [utf8 "News,#genre#"; utf8 "A,http://a/1"]
             [utf8 "C,http://c/1"] (utf8 "News,#genre#") eq_refl).
Defined.

Lemma m3u_step_keeps (c : pystr) (l : list (pystr * pystr))
    (st : m3u_state) (line : pystr) :
  od_get c (m3u_channels st) = Some l ->
  exists l', od_get c (m3u_channels (m3u_step st line)) = Some (l ++ l').
Proof.
  intros Hget. unfold m3u_step.
  destruct (str_startswith lit_extinf (str_strip line)).
  { destruct (re_search_group_title (str_strip line)) as [[g1 g2]|];
      [|exists []; by rewrite app_nil_r].
    cbn [m3u_channels]. exists []. rewrite app_nil_r.
    destruct (od_mem (str_strip g1) (m3u_channels st)) eqn:Hmem; [done|].
    rewrite od_get_set. case_bool_decide as Hc; [|done].
    subst c. rewrite od_mem_get, Hget in Hmem. done. }
  destruct (truthy (str_strip line) && _);
    [|exists []; by rewrite app_nil_r].
  destruct (m3u_category st) as [current|], (m3u_name st) as [n|];
    try (exists []; by rewrite app_nil_r).
  destruct (truthy current && truthy n); cbn [m3u_channels];
    [|exists []; by rewrite app_nil_r].
  rewrite od_get_alter, Hget. case_bool_decide.
  - by eexists.
  - exists []. by rewrite app_nil_r.
Qed.

(** X17. The extended-format parser never discards a pair: what is
    stored under a category after some lines is a prefix of what is
    stored under it after any further lines, also when a metadata line
    names the category again. *)
Theorem extended_parser_only_appends (pre rest : list pystr) (c : pystr)
    (l : list (pystr * pystr)) :
  od_get c (parse_m3u_lines pre) = Some l ->
  exists l', od_get c (parse_m3u_lines (pre ++ rest)) = Some (l ++ l').
Proof.
  unfold parse_m3u_lines, m3u_run. rewrite fold_left_app.
  generalize (fold_left m3u_step pre m3u_init). intros st. revert st l.
  induction rest as [|line rest IH]; intros st l Hget; cbn [fold_left].
  - exists []. by rewrite app_nil_r.
  - destruct (m3u_step_keeps c l st line Hget) as [l1 Hstep].
    destruct (IH _ _ Hstep) as [l2 Hrest].
    exists (l1 ++ l2). by rewrite app_assoc.
Qed.

Lemma extended_parser_only_appends_witness :
  exists l',
    od_get (utf8 "News")
      (parse_m3u_lines
         ([sample_extinf_line; utf8 "http://x/1"]
          ++ [sample_extinf_line; utf8 "http://x/2"]))
    = Some ([(utf8 "CCTV1", utf8 "http://x/1")] ++ l').
Proof.
  exact (extended_parser_only_appends
           [sample_extinf_line; utf8 "http://x/1"]
           [sample_extinf_line; utf8 "http://x/2"] (utf8 "News")
           [(utf8 "CCTV1", utf8 "http://x/1")] eq_refl).
Defined.

(** ** The two files *)

Lemma write_to_files_appends (fs : files) (category channel_name : pystr)
    (index : N) (new_url : pystr) :
  write_to_files fs category channel_name index new_url
  = let e := {| e_category := category; e_name := channel_name;
                e_index := index; e_url := new_url |} in
    {| f_m3u := f_m3u fs ++ f_m3u (entry_records e);
       f_txt := f_txt fs ++ f_txt (entry_records e) |}.
Proof. reflexivity. Qed.

Lemma m3u_text_app (a b : list written_entry) :
  m3u_text (a ++ b) = m3u_text a ++ m3u_text b.
Proof. unfold m3u_text. by rewrite map_app, concat_app. Qed.

Lemma txt_text_app (a b : list written_entry) :
  txt_text (a ++ b) = txt_text a ++ txt_text b.
Proof. unfold txt_text. by rewrite map_app, concat_app. Qed.

Lemma write_urls_entries (category channel_name : pystr) (total_urls : N)
    (numbered : list (N * pystr)) (fs : files) :
  exists group,
    Forall (fun e => e_category e = category /\ e_name e = channel_name) group
    /\ fold_left
         (fun fs '(index, url) =>
            let new_url := add_url_suffix url index total_urls in
            write_to_files fs category channel_name index new_url)
         numbered fs
       = {| f_m3u := f_m3u fs ++ m3u_text group;
            f_txt := f_txt fs ++ txt_text group |}.
Proof.
  revert fs. induction numbered as [|[index url] numbered IH]; intros fs.
  - exists []. split; [constructor|]. cbn. rewrite !app_nil_r. by destruct fs.
  - cbn [fold_left].
    destruct (IH (write_to_files fs category channel_name index
                    (add_url_suffix url index total_urls)))
      as (group & Hgroup & Hfold).
    exists ({| e_category := category; e_name := channel_name;
               e_index := index;
               e_url := add_url_suffix url index total_urls |} :: group).
    split; [by constructor|].
    etrans; [exact Hfold|].
    rewrite write_to_files_appends. cbv zeta. cbn [f_m3u f_txt].
    change (?e :: group) with ([e] ++ group).
    rewrite m3u_text_app, txt_text_app. unfold m3u_text at 2, txt_text at 2.
    cbn [List.map concat]. by rewrite !app_nil_r, <- !app_assoc.
Qed.

Lemma write_channel_entries (cfg : config) (category : pystr)
    (inner : odict (list pystr)) (st : files * gset (list N))
    (channel_name : pystr) :
  exists group,
    Forall (fun e => e_category e = category /\ e_name e = channel_name) group
    /\ (write_channel cfg category inner st channel_name).1
       = {| f_m3u := f_m3u st.1 ++ m3u_text group;
            f_txt := f_txt st.1 ++ txt_text group |}.
Proof.
  destruct st as [fs written_urls]. unfold write_channel.
  destruct (od_get channel_name inner) as [urls|].
  - destruct (sort_and_filter_urls cfg urls written_urls)
      as [sorted_urls written_urls'].
    cbv zeta. cbn [fst].
    apply write_urls_entries.
  - exists []. split; [constructor|]. cbn. rewrite !app_nil_r. by destruct fs.
Qed.

Lemma write_channels_entries (cfg : config) (category : pystr)
    (inner : odict (list pystr)) (channel_list : list pystr)
    (st : files * gset (list N)) :
  exists group,
    group_of (category, channel_list) group
    /\ (fold_left (write_channel cfg category inner) channel_list st).1
       = {| f_m3u := f_m3u st.1 ++ m3u_text group;
            f_txt := f_txt st.1 ++ txt_text group |}.
Proof.
  unfold group_of. cbn [fst snd]. revert st.
  induction channel_list as [|name names IH]; intros st.
  - exists []. split; [constructor|]. cbn. rewrite !app_nil_r.
    by destruct st as [[] ?].
  - cbn [fold_left].
    destruct (write_channel_entries cfg category inner st name)
      as (g1 & Hg1 & Hfiles1).
    destruct (IH (write_channel cfg category inner st name))
      as (g2 & Hg2 & ->).
    rewrite Hfiles1. cbn [f_m3u f_txt].
    exists (g1 ++ g2). split.
    + apply Forall_app. split.
      * eapply Forall_impl; [exact Hg1|]. intros e [-> ->]. split; [done|left].
      * eapply Forall_impl; [exact Hg2|]. intros e [-> He].
        split; [done|by right].
    + by rewrite m3u_text_app, txt_text_app, <- !app_assoc.
Qed.

Lemma write_category_entries (cfg : config) (channels : matched_map)
    (st : files * gset (list N)) (entry : pystr * list pystr) :
  exists group,
    group_of entry group
    /\ (write_category cfg channels st entry).1
       = {| f_m3u := f_m3u st.1 ++ m3u_text group;
            f_txt := f_txt st.1 ++ category_header entry.1
                     ++ txt_text group |}.
Proof.
  destruct entry as [category channel_list]. unfold write_category.
  destruct (od_get category channels) as [inner|].
  - destruct (write_channels_entries cfg category inner channel_list
                ({| f_m3u := f_m3u st.1;
                    f_txt := f_txt st.1 ++ category ++ lit_header_mark
                             ++ [ch_nl] |}, st.2))
      as (group & Hgroup & ->).
    exists group. split; [done|]. cbn [fst f_m3u f_txt].
    unfold category_header. by rewrite <- !app_assoc.
  - exists []. split; [constructor|]. cbn [fst f_m3u f_txt].
    unfold category_header, m3u_text, txt_text. cbn [List.map concat].
    by rewrite !app_nil_r, <- ?app_assoc.
Qed.

Lemma write_categories_entries (cfg : config) (channels : matched_map)
    (template_channels : odict (list pystr)) (st : files * gset (list N)) :
  exists groups,
    Forall2 group_of template_channels groups
    /\ (fold_left (write_category cfg channels) template_channels st).1
       = {| f_m3u := f_m3u st.1 ++ m3u_text (concat groups);
            f_txt :=
              f_txt st.1
              ++ concat (zip_with
                           (fun category group =>
                              category_header category ++ txt_text group)
                           (od_keys template_channels) groups) |}.
Proof.
  revert st. induction template_channels as [|entry template IH]; intros st.
  - exists []. split; [constructor|]. cbn. rewrite !app_nil_r.
    by destruct st as [[] ?].
  - cbn [fold_left].
    destruct (write_category_entries cfg channels st entry)
      as (group & Hgroup & Hfiles).
    destruct (IH (write_category cfg channels st entry))
      as (groups & Hgroups & ->).
    rewrite Hfiles. cbn [f_m3u f_txt].
    exists (group :: groups). split; [by constructor|].
    cbn [concat od_keys List.map zip_with].
    by rewrite m3u_text_app, <- !app_assoc.
Qed.

(** X18. The two files hold the same entries in the same order: there
    is one list of entries, grouped by template category, such that
    [live.m3u] is its header line followed by the two lines of every
    entry, and [live.txt] is, for every template category in turn, the
    category line followed by the line of every entry of its group, and a
    final empty line. The entries of a group carry the category and one of
    the channel names the template lists under it. *)
Theorem files_hold_the_same_entries (cfg : config) (now : datetime)
    (channels : matched_map) (template_channels : odict (list pystr)) :
  exists groups : list (list written_entry),
    Forall2 group_of template_channels groups
    /\ f_m3u (updateChannelUrlsM3U cfg now channels template_channels)
       = m3u_header cfg ++ m3u_text (concat groups)
    /\ f_txt (updateChannelUrlsM3U cfg now channels template_channels)
       = concat (zip_with
                   (fun category group =>
                      category_header category ++ txt_text group)
                   (od_keys template_channels) groups)
         ++ [ch_nl].
Proof.
  unfold updateChannelUrlsM3U. cbv zeta.
  destruct (write_categories_entries cfg channels template_channels
              ({| f_m3u := m3u_header cfg; f_txt := [] |}, ∅))
    as (groups & Hgroups & Hfiles).
  exists groups. split; [done|].
  unfold m3u_header in Hfiles. rewrite Hfiles. cbn [fst f_m3u f_txt app].
  done.
Qed.

Lemma write_channel_unmatched (cfg : config) (category : pystr)
    (st : files * gset (list N)) (channel_name : pystr) :
  write_channel cfg category [] st channel_name = st.
Proof. by destruct st. Qed.

Lemma write_category_unmatched (cfg : config) (channels : matched_map)
    (st : files * gset (list N)) (entry : pystr * list pystr) :
  (forall inner, od_get entry.1 channels = Some inner -> inner = []) ->
  write_category cfg channels st entry
  = ({| f_m3u := f_m3u st.1;
        f_txt := f_txt st.1 ++ category_header entry.1 |}, st.2).
Proof.
  destruct entry as [category channel_list]. cbn [fst]. intros Hinner.
  unfold write_category, category_header.
  destruct (od_get category channels) as [inner|]; [|done].
  rewrite (Hinner inner eq_refl).
  apply (fold_left_invariant (fun s => s = _)); [|done].
  intros s name ->. apply write_channel_unmatched.
Qed.

Lemma write_categories_unmatched (cfg : config) (channels : matched_map)
    (template_channels : odict (list pystr)) (st : files * gset (list N)) :
  Forall (fun entry : pystr * odict (list pystr) => entry.2 = []) channels ->
  fold_left (write_category cfg channels) template_channels st
  = ({| f_m3u := f_m3u st.1;
        f_txt := f_txt st.1
                 ++ concat (List.map category_header
                              (od_keys template_channels)) |}, st.2).
Proof.
  intros Hchannels. revert st.
  induction template_channels as [|entry template IH]; intros st.
  - cbn. rewrite app_nil_r. by destruct st as [[] ?].
  - cbn [fold_left]. rewrite write_category_unmatched.
    + rewrite IH. cbn [fst snd f_m3u f_txt od_keys List.map concat].
      by rewrite <- app_assoc.
    + intros inner Hget. apply od_get_elem in Hget.
      rewrite Forall_forall in Hchannels. apply (Hchannels _ Hget).
Qed.

Lemma match_names_nil (channel_list : list pystr)
    (inner : odict (list pystr)) :
  match_names channel_list [] inner = inner.
Proof.
  unfold match_names.
  apply (fold_left_invariant (fun i => i = inner)); [|done].
  by intros i name ->.
Qed.

Lemma match_channels_nil (template_channels : odict (list pystr)) :
  Forall (fun entry : pystr * odict (list pystr) => entry.2 = [])
    (match_channels template_channels []).
Proof.
  rewrite match_channels_alt.
  apply (fold_left_invariant
           (Forall (fun entry : pystr * odict (list pystr) => entry.2 = [])));
    [|constructor].
  intros matched [category channel_list] Hmatched.
  apply od_set_Forall; [done|]. apply match_names_nil.
Qed.

(** X19. When no source yields a category (every request fails, say),
    the run still writes both files: [live.m3u] then holds its header line
    and nothing else, [live.txt] the category lines of the template and the
    final empty line. *)
Theorem run_without_sources_writes_headers (cfg : config)
    (fetch : pystr -> option pystr) (now : datetime)
    (template_content : pystr) :
  (forall url, url ∈ source_urls cfg -> fetch_channels (fetch url) = []) ->
  main cfg fetch now template_content
  = {| f_m3u := m3u_header cfg;
       f_txt := concat (List.map category_header
                          (od_keys (parse_template template_content)))
                ++ [ch_nl] |}.
Proof.
  intros Hfetch. unfold main, filter_source_urls. cbv zeta.
  assert (Hall : fold_left
                   (fun all_channels url =>
                      merge_channels all_channels (fetch_channels (fetch url)))
                   (source_urls cfg) [] = []).
  { apply (fold_left_invariant_in (fun all => all = [])); [|done].
    intros all url Hurl ->. by rewrite Hfetch. }
  rewrite Hall. unfold updateChannelUrlsM3U. cbv zeta.
  rewrite write_categories_unmatched by apply match_channels_nil.
  done.
Qed.

Lemma run_without_sources_writes_headers_witness :
  main (sample_config (utf8 "ipv4")) (fun _ => None) (sample_now 9)
    sample_template
  = {| f_m3u := m3u_header (sample_config (utf8 "ipv4"));
       f_txt := concat (List.map category_header
                          (od_keys (parse_template sample_template)))
                ++ [ch_nl] |}.
Proof.
  apply (run_without_sources_writes_headers (sample_config (utf8 "ipv4"))
           (fun _ => None) (sample_now 9) sample_template).
  intros url _. reflexivity.
Defined.

(** ** The names of the template *)

Lemma take_while_Forall (p : N -> bool) (l : pystr) :
  Forall (fun x => p x = true) (take_while p l).
Proof.
  induction l as [|x l IH]; cbn [take_while]; [constructor|].
  destruct (p x) eqn:Hx; by constructor.
Qed.

Lemma template_line_name_trimmed (line : pystr) :
  str_strip (template_line_name line) = template_line_name line
  /\ ch_comma ∉ template_line_name line.
Proof.
  unfold template_line_name. split; [apply str_strip_idemp|].
  intros Hin%str_strip_elem. unfold pre_comma in Hin.
  pose proof (take_while_Forall (fun c => negb (c =? ch_comma))
                (str_strip line)) as Hall.
  rewrite Forall_forall in Hall. specialize (Hall _ Hin). done.
Qed.

(** An invariant of the entries of [parse_template]: a property that holds
    of a new category and is kept when a line appends its name under a
    category that is not empty. *)
Lemma template_entries_invariant
    (E : pystr * list pystr -> Prop) (lines : list pystr) :
  (forall line, E (template_line_name line, [])) ->
  (forall c l line,
      truthy c = true -> E (c, l) -> E (c, l ++ [template_line_name line])) ->
  Forall E (parse_template_lines lines).
Proof.
  intros Hnew Hname. unfold parse_template_lines, template_run.
  apply (fold_left_invariant (fun st => Forall E (template_channels st)));
    [|constructor].
  intros st line Hst. unfold template_step.
  destruct (truthy (str_strip line) && _); [|done].
  destruct (str_contains lit_genre (str_strip line));
    cbn [template_channels].
  { apply od_set_Forall; [done|]. rewrite str_split_hd. apply Hnew. }
  destruct (template_category st) as [c|]; [|done].
  destruct (truthy c) eqn:Hc; [|done].
  cbn [template_channels]. apply od_alter_Forall; [done|].
  intros l Hl. rewrite str_split_hd. by apply Hname.
Qed.

(** X20. The categories and channel names of the parsed template are
    trimmed and contain no comma, and only a category that is not the empty
    string has channel names. *)
Theorem template_names_are_trimmed (lines : list pystr) (category : pystr)
    (channel_list : list pystr) :
  (category, channel_list) ∈ parse_template_lines lines ->
  str_strip category = category /\ (ch_comma ∉ category)
  /\ (channel_list <> [] -> category <> [])
  /\ forall name, name ∈ channel_list ->
       str_strip name = name /\ ch_comma ∉ name.
Proof.
  intros Hentry.
  pose proof (template_entries_invariant
                (fun entry =>
                   str_strip entry.1 = entry.1 /\ (ch_comma ∉ entry.1)
                   /\ (entry.2 <> [] -> entry.1 <> [])
                   /\ Forall (fun name => str_strip name = name
                                          /\ ch_comma ∉ name) entry.2)
                lines) as Hall.
  rewrite Forall_forall in Hall.
  destruct (Hall) with (x := (category, channel_list))
    as (Hstrip & Hcomma & Hne & Hnames); [| |done|].
  - intros line. cbn [fst snd].
    destruct (template_line_name_trimmed line) as [Hs Hc].
    split_and!; [done|done|done|constructor].
  - intros c l line Hc (Hs & Hcm & _ & Hl). cbn [fst snd] in *.
    split_and!; [done|done|by intros _; destruct c|].
    apply Forall_app. split; [done|].
    constructor; [apply template_line_name_trimmed|constructor].
  - cbn [fst snd] in *. split_and!; [done|done|done|].
    intros name Hname. rewrite Forall_forall in Hnames. by apply Hnames.
Qed.

Lemma template_names_are_trimmed_witness :
  str_strip (utf8 "News") = utf8 "News" /\ (ch_comma ∉ utf8 "News")
  /\ ([utf8 "CCTV1"; utf8 "Other"] <> [] -> utf8 "News" <> [])
  /\ forall name, name ∈ [utf8 "CCTV1"; utf8 "Other"] ->
       str_strip name = name /\ ch_comma ∉ name.
Proof.
  apply (template_names_are_trimmed
           [utf8 " News ,#genre#"; utf8 "CCTV1,x"; utf8 "  Other  "]
           (utf8 "News") [utf8 "CCTV1"; utf8 "Other"]).
  vm_compute. left.
Defined.
